(** * NineSong: the catalogue query engine of the audio scene

    A shallow embedding of the two repositories of
    [repository/repository_file_entity/scene_audio/scene_audio_route_repository]:
    [repository_route_media_file.go] (tracks) and
    [repository_route_album.go] (albums).

    Both repositories compose a MongoDB aggregation pipeline out of
    [bson.D] documents and hand it to the catalogue store.  The file is
    organised as follows:

    - [Strconv], [Strings]: the functions of Go's standard library the
      code calls ([strconv.Atoi], [strconv.ParseBool], [strings.ToLower]);
    - [Bson]: BSON values, [bson.D] and [bson.A];
    - [Store]: the catalogue store, an evaluator for the pipeline stages
      the two files emit, over the regular expression library of the
      store, which is a parameter;
    - [Fragment]: one such library, for the concrete runs;
    - [GoContext], [Mongo], [Models]: deadlines, the database handle and
      the result records;
    - [Engine]: the functions of the two Go files under their own names,
      the four repository methods, and their properties;
    - the properties at a concrete catalogue. *)

From stdpp Require Import base option list strings gmap sorting.
From Stdlib Require Import ZArith Ascii String Bool Lia Sorted Permutation.

Set Warnings "-register-all".

Local Open Scope string_scope.
Local Open Scope list_scope.
Local Open Scope stdpp_scope.
Local Open Scope Z_scope.

(** ** Go's standard library *)

Module Strconv.

(** [int] is 64 bits wide on the platforms the service is built for;
    its arithmetic wraps around. *)
Definition minInt : Z := - 2 ^ 63.
Definition maxInt : Z := 2 ^ 63 - 1.
Definition wrapInt (z : Z) : Z := (z + 2 ^ 63) mod 2 ^ 64 - 2 ^ 63.
Definition subInt (a b : Z) : Z := wrapInt (a - b).

Definition digit (c : ascii) : option Z :=
  let n := Z.of_N (N_of_ascii c) in
  if (48 <=? n) && (n <=? 57) then Some (n - 48) else None.

Fixpoint digits (acc : Z) (s : string) : option Z :=
  match s with
  | EmptyString => Some acc
  | String c rest =>
      match digit c with
      | Some d => digits (acc * 10 + d) rest
      | None => None
      end
  end.

(** [strconv.Atoi]: an optional sign, then one or more decimal digits;
    [None] is the syntax error or the range error of the Go function. *)
Definition Atoi (s : string) : option Z :=
  let '(neg, body) :=
    match s with
    | String "-"%char rest => (true, rest)
    | String "+"%char rest => (false, rest)
    | _ => (false, s)
    end in
  match body with
  | EmptyString => None
  | _ =>
      match digits 0 body with
      | Some n =>
          let v := if neg : bool then - n else n in
          if (minInt <=? v) && (v <=? maxInt) then Some v else None
      | None => None
      end
  end.

(** [strconv.ParseBool]: exactly the twelve spellings below. *)
Definition ParseBool (str : string) : option bool :=
  if existsb (String.eqb str) ["1"; "t"; "T"; "TRUE"; "true"; "True"]
  then Some true
  else if existsb (String.eqb str) ["0"; "f"; "F"; "FALSE"; "false"; "False"]
  then Some false
  else None.

End Strconv.

Module Strings.

Definition code (c : ascii) : Z := Z.of_N (N_of_ascii c).

Definition isASCII (s : string) : bool :=
  forallb (fun c => code c <? 128) (list_ascii_of_string s).

Definition lowerByte (c : ascii) : ascii :=
  if (65 <=? code c) && (code c <=? 90)
  then ascii_of_N (N_of_ascii c + 32)
  else c.

Fixpoint lowerASCII (s : string) : string :=
  match s with
  | EmptyString => EmptyString
  | String c rest => String (lowerByte c) (lowerASCII rest)
  end.

(** [strings.ToLower].  A string of ASCII bytes is lowered byte by byte,
    as the fast path of the Go function does; any other string goes
    through [strings.Map(unicode.ToLower, s)], whose case tables are
    not part of this development and are taken as the argument
    [mapUnicode]. *)
Definition ToLower (mapUnicode : string -> string) (s : string) : string :=
  if isASCII s then lowerASCII s else mapUnicode s.

End Strings.

(** ** BSON *)

Module Bson.

(** BSON values as the driver encodes them.  [VDoc] is [bson.D], an
    ordered list of [bson.E] key/value pairs in which a key may repeat;
    [VArr] is [bson.A] and every Go slice ([[]bson.D]); [VNull] is Go's
    [nil]. *)
Inductive value : Type :=
| VNull
| VBool (b : bool)
| VInt (n : Z)
| VStr (s : string)
| VDate (t : Z)
| VArr (l : list value)
| VDoc (d : list (string * value)).

Definition E : Type := string * value.
Definition D : Type := list E.
Definition A : Type := list value.

(** The first pair with key [k], as a BSON reader resolves a field. *)
Fixpoint get (k : string) (d : D) : option value :=
  match d with
  | [] => None
  | (k', v) :: rest => if String.eqb k k' then Some v else get k rest
  end.

Fixpoint remove (k : string) (d : D) : D :=
  match d with
  | [] => []
  | (k', v) :: rest =>
      if String.eqb k k' then remove k rest else (k', v) :: remove k rest
  end.

(** Replaces the field in place, or appends it when it is absent. *)
Fixpoint set (k : string) (v : value) (d : D) : D :=
  match d with
  | [] => [(k, v)]
  | (k', v') :: rest =>
      if String.eqb k k' then (k, v) :: remove k rest
      else (k', v') :: set k v rest
  end.

Fixpoint eqb (a b : value) {struct a} : bool :=
  match a, b with
  | VNull, VNull => true
  | VBool x, VBool y => Bool.eqb x y
  | VInt x, VInt y => (x =? y)%Z
  | VStr x, VStr y => String.eqb x y
  | VDate x, VDate y => (x =? y)%Z
  | VArr x, VArr y =>
      (fix all (l1 l2 : list value) {struct l1} : bool :=
         match l1, l2 with
         | [], [] => true
         | v1 :: r1, v2 :: r2 => eqb v1 v2 && all r1 r2
         | _, _ => false
         end) x y
  | VDoc x, VDoc y =>
      (fix all (l1 l2 : list (string * value)) {struct l1} : bool :=
         match l1, l2 with
         | [], [] => true
         | (k1, v1) :: r1, (k2, v2) :: r2 =>
             String.eqb k1 k2 && eqb v1 v2 && all r1 r2
         | _, _ => false
         end) x y
  | _, _ => false
  end.

End Bson.

Import Bson.

(** ** The catalogue store

    The store is the external collaborator of the engine.  This module
    gives the meaning of the pipeline stages the two repositories emit
    ([$lookup], [$unwind], [$addFields], [$match], [$sort], [$skip],
    [$limit], [$facet], [$count]) following MongoDB's documented
    behaviour.  A pipeline the store rejects, or one that uses an operator
    outside this fragment, evaluates to [None]. *)

Module Store.

(** *** Field paths *)

(** ["a.b.c"] is the path [["a"; "b"; "c"]]. *)
Fixpoint splitPath (s : string) : list string :=
  match s with
  | EmptyString => [EmptyString]
  | String c rest =>
      if Ascii.eqb c "."%char then EmptyString :: splitPath rest
      else
        match splitPath rest with
        | seg :: segs => String c seg :: segs
        | [] => [String c EmptyString]
        end
  end.

(** The values a query clause on [path] is tested against; [None] is a
    missing field.  A query descends into the documents of an array, and
    at the end of the path an array offers itself and each of its
    elements. *)
Fixpoint candidates (path : list string) (v : value) : list (option value) :=
  match path with
  | [] =>
      Some v :: match v with VArr l => map Some l | _ => [] end
  | k :: rest =>
      match v with
      | VDoc d =>
          match get k d with
          | Some x => candidates rest x
          | None => [None]
          end
      | VArr l =>
          flat_map
            (fun e =>
               match e with
               | VDoc d =>
                   match get k d with
                   | Some x => candidates rest x
                   | None => [None]
                   end
               | _ => []
               end) l
      | _ => [None]
      end
  end.

(** The value of the aggregation expression ["$a.b"]; [None] is the
    missing value.  Through an array the path collects the values found
    in its documents. *)
Fixpoint fieldPath (path : list string) (v : value) : option value :=
  match path with
  | [] => Some v
  | k :: rest =>
      match v with
      | VDoc d =>
          match get k d with
          | Some x => fieldPath rest x
          | None => None
          end
      | VArr l =>
          Some (VArr
            (omap
               (fun e =>
                  match e with
                  | VDoc d =>
                      match get k d with
                      | Some x => fieldPath rest x
                      | None => None
                      end
                  | _ => None
                  end) l))
      | _ => None
      end
  end.

(** *** Regular expressions

    The store matches [$regex] with its regular expression library
    (PCRE), which is outside this development.  [Regexp] is what the
    store asks of it: to compile a pattern under a string of options,
    which the library may refuse, and to tell of a subject whether the
    compiled pattern matches somewhere in it. *)

Definition Regexp : Type := string -> string -> option (string -> bool).

(** *** Aggregation expressions *)

Definition truthy (v : option value) : bool :=
  match v with
  | None | Some VNull | Some (VBool false) | Some (VInt 0) => false
  | Some _ => true
  end.

Definition sameValue (a b : option value) : bool :=
  match a, b with
  | None, None => true
  | Some x, Some y => Bson.eqb x y
  | _, _ => false
  end.

Definition stripDollar (s : string) : option string :=
  match s with
  | String "$"%char rest => Some rest
  | _ => None
  end.

(** [vars] holds the [let] variables of an enclosing [$lookup]; [d] is
    the current document.  ["$$x"] reads a variable, ["$a.b"] a field,
    [{$eq: [a, b]}] and [{$and: [...]}] are the two operators in use;
    any other value is a literal. *)
Fixpoint evalExpr (vars d : D) (e : value) {struct e} : option value :=
  match e with
  | VStr s =>
      match stripDollar s with
      | Some s' =>
          match stripDollar s' with
          | Some x => get x vars
          | None => fieldPath (splitPath s') (VDoc d)
          end
      | None => Some e
      end
  | VDoc [(op, VArr args)] =>
      if String.eqb op "$eq" then
        match args with
        | [a; b] => Some (VBool (sameValue (evalExpr vars d a) (evalExpr vars d b)))
        | _ => None
        end
      else if String.eqb op "$and" then
        Some (VBool
          ((fix all (l : list value) : bool :=
              match l with
              | [] => true
              | a :: l' => truthy (evalExpr vars d a) && all l'
              end) args))
      else Some e
  | _ => Some e
  end.

(** *** Query filters *)

Definition isNull (v : value) : bool :=
  match v with VNull => true | _ => false end.

(** [{field: v}]: some candidate equals [v]; [null] also matches a
    missing field. *)
Definition eqMatch (v : value) (cands : list (option value)) : bool :=
  existsb
    (fun c => match c with Some x => Bson.eqb x v | None => isNull v end)
    cands.

Definition isOperatorDoc (ops : D) : bool :=
  match ops with
  | (k, _) :: _ => String.prefix "$" k
  | [] => false
  end.

(** The options that go with a [$regex]: the string under [$options],
    or none. *)
Definition regexOptions (ops : D) : string :=
  match get "$options" ops with
  | Some (VStr o) => o
  | _ => ""
  end.

Section Matching.

(** The regular expression library of the store. *)
Variable regexp : Regexp.

(** One operator of [{field: {$op: arg, ...}}].  The ordering operators
    compare numbers with numbers only. *)
Definition evalOp (ops : D) (cands : list (option value)) (o : E) : bool :=
  let '(op, arg) := o in
  if String.eqb op "$gt" then
    existsb (fun c => match c, arg with
                      | Some (VInt x), VInt n => n <? x
                      | _, _ => false end) cands
  else if String.eqb op "$gte" then
    existsb (fun c => match c, arg with
                      | Some (VInt x), VInt n => n <=? x
                      | _, _ => false end) cands
  else if String.eqb op "$lte" then
    existsb (fun c => match c, arg with
                      | Some (VInt x), VInt n => x <=? n
                      | _, _ => false end) cands
  else if String.eqb op "$ne" then negb (eqMatch arg cands)
  else if String.eqb op "$regex" then
    match arg with
    | VStr pattern =>
        match regexp pattern (regexOptions ops) with
        | Some matches =>
            existsb (fun c => match c with
                              | Some (VStr subject) => matches subject
                              | _ => false end) cands
        | None => false
        end
    | _ => false
    end
  else if String.eqb op "$options" then true
  else false.

Definition evalField (k : string) (v : value) (d : D) : bool :=
  let cands := candidates (splitPath k) (VDoc d) in
  match v with
  | VDoc ops =>
      if isOperatorDoc ops then forallb (evalOp ops cands) ops
      else eqMatch v cands
  | _ => eqMatch v cands
  end.

(** A filter document is the conjunction of its clauses. *)
Fixpoint evalFilter (vars : D) (f : value) (d : D) {struct f} : bool :=
  match f with
  | VDoc clauses =>
      (fix conj (cs : list (string * value)) : bool :=
         match cs with
         | [] => true
         | (k, v) :: cs' =>
             (if String.eqb k "$and" then
                match v with
                | VArr fs =>
                    (fix all (l : list value) : bool :=
                       match l with
                       | [] => true
                       | g :: l' => evalFilter vars g d && all l'
                       end) fs
                | _ => false
                end
              else if String.eqb k "$or" then
                match v with
                | VArr fs =>
                    (fix any (l : list value) : bool :=
                       match l with
                       | [] => false
                       | g :: l' => evalFilter vars g d || any l'
                       end) fs
                | _ => false
                end
              else if String.eqb k "$expr" then truthy (evalExpr vars d v)
              else evalField k v d)
             && conj cs'
         end) clauses
  | _ => false
  end.

(** The store refuses a [$regex] that its library does not compile
    under the options given with it. *)
Definition validOp (ops : D) (o : E) : bool :=
  let '(op, arg) := o in
  if String.eqb op "$regex" then
    match arg with
    | VStr pattern =>
        match regexp pattern (regexOptions ops) with
        | Some _ => true
        | None => false
        end
    | _ => false
    end
  else if String.eqb op "$options" then
    match arg with
    | VStr _ => true
    | _ => false
    end
  else existsb (String.eqb op) ["$gt"; "$gte"; "$lte"; "$ne"].

Definition validField (v : value) : bool :=
  match v with
  | VDoc ops => if isOperatorDoc ops then forallb (validOp ops) ops else true
  | _ => true
  end.

(** What the store checks before it runs a filter: [$and] and [$or]
    take a non-empty array of filters, and every operator is known and
    well-formed. *)
Fixpoint validFilter (f : value) {struct f} : bool :=
  match f with
  | VDoc clauses =>
      (fix conj (cs : list (string * value)) : bool :=
         match cs with
         | [] => true
         | (k, v) :: cs' =>
             (if String.eqb k "$and" || String.eqb k "$or" then
                match v with
                | VArr (g :: fs) =>
                    validFilter g
                    && (fix all (l : list value) : bool :=
                          match l with
                          | [] => true
                          | h :: l' => validFilter h && all l'
                          end) fs
                | _ => false
                end
              else if String.eqb k "$expr" then true
              else negb (String.prefix "$" k) && validField v)
             && conj cs'
         end) clauses
  | _ => false
  end.

(** *** Sort order *)

(** BSON's comparison order across types (null, numbers, strings,
    documents, arrays, booleans, dates), and within a type the order of
    the numbers, of the bytes of the strings, of the booleans and of the
    dates.  Documents and arrays are not ordered among themselves here:
    the catalogue sorts on scalar fields. *)
Definition sortCode (v : value) : list Z :=
  match v with
  | VNull => [1]
  | VInt n => [2; n]
  | VStr s => 3 :: map Strings.code (list_ascii_of_string s)
  | VDoc _ => [4]
  | VArr _ => [5]
  | VBool b => [6; if b then 1 else 0]
  | VDate t => [7; t]
  end.

Fixpoint compareCodes (a b : list Z) : comparison :=
  match a, b with
  | [], [] => Eq
  | [], _ :: _ => Lt
  | _ :: _, [] => Gt
  | x :: a', y :: b' =>
      match x ?= y with
      | Eq => compareCodes a' b'
      | c => c
      end
  end.

Definition compareValues (a b : value) : comparison :=
  compareCodes (sortCode a) (sortCode b).

(** A missing sort field sorts as [null]. *)
Definition sortField (f : string) (d : D) : value :=
  default VNull (fieldPath (splitPath f) (VDoc d)).

(** The keys of a [$sort] document, in order, each with its direction.
    A key may occur twice (the default sort field is ["_id"] itself): the
    comparison goes through the keys as they come. *)
Fixpoint compareDocs (keys : list (string * Z)) (a b : D) : comparison :=
  match keys with
  | [] => Eq
  | (f, dir) :: keys' =>
      let c := compareValues (sortField f a) (sortField f b) in
      match (if dir =? 1 then c else CompOpp c) with
      | Eq => compareDocs keys' a b
      | c' => c'
      end
  end.

Definition docLe (keys : list (string * Z)) (a b : D) : bool :=
  match compareDocs keys a b with
  | Gt => false
  | _ => true
  end.

(** What the store promises of [$sort]: the output is a rearrangement of
    the input in which no document precedes a smaller one.  Documents
    that compare equal on every key may come in any order. *)
Definition sortedBy (keys : list (string * Z)) (input output : list D) : Prop :=
  Permutation input output /\ Sorted (fun a b => docLe keys a b = true) output.

Fixpoint insertDoc (keys : list (string * Z)) (x : D) (l : list D) : list D :=
  match l with
  | [] => [x]
  | y :: l' =>
      if docLe keys x y then x :: y :: l' else y :: insertDoc keys x l'
  end.

(** One such rearrangement, used to run pipelines. *)
Definition sortDocs (keys : list (string * Z)) (l : list D) : list D :=
  fold_right (insertDoc keys) [] l.

Fixpoint sortKeys (spec : D) : option (list (string * Z)) :=
  match spec with
  | [] => Some []
  | (f, VInt dir) :: spec' =>
      if (dir =? 1) || (dir =? -1) then
        match sortKeys spec' with
        | Some keys => Some ((f, dir) :: keys)
        | None => None
        end
      else None
  | _ => None
  end.

(** *** Stages *)

Definition unwindDoc (field : string) (preserve : bool) (d : D) : list D :=
  match get field d with
  | Some (VArr []) => if preserve then [remove field d] else []
  | Some (VArr l) => map (fun e => set field e d) l
  | Some VNull | None => if preserve then [d] else []
  | Some _ => [d]
  end.

(** [$addFields] sets each field to the value of its expression; a
    missing value leaves the document without the field. *)
Fixpoint addFields (fields : D) (d : D) : D :=
  match fields with
  | [] => d
  | (k, e) :: fields' =>
      addFields fields'
        match evalExpr [] d e with
        | Some v => set k v d
        | None => remove k d
        end
  end.

Definition countDocs (name : string) (docs : list D) : list D :=
  match docs with
  | [] => []
  | _ => [ [(name, VInt (Z.of_nat (List.length docs)))] ]
  end.

(** The stages that need no other collection.  [vars] are the variables
    of an enclosing [$lookup]. *)
Definition runBasic (vars : D) (stage : D) (docs : list D) : option (list D) :=
  match stage with
  | [(op, arg)] =>
      if String.eqb op "$match" then
        if validFilter arg then Some (filter (fun d => evalFilter vars arg d = true) docs)
        else None
      else if String.eqb op "$unwind" then
        match arg with
        | VDoc spec =>
            match get "path" spec with
            | Some (VStr p) =>
                match stripDollar p with
                | Some field =>
                    let preserve :=
                      match get "preserveNullAndEmptyArrays" spec with
                      | Some (VBool b) => b
                      | _ => false
                      end in
                    Some (flat_map (unwindDoc field preserve) docs)
                | None => None
                end
            | _ => None
            end
        | _ => None
        end
      else if String.eqb op "$addFields" then
        match arg with
        | VDoc fields => Some (map (addFields fields) docs)
        | _ => None
        end
      else if String.eqb op "$sort" then
        match arg with
        | VDoc (k :: spec) =>
            match sortKeys (k :: spec) with
            | Some keys => Some (sortDocs keys docs)
            | None => None
            end
        | _ => None
        end
      else if String.eqb op "$skip" then
        match arg with
        | VInt n => if 0 <=? n then Some (drop (Z.to_nat n) docs) else None
        | _ => None
        end
      else if String.eqb op "$limit" then
        match arg with
        | VInt n => if 0 <? n then Some (take (Z.to_nat n) docs) else None
        | _ => None
        end
      else if String.eqb op "$count" then
        match arg with
        | VStr name => Some (countDocs name docs)
        | _ => None
        end
      else None
  | _ => None
  end.

Fixpoint runBasics (vars : D) (stages : list value) (docs : list D)
    : option (list D) :=
  match stages with
  | [] => Some docs
  | VDoc stage :: stages' =>
      match runBasic vars stage docs with
      | Some docs' => runBasics vars stages' docs'
      | None => None
      end
  | _ => None
  end.

(** A database: its collections by name.  A collection that does not
    exist reads as empty. *)
Definition collectionOf (colls : gmap string (list D)) (name : string) : list D :=
  default [] (colls !! name).

(** [$lookup] with [let] and [pipeline]: for every input document the
    sub-pipeline runs over the foreign collection with the [let]
    variables bound, and its output is stored as an array under [as]. *)
Definition lookupDoc (foreign : list D) (lets : D) (sub : list value)
    (as_ : string) (d : D) : option D :=
  let vars := omap (fun '(x, e) => match evalExpr [] d e with
                                   | Some v => Some (x, v)
                                   | None => None end) lets in
  match runBasics vars sub foreign with
  | Some found => Some (set as_ (VArr (map VDoc found)) d)
  | None => None
  end.

Fixpoint facetBranches (branches : D) (docs : list D) : option D :=
  match branches with
  | [] => Some []
  | (name, VArr sub) :: branches' =>
      match runBasics [] sub docs, facetBranches branches' docs with
      | Some out, Some rest => Some ((name, VArr (map VDoc out)) :: rest)
      | _, _ => None
      end
  | _ => None
  end.

Definition runStage (colls : gmap string (list D)) (stage : D) (docs : list D)
    : option (list D) :=
  match stage with
  | [(op, arg)] =>
      if String.eqb op "$lookup" then
        match arg with
        | VDoc spec =>
            match get "from" spec, get "let" spec,
                  get "pipeline" spec, get "as" spec with
            | Some (VStr from), Some (VDoc lets), Some (VArr sub), Some (VStr as_) =>
                mapM (lookupDoc (collectionOf colls from) lets sub as_) docs
            | _, _, _, _ => None
            end
        | _ => None
        end
      else if String.eqb op "$facet" then
        match arg with
        | VDoc branches =>
            match facetBranches branches docs with
            | Some out => Some [out]
            | None => None
            end
        | _ => None
        end
      else runBasic [] stage docs
  | _ => None
  end.

Fixpoint runPipeline (colls : gmap string (list D)) (pipeline : list D)
    (docs : list D) : option (list D) :=
  match pipeline with
  | [] => Some docs
  | stage :: pipeline' =>
      match runStage colls stage docs with
      | Some docs' => runPipeline colls pipeline' docs'
      | None => None
      end
  end.

End Matching.

End Store.

(** ** A regular expression library for the runs

    One regular expression library, for the runs over the concrete
    catalogue.  It implements a fragment of the pattern language: a
    pattern is a sequence of characters, each either an ordinary
    character, which stands for itself, or [.], which stands for any
    character but a line feed; the options are none or [i], which
    matches without regard to the case of the ASCII letters.  The match
    is unanchored.  Strings are UTF-8: [.] takes a character with all
    its bytes.  Any other pattern it refuses.  The runs use it on
    patterns of the fragment and on the pattern [(], which PCRE refuses
    as well, for its unmatched parenthesis. *)

Module Fragment.

(** The characters with a meaning of their own in a pattern. *)
Definition metachars : list ascii :=
  list_ascii_of_string "\^$.|?*+()[]{}".

(** The characters that stand for themselves in a pattern.  The NUL
    byte is not one of them: a pattern ends at it. *)
Definition ordinary (c : ascii) : bool :=
  negb (Strings.code c =? 0) && negb (existsb (Ascii.eqb c) metachars).

Definition inFragment (pattern : string) : bool :=
  forallb (fun c => ordinary c || Ascii.eqb c "."%char)
    (list_ascii_of_string pattern).

(** The bytes [10xxxxxx] continue a character. *)
Definition continues (c : ascii) : bool :=
  (128 <=? Strings.code c) && (Strings.code c <? 192).

Fixpoint dropContinuation (s : string) : string :=
  match s with
  | EmptyString => EmptyString
  | String c s' => if continues c then dropContinuation s' else s
  end.

Definition byteMatches (caseless : bool) (p x : ascii) : bool :=
  if caseless
  then Ascii.eqb (Strings.lowerByte p) (Strings.lowerByte x)
  else Ascii.eqb p x.

Fixpoint matchHere (caseless : bool) (pattern subject : string) : bool :=
  match pattern with
  | EmptyString => true
  | String p pattern' =>
      match subject with
      | EmptyString => false
      | String x subject' =>
          if Ascii.eqb p "."%char
          then negb (Strings.code x =? 10)
               && matchHere caseless pattern' (dropContinuation subject')
          else byteMatches caseless p x && matchHere caseless pattern' subject'
      end
  end.

Fixpoint regexSearch (caseless : bool) (pattern subject : string) : bool :=
  matchHere caseless pattern subject
  || match subject with
     | EmptyString => false
     | String _ subject' => regexSearch caseless pattern subject'
     end.

Definition regexp : Store.Regexp :=
  fun pattern options =>
    if inFragment pattern
    then if String.eqb options "" then Some (regexSearch false pattern)
         else if String.eqb options "i" then Some (regexSearch true pattern)
         else None
    else None.

End Fragment.

(** ** Contexts, the database handle and the result records *)

Module GoContext.

(** [context.Context], as far as deadlines go: the time left until the
    deadline, in nanoseconds, or [None] when the context has none.
    Cancellation is not modelled: what follows is about requests that
    their caller does not cancel. *)
Record Context : Type := { Deadline : option Z }.

Definition Background : Context := {| Deadline := None |}.

Definition Second : Z := 1000000000.

(** [context.WithTimeout]: the child expires at the earlier of the
    parent's deadline and the timeout. *)
Definition WithTimeout (parent : Context) (timeout : Z) : Context :=
  {| Deadline :=
       Some match Deadline parent with
            | Some remaining => Z.min remaining timeout
            | None => timeout
            end |}.

End GoContext.

Import GoContext.

Module Mongo.

(** Modelled from the spec: the [mongo.Database] wrapper of the
    repository's [mongo] package, which is not among the sources.  The
    store runs a composed multi-stage query against a named collection
    and returns either a result stream or a store-level error, and it
    honours a per-call deadline.  [RoundTrip] is the time the store
    needs to answer, in nanoseconds. *)
Record Database : Type :=
  { Collections : gmap string (list D);
    RoundTrip : Z }.

Inductive storeError : Type :=
| DeadlineExceeded
| CommandFailed.

Definition expired (ctx : Context) (elapsed : Z) : bool :=
  match Deadline ctx with
  | Some remaining => remaining <? elapsed
  | None => false
  end.

(** Modelled from the spec: [Collection(name).Aggregate(ctx, pipeline)],
    on a store with the regular expression library [regexp]. *)
Definition Aggregate (regexp : Store.Regexp) (db : Database) (name : string)
    (ctx : Context) (pipeline : list D) : storeError + list D :=
  if expired ctx (RoundTrip db) then inl DeadlineExceeded
  else
    match Store.runPipeline regexp (Collections db) pipeline
            (Store.collectionOf (Collections db) name) with
    | Some docs => inr docs
    | None => inl CommandFailed
    end.

End Mongo.

Import Mongo.

Module Models.

(** Modelled from the spec: [scene_audio_route_models.MediaFileMetadata]
    and [AlbumMetadata], which are not among the sources: the entity as
    the store returned it, together with the flattened annotation
    [{play_count, play_date, rating, starred, starred_at}]. *)
Record Metadata : Type :=
  { Document : D;
    PlayCount : Z;
    PlayDate : option Z;
    Rating : Z;
    Starred : bool;
    StarredAt : option Z }.

(** Modelled from the spec: [MediaFileFilterCounts] and
    [AlbumFilterCounts], [{total, starred, recent_play}].  The count of
    starred entities is named [StarredCount] here, next to the [Starred]
    flag of the metadata record. *)
Record FilterCounts : Type :=
  { Total : Z;
    StarredCount : Z;
    RecentPlay : Z }.

(** Decoding leaves a field that is absent or null at Go's zero value. *)
Definition decodeInt (o : option value) : option Z :=
  match o with
  | None | Some VNull => Some 0
  | Some (VInt n) => Some n
  | Some _ => None
  end.

Definition decodeBool (o : option value) : option bool :=
  match o with
  | None | Some VNull => Some false
  | Some (VBool b) => Some b
  | Some _ => None
  end.

Definition decodeDate (o : option value) : option (option Z) :=
  match o with
  | None | Some VNull => Some None
  | Some (VDate t) => Some (Some t)
  | Some _ => None
  end.

Definition decodeMetadata (d : D) : option Metadata :=
  match decodeInt (get "play_count" d), decodeDate (get "play_date" d),
        decodeInt (get "rating" d), decodeBool (get "starred" d),
        decodeDate (get "starred_at" d) with
  | Some pc, Some pd, Some r, Some st, Some sa =>
      Some {| Document := d; PlayCount := pc; PlayDate := pd;
              Rating := r; Starred := st; StarredAt := sa |}
  | _, _, _, _, _ => None
  end.

(** The anonymous struct the count methods decode the [$facet] document
    into: three [[]map[string]int]. *)
Record facetRow : Type :=
  { rowTotal : list (gmap string Z);
    rowStarred : list (gmap string Z);
    rowRecentPlay : list (gmap string Z) }.

Definition decodeIntMap (v : value) : option (gmap string Z) :=
  match v with
  | VDoc d =>
      match mapM (fun '(k, x) => match x with
                                 | VInt n => Some (k, n)
                                 | _ => None end) d with
      | Some kvs => Some (list_to_map kvs)
      | None => None
      end
  | _ => None
  end.

Definition decodeIntMaps (o : option value) : option (list (gmap string Z)) :=
  match o with
  | None | Some VNull => Some []
  | Some (VArr l) => mapM decodeIntMap l
  | Some _ => None
  end.

Definition decodeFacetRow (d : D) : option facetRow :=
  match decodeIntMaps (get "total" d), decodeIntMaps (get "starred" d),
        decodeIntMaps (get "recent_play" d) with
  | Some t, Some s, Some r =>
      Some {| rowTotal := t; rowStarred := s; rowRecentPlay := r |}
  | _, _, _ => None
  end.

End Models.

Import Models.

(** The errors of the repository methods, by the message they wrap the
    cause in. *)
Inductive error : Type :=
| DatabaseQueryFailed (cause : storeError)   (* "database query failed: %w" *)
| DecodeError                                (* "decode error: %w" *)
| CountQueryFailed (cause : storeError)      (* "count query failed: %w" *)
| DecodeCountError.                          (* "decode count error: %w" *)

Inductive result (T : Type) : Type :=
| Ok (x : T)
| Err (e : error).

Arguments Ok {T} x.
Arguments Err {T} e.

(** ** The query builders of the two repositories *)

Section Engine.

Set Default Proof Using "Type".

(** [domain.CollectionFileEntityAudioSceneAnnotation], the name of the
    annotation collection; the constant is declared in the [domain]
    package. *)
Variable CollectionFileEntityAudioSceneAnnotation : string.

(** The Unicode case mapping behind [strings.ToLower]. *)
Variable mapUnicodeLower : string -> string.

(** The regular expression library of the store. *)
Variable regexp : Store.Regexp.

Definition ToLower : string -> string := Strings.ToLower mapUnicodeLower.

(** A Go slice that may be [nil]: [None] is [nil], and [append] on it
    allocates. *)
Definition slice (T : Type) : Type := option (list T).

Definition append {T : Type} (s : slice T) (x : T) : slice T :=
  Some (default [] s ++ [x]).

(** *** repository_route_media_file.go *)

Definition mediaSortMappings : gmap string string :=
  list_to_map
    [ ("title", "order_title");
      ("album", "order_album_name");
      ("artist", "order_artist_name");
      ("album_artist", "order_album_artist_name");
      ("year", "year");
      ("rating", "rating");
      ("starred_at", "starred_at");
      ("genre", "genre");
      ("play_count", "play_count");
      ("play_date", "play_date");
      ("duration", "duration");
      ("bit_rate", "bit_rate");
      ("size", "size");
      ("created_at", "created_at");
      ("updated_at", "updated_at") ].

Definition validateSortField (sort albumId : string) : string :=
  let sortMappings := mediaSortMappings in
  match sortMappings !! ToLower sort with
  | Some mapped => mapped
  | None =>
      if 0 <? Z.of_nat (String.length albumId) then "file_name" else "_id"
  end.

Definition buildSortStage (sort order : string) : D :=
  let sortOrder := 1 in
  let sortOrder := if String.eqb order "desc" then -1 else sortOrder in
  [ ("$sort", VDoc [ (sort, VInt sortOrder); ("_id", VInt 1) ]) ].

Definition buildMediaPaginationStage (start end_ : string) : slice D :=
  match Strconv.Atoi start, Strconv.Atoi end_ with
  | Some startInt, Some endInt =>
      if (startInt <? 0) || (endInt <=? startInt) then None
      else
        let skip := startInt in
        let limit := Strconv.subInt endInt startInt in
        let stages : slice D := None in
        let stages :=
          if 0 <? skip then append stages [("$skip", VInt skip)]
          else stages in
        let stages :=
          if 0 <? limit then append stages [("$limit", VInt limit)]
          else stages in
        stages
  | _, _ => None
  end.

Definition buildMatchStage
    (search starred albumId artistId year : string) : D :=
  let filter : D := [] in
  let filter :=
    if negb (String.eqb artistId "") then
      let artistFilter : D :=
        [ ("$or", VArr
             [ VDoc [("artist_id", VStr artistId)];
               VDoc [("all_artist_ids.artist_id", VStr artistId)] ]) ] in
      filter ++ [("$and", VArr [VDoc artistFilter])]
    else filter in
  let filter :=
    if negb (String.eqb albumId "") then
      filter ++ [("album_id", VStr albumId)]
    else filter in
  let filter :=
    if negb (String.eqb year "") then
      match Strconv.Atoi year with
      | Some yearInt => filter ++ [("year", VInt yearInt)]
      | None => filter
      end
    else filter in
  let filter :=
    if negb (String.eqb search "") then
      filter ++
      [ ("$or", VArr
           [ VDoc [("title", VDoc [("$regex", VStr search); ("$options", VStr "i")])];
             VDoc [("artist", VDoc [("$regex", VStr search); ("$options", VStr "i")])];
             VDoc [("album", VDoc [("$regex", VStr search); ("$options", VStr "i")])] ]) ]
    else filter in
  let filter :=
    if negb (String.eqb starred "") then
      match Strconv.ParseBool starred with
      | Some isStarred => filter ++ [("starred", VBool isStarred)]
      | None => filter
      end
    else filter in
  filter.

Definition buildBaseMatch (search albumId artistId year : string) : D :=
  buildMatchStage search "" albumId artistId year.

(** The pipeline [GetMediaFileItems] assembles before it calls
    [Aggregate]. *)
Definition GetMediaFileItems_pipeline
    (start end_ sort order search starred albumId artistId year : string)
    : list D :=
  let pipeline : list D :=
    [ [ ("$lookup", VDoc
          [ ("from", VStr CollectionFileEntityAudioSceneAnnotation);
            ("let", VDoc [("mediaId", VStr "$_id")]);
            ("pipeline", VArr
               [ VDoc [ ("$match", VDoc
                   [ ("$expr", VDoc
                       [ ("$and", VArr
                            [ VDoc [("$eq", VArr [VStr "$item_id"; VStr "$$mediaId"])];
                              VDoc [("$eq", VArr [VStr "$item_type"; VStr "media"])] ]) ]) ]) ] ]);
            ("as", VStr "annotations") ]) ];
      [ ("$unwind", VDoc
          [ ("path", VStr "$annotations");
            ("preserveNullAndEmptyArrays", VBool true) ]) ];
      [ ("$addFields", VDoc
          [ ("play_count", VStr "$annotations.play_count");
            ("play_date", VStr "$annotations.play_date");
            ("rating", VStr "$annotations.rating");
            ("starred", VStr "$annotations.starred");
            ("starred_at", VStr "$annotations.starred_at") ]) ] ] in
  let pipeline :=
    let match_ := buildMatchStage search starred albumId artistId year in
    if 0 <? Z.of_nat (List.length match_)
    then pipeline ++ [ [("$match", VDoc match_)] ]
    else pipeline in
  let validatedSort := validateSortField sort albumId in
  let pipeline :=
    if String.eqb validatedSort "play_date" then
      pipeline ++
      [ [ ("$match", VDoc [("play_count", VDoc [("$gt", VInt 0)])]) ] ]
    else pipeline in
  let pipeline := pipeline ++ [ buildSortStage validatedSort order ] in
  let paginationStages := buildMediaPaginationStage start end_ in
  let pipeline :=
    match paginationStages with
    | Some stages => pipeline ++ stages
    | None => pipeline
    end in
  pipeline.

(** The pipeline of [GetMediaFileFilterItemsCount]; the method receives
    [starred] and does not use it. *)
Definition GetMediaFileFilterItemsCount_pipeline
    (search starred albumId artistId year : string) : list D :=
  [ [ ("$lookup", VDoc
        [ ("from", VStr CollectionFileEntityAudioSceneAnnotation);
          ("let", VDoc [("mediaId", VStr "$_id")]);
          ("pipeline", VArr
             [ VDoc [ ("$match", VDoc
                 [ ("$expr", VDoc
                     [ ("$and", VArr
                          [ VDoc [("$eq", VArr [VStr "$item_id"; VStr "$$mediaId"])];
                            VDoc [("$eq", VArr [VStr "$item_type"; VStr "media"])] ]) ]) ]) ] ]);
          ("as", VStr "annotations") ]) ];
    [ ("$match", VDoc (buildBaseMatch search albumId artistId year)) ];
    [ ("$facet", VDoc
        [ ("total", VArr [ VDoc [("$count", VStr "count")] ]);
          ("starred", VArr
             [ VDoc [("$match", VDoc [("annotations.starred", VBool true)])];
               VDoc [("$count", VStr "count")] ]);
          ("recent_play", VArr
             [ VDoc [("$match", VDoc
                 [("annotations.play_count", VDoc [("$gt", VInt 0)])])];
               VDoc [("$count", VStr "count")] ]) ]) ] ].

Definition extractCount (data : list (gmap string Z)) : Z :=
  match data with
  | m :: _ => default 0 (m !! "count")
  | [] => 0
  end.

(** *** repository_route_album.go *)

Definition buildAlbumMatch
    (search starred artistId minYear maxYear : string) : D :=
  let filter : D := [] in
  let filter :=
    if negb (String.eqb artistId "") then
      filter ++
      [ ("$or", VArr
           [ VDoc [("artist_id", VStr artistId)];
             VDoc [("all_artist_ids.artist_id", VStr artistId)] ]) ]
    else filter in
  let filter :=
    if negb (String.eqb minYear "") || negb (String.eqb maxYear "") then
      let yearFilter : D := [] in
      let yearFilter :=
        if negb (String.eqb minYear "") then
          match Strconv.Atoi minYear with
          | Some year => yearFilter ++ [("$gte", VInt year)]
          | None => yearFilter
          end
        else yearFilter in
      let yearFilter :=
        if negb (String.eqb maxYear "") then
          match Strconv.Atoi maxYear with
          | Some year => yearFilter ++ [("$lte", VInt year)]
          | None => yearFilter
          end
        else yearFilter in
      if 0 <? Z.of_nat (List.length yearFilter) then
        filter ++
        [ ("$or", VArr
             [ VDoc [("min_year", VDoc yearFilter)];
               VDoc [("max_year", VDoc yearFilter)] ]) ]
      else filter
    else filter in
  let filter :=
    if negb (String.eqb search "") then
      filter ++
      [ ("$or", VArr
           [ VDoc [("name", VDoc [("$regex", VStr search); ("$options", VStr "i")])];
             VDoc [("artist", VDoc [("$regex", VStr search); ("$options", VStr "i")])];
             VDoc [("album_artist", VDoc [("$regex", VStr search); ("$options", VStr "i")])] ]) ]
    else filter in
  let filter :=
    if negb (String.eqb starred "") then
      match Strconv.ParseBool starred with
      | Some isStarred => filter ++ [("starred", VBool isStarred)]
      | None => filter
      end
    else filter in
  filter.

Definition buildAlbumBaseMatch
    (search starred artistId minYear maxYear : string) : D :=
  buildAlbumMatch search starred artistId minYear maxYear.

Definition albumSortMappings : gmap string string :=
  list_to_map
    [ ("name", "order_album_name");
      ("artist", "artist");
      ("album_artist", "album_artist");
      ("min_year", "min_year");
      ("max_year", "max_year");
      ("rating", "rating");
      ("starred_at", "starred_at");
      ("genre", "genre");
      ("song_count", "song_count");
      ("duration", "duration");
      ("size", "size");
      ("play_count", "play_count");
      ("play_date", "play_date");
      ("created_at", "created_at");
      ("updated_at", "updated_at") ].

Definition albumValidSortFields : gmap string bool :=
  list_to_map
    [ ("order_album_name", true);
      ("artist", true);
      ("album_artist", true);
      ("min_year", true);
      ("max_year", true);
      ("rating", true);
      ("starred_at", true);
      ("genre", true);
      ("song_count", true);
      ("duration", true);
      ("size", true);
      ("play_count", true);
      ("play_date", true);
      ("created_at", true);
      ("updated_at", true) ].

Definition validateAlbumSortField (sort : string) : string :=
  let sortMappings := albumSortMappings in
  let lowerSort := ToLower sort in
  match sortMappings !! lowerSort with
  | Some mappedField => mappedField
  | None =>
      let validSortFields := albumValidSortFields in
      (* indexing a Go map yields the zero value for an absent key *)
      if default false (validSortFields !! lowerSort) then lowerSort
      else "_id"
  end.

Definition buildAlbumSortStage (sort order : string) : D :=
  let sortOrder := 1 in
  let sortOrder := if String.eqb order "desc" then -1 else sortOrder in
  [ ("$sort", VDoc [ (sort, VInt sortOrder); ("_id", VInt 1) ]) ].

Definition buildAlbumPaginationStage (start end_ : string) : slice D :=
  match Strconv.Atoi start, Strconv.Atoi end_ with
  | Some startInt, Some endInt =>
      if (startInt <? 0) || (endInt <=? startInt) then None
      else
        let skip := startInt in
        let limit := Strconv.subInt endInt startInt in
        let stages : slice D := None in
        let stages :=
          if 0 <? skip then append stages [("$skip", VInt skip)]
          else stages in
        let stages :=
          if 0 <? limit then append stages [("$limit", VInt limit)]
          else stages in
        stages
  | _, _ => None
  end.

(** The pipeline [GetAlbumItems] assembles before it calls
    [Aggregate]. *)
Definition GetAlbumItems_pipeline
    (start end_ sort order search starred artistId minYear maxYear : string)
    : list D :=
  let pipeline : list D :=
    [ [ ("$lookup", VDoc
          [ ("from", VStr CollectionFileEntityAudioSceneAnnotation);
            ("let", VDoc [("albumId", VStr "$_id")]);
            ("pipeline", VArr
               [ VDoc [ ("$match", VDoc
                   [ ("$expr", VDoc
                       [ ("$and", VArr
                            [ VDoc [("$eq", VArr [VStr "$item_id"; VStr "$$albumId"])];
                              VDoc [("$eq", VArr [VStr "$item_type"; VStr "album"])] ]) ]) ]) ] ]);
            ("as", VStr "annotations") ]) ];
      [ ("$unwind", VDoc
          [ ("path", VStr "$annotations");
            ("preserveNullAndEmptyArrays", VBool true) ]) ];
      [ ("$addFields", VDoc
          [ ("play_count", VStr "$annotations.play_count");
            ("play_date", VStr "$annotations.play_date");
            ("rating", VStr "$annotations.rating");
            ("starred", VStr "$annotations.starred");
            ("starred_at", VStr "$annotations.starred_at") ]) ] ] in
  let validatedSort := validateAlbumSortField sort in
  let pipeline :=
    if String.eqb validatedSort "play_count"
       || String.eqb validatedSort "play_date" then
      pipeline ++
      [ [ ("$match", VDoc
            [ ("$and", VArr
                 [ VDoc [("play_count", VDoc [("$gt", VInt 0)])];
                   VDoc [("play_date", VDoc [("$ne", VNull)])] ]) ]) ] ]
    else pipeline in
  let pipeline :=
    let match_ := buildAlbumMatch search starred artistId minYear maxYear in
    if 0 <? Z.of_nat (List.length match_)
    then pipeline ++ [ [("$match", VDoc match_)] ]
    else pipeline in
  let pipeline := pipeline ++ [ buildAlbumSortStage validatedSort order ] in
  let paginationStages := buildAlbumPaginationStage start end_ in
  let pipeline :=
    match paginationStages with
    | Some stages => pipeline ++ stages
    | None => pipeline
    end in
  pipeline.

(** The pipeline of [GetAlbumFilterItemsCount]. *)
Definition GetAlbumFilterItemsCount_pipeline
    (search starred artistId minYear maxYear : string) : list D :=
  [ [ ("$lookup", VDoc
        [ ("from", VStr CollectionFileEntityAudioSceneAnnotation);
          ("let", VDoc [("albumId", VStr "$_id")]);
          ("pipeline", VArr
             [ VDoc [ ("$match", VDoc
                 [ ("$expr", VDoc
                     [ ("$and", VArr
                          [ VDoc [("$eq", VArr [VStr "$item_id"; VStr "$$albumId"])];
                            VDoc [("$eq", VArr [VStr "$item_type"; VStr "album"])] ]) ]) ]) ] ]);
          ("as", VStr "annotations") ]) ];
    [ ("$match", VDoc
         (buildAlbumBaseMatch search starred artistId minYear maxYear)) ];
    [ ("$facet", VDoc
        [ ("total", VArr [ VDoc [("$count", VStr "count")] ]);
          ("starred", VArr
             [ VDoc [("$match", VDoc [("annotations.starred", VBool true)])];
               VDoc [("$count", VStr "count")] ]);
          ("recent_play", VArr
             [ VDoc [("$match", VDoc
                 [("annotations.play_count", VDoc [("$gt", VInt 0)])])];
               VDoc [("$count", VStr "count")] ]) ]) ] ].

(** *** The repository methods *)

(** [mediaFileRepository] and [albumRepository] have the same two
    fields. *)
Record repository : Type :=
  { db : Database;
    collection : string }.

Definition NewMediaFileRepository (db : Database) (collection : string)
    : repository :=
  {| db := db; collection := collection |}.

Definition NewAlbumRepository (db : Database) (collection : string)
    : repository :=
  {| db := db; collection := collection |}.

Definition GetMediaFileItems (r : repository) (ctx : Context)
    (start end_ sort order search starred albumId artistId year : string)
    : result (list Metadata) :=
  let ctx := WithTimeout ctx (10 * Second) in
  let pipeline :=
    GetMediaFileItems_pipeline start end_ sort order search starred
      albumId artistId year in
  match Aggregate regexp (db r) (collection r) ctx pipeline with
  | inl err => Err (DatabaseQueryFailed err)
  | inr cursor =>
      match mapM decodeMetadata cursor with
      | Some results => Ok results
      | None => Err DecodeError
      end
  end.

Definition GetMediaFileFilterItemsCount (r : repository) (ctx : Context)
    (search starred albumId artistId year : string) : result FilterCounts :=
  let pipeline :=
    GetMediaFileFilterItemsCount_pipeline search starred albumId artistId
      year in
  match Aggregate regexp (db r) (collection r) ctx pipeline with
  | inl err => Err (CountQueryFailed err)
  | inr cursor =>
      match mapM decodeFacetRow cursor with
      | Some result =>
          let counts := {| Total := 0; StarredCount := 0; RecentPlay := 0 |} in
          let counts :=
            match result with
            | row :: _ =>
                {| Total := extractCount (rowTotal row);
                   StarredCount := extractCount (rowStarred row);
                   RecentPlay := extractCount (rowRecentPlay row) |}
            | [] => counts
            end in
          Ok counts
      | None => Err DecodeCountError
      end
  end.

Definition GetAlbumItems (r : repository) (ctx : Context)
    (start end_ sort order search starred artistId minYear maxYear : string)
    : result (list Metadata) :=
  let ctx := WithTimeout ctx (10 * Second) in
  let pipeline :=
    GetAlbumItems_pipeline start end_ sort order search starred artistId
      minYear maxYear in
  match Aggregate regexp (db r) (collection r) ctx pipeline with
  | inl err => Err (DatabaseQueryFailed err)
  | inr cursor =>
      match mapM decodeMetadata cursor with
      | Some results => Ok results
      | None => Err DecodeError
      end
  end.

Definition GetAlbumFilterItemsCount (r : repository) (ctx : Context)
    (search starred artistId minYear maxYear : string) : result FilterCounts :=
  let pipeline :=
    GetAlbumFilterItemsCount_pipeline search starred artistId minYear
      maxYear in
  match Aggregate regexp (db r) (collection r) ctx pipeline with
  | inl err => Err (CountQueryFailed err)
  | inr cursor =>
      match mapM decodeFacetRow cursor with
      | Some result =>
          let counts := {| Total := 0; StarredCount := 0; RecentPlay := 0 |} in
          let counts :=
            match result with
            | row :: _ =>
                {| Total := extractCount (rowTotal row);
                   StarredCount := extractCount (rowStarred row);
                   RecentPlay := extractCount (rowRecentPlay row) |}
            | [] => counts
            end in
          Ok counts
      | None => Err DecodeCountError
      end
  end.

(** ** Properties *)

(** *** Sort resolution *)

(** The logical sort keys of each kind: the keys of [sortMappings]. *)
Definition mediaSortKeys : list string :=
  [ "title"; "album"; "artist"; "album_artist"; "year"; "rating";
    "starred_at"; "genre"; "play_count"; "play_date"; "duration";
    "bit_rate"; "size"; "created_at"; "updated_at" ].

Definition albumSortKeys : list string :=
  [ "name"; "artist"; "album_artist"; "min_year"; "max_year"; "rating";
    "starred_at"; "genre"; "song_count"; "duration"; "size"; "play_count";
    "play_date"; "created_at"; "updated_at" ].

(** The default field of a kind: for tracks it depends on [albumId]. *)
Definition mediaDefaultSort (albumId : string) : string :=
  if String.eqb albumId "" then "_id" else "file_name".

Lemma media_lookup_None (k : string) :
  k ∉ mediaSortKeys -> mediaSortMappings !! k = None.
Proof. intros Hk. by apply not_elem_of_list_to_map_1. Qed.

Lemma album_lookup_None (k : string) :
  k ∉ albumSortKeys -> albumSortMappings !! k = None.
Proof. intros Hk. by apply not_elem_of_list_to_map_1. Qed.

Lemma album_valid_lookup (k : string) :
  k ∉ albumSortKeys -> k <> "order_album_name" ->
  albumValidSortFields !! k = None.
Proof.
  intros Hk Hne. apply not_elem_of_list_to_map_1. cbn.
  intros Hin. apply Hk. apply list_elem_of_In. apply list_elem_of_In in Hin.
  clear Hk. cbn in Hin. cbn.
  destruct Hin as [Heq | Hin]; [ by destruct Hne | ].
  repeat (destruct Hin as [Heq | Hin]; [ auto 20 | ]). destruct Hin.
Qed.

Lemma length_positive (s : string) :
  (0 <? Z.of_nat (String.length s)) = negb (String.eqb s "").
Proof. by destruct s. Qed.

(** C7, as amended.  A sort key whose lower-cased form is not a logical
    key of the kind resolves to the default field of the kind: for
    tracks ["file_name"] when an album is given and ["_id"] otherwise;
    for albums ["_id"], unless the lower-cased key is the physical name
    ["order_album_name"], which the second allow-list of
    [validateAlbumSortField] lets through. *)
Theorem unknown_sort_key_fallback (sort albumId : string) :
  (ToLower sort ∉ mediaSortKeys ->
   validateSortField sort albumId = mediaDefaultSort albumId)
  /\ (ToLower sort ∉ albumSortKeys ->
      ToLower sort <> "order_album_name" ->
      validateAlbumSortField sort = "_id").
Proof.
  split.
  - intros Hk. unfold validateSortField, mediaDefaultSort. cbn zeta.
    rewrite (media_lookup_None _ Hk), length_positive.
    by destruct (String.eqb albumId "").
  - intros Hk Hne. unfold validateAlbumSortField. cbn zeta.
    by rewrite (album_lookup_None _ Hk), (album_valid_lookup _ Hk Hne).
Qed.

(** *** Pagination *)

(** The Paginator in the words of the specification: both bounds parse,
    [start ≥ 0] and [end > start] give [skip = start] and
    [limit = end − start]; anything else gives no pagination. *)
Definition Paginator_resolve (start end_ : string) : option (Z * Z) :=
  match Strconv.Atoi start, Strconv.Atoi end_ with
  | Some s, Some e =>
      if (0 <=? s) && (s <? e) then Some (s, e - s) else None
  | _, _ => None
  end.

(** The stages of a page: the skip stage unless [skip] is 0, then the
    limit stage. *)
Definition pageStages (page : option (Z * Z)) : slice D :=
  match page with
  | Some (skip, limit) =>
      Some ((if skip =? 0 then [] else [ [("$skip", VInt skip)] ])
            ++ [ [("$limit", VInt limit)] ])
  | None => None
  end.

Lemma Atoi_range (s : string) (v : Z) :
  Strconv.Atoi s = Some v -> Strconv.minInt <= v <= Strconv.maxInt.
Proof.
  unfold Strconv.Atoi.
  destruct (match s with
            | String "-"%char rest => (true, rest)
            | String "+"%char rest => (false, rest)
            | _ => (false, s)
            end) as [neg body].
  destruct body; [ discriminate | ].
  destruct (Strconv.digits 0 _) as [n|]; [ | discriminate ].
  destruct (_ && _) eqn:Hr; [ | discriminate ].
  intros [= <-]. apply andb_true_iff in Hr. lia.
Qed.

Lemma subInt_exact (a b : Z) :
  Strconv.minInt <= a <= Strconv.maxInt -> 0 <= b -> b < a ->
  Strconv.subInt a b = a - b.
Proof.
  unfold Strconv.subInt, Strconv.wrapInt, Strconv.minInt, Strconv.maxInt.
  intros Ha Hb Hab. rewrite Z.mod_small; lia.
Qed.

Lemma buildMediaPaginationStage_resolve (start end_ : string) :
  buildMediaPaginationStage start end_
  = pageStages (Paginator_resolve start end_).
Proof.
  unfold buildMediaPaginationStage, Paginator_resolve.
  destruct (Strconv.Atoi start) as [s|] eqn:Hs; [ | done ].
  destruct (Strconv.Atoi end_) as [e|] eqn:He; [ | done ].
  apply Atoi_range in He.
  destruct (Z.ltb_spec s 0), (Z.leb_spec e s), (Z.leb_spec 0 s), (Z.ltb_spec s e);
    try lia; cbn [orb andb pageStages]; try done.
  rewrite subInt_exact by lia.
  destruct (Z.ltb_spec 0 s), (Z.eqb_spec s 0), (Z.ltb_spec 0 (e - s));
    try lia; done.
Qed.

Lemma buildAlbumPaginationStage_media (start end_ : string) :
  buildAlbumPaginationStage start end_ = buildMediaPaginationStage start end_.
Proof. reflexivity. Qed.

Lemma runPipeline_app (colls : gmap string (list D)) (p q : list D)
    (docs : list D) :
  Store.runPipeline regexp colls (p ++ q) docs
  = match Store.runPipeline regexp colls p docs with
    | Some docs' => Store.runPipeline regexp colls q docs'
    | None => None
    end.
Proof.
  revert docs. induction p as [|stage p IH]; intros docs; [ done | ].
  cbn. destruct (Store.runStage regexp colls stage docs); [ apply IH | done ].
Qed.

Lemma run_skip (colls : gmap string (list D)) (n : Z) (docs : list D) :
  0 <= n ->
  Store.runStage regexp colls [("$skip", VInt n)] docs = Some (drop (Z.to_nat n) docs).
Proof. intros Hn. cbn. by destruct (Z.leb_spec 0 n); [ | lia ]. Qed.

Lemma run_limit (colls : gmap string (list D)) (n : Z) (docs : list D) :
  0 < n ->
  Store.runStage regexp colls [("$limit", VInt n)] docs = Some (take (Z.to_nat n) docs).
Proof. intros Hn. cbn. by destruct (Z.ltb_spec 0 n); [ | lia ]. Qed.

(** What the stages of a page do to a result: they never fail, and they
    cut it down to [limit] documents after the first [skip]. *)
Lemma run_pageStages (colls : gmap string (list D)) (start end_ : string)
    (skip limit : Z) (docs : list D) :
  Paginator_resolve start end_ = Some (skip, limit) ->
  Store.runPipeline regexp colls (default [] (pageStages (Some (skip, limit)))) docs
  = Some (take (Z.to_nat limit) (drop (Z.to_nat skip) docs)).
Proof.
  unfold Paginator_resolve.
  destruct (Strconv.Atoi start) as [s|]; [ | done ].
  destruct (Strconv.Atoi end_) as [e|]; [ | done ].
  destruct (_ && _) eqn:Hr; [ | done ].
  intros [= <- <-]. apply andb_true_iff in Hr as [Hs He].
  cbn [pageStages default from_option id].
  destruct (Z.eqb_spec s 0) as [-> | Hne].
  - cbn [app Store.runPipeline]. rewrite run_limit by lia. by rewrite drop_0.
  - cbn [app Store.runPipeline]. rewrite run_skip, run_limit by lia. done.
Qed.

(** *** The shape of the two listing pipelines *)

(** The annotation join: [$lookup] on [(item_id, item_type)], [$unwind]
    that keeps the entities without annotation, and [$addFields] that
    flattens the five annotation fields. *)
Definition annotationJoin (var tag : string) : list D :=
  [ [ ("$lookup", VDoc
        [ ("from", VStr CollectionFileEntityAudioSceneAnnotation);
          ("let", VDoc [(var, VStr "$_id")]);
          ("pipeline", VArr
             [ VDoc [ ("$match", VDoc
                 [ ("$expr", VDoc
                     [ ("$and", VArr
                          [ VDoc [("$eq", VArr [VStr "$item_id"; VStr ("$$" +:+ var)])];
                            VDoc [("$eq", VArr [VStr "$item_type"; VStr tag])] ]) ]) ]) ] ]);
          ("as", VStr "annotations") ]) ];
    [ ("$unwind", VDoc
        [ ("path", VStr "$annotations");
          ("preserveNullAndEmptyArrays", VBool true) ]) ];
    [ ("$addFields", VDoc
        [ ("play_count", VStr "$annotations.play_count");
          ("play_date", VStr "$annotations.play_date");
          ("rating", VStr "$annotations.rating");
          ("starred", VStr "$annotations.starred");
          ("starred_at", VStr "$annotations.starred_at") ]) ] ].

(** The base filter stage: present when the filter has a clause. *)
Definition baseFilterStage (filter : D) : list D :=
  match filter with
  | [] => []
  | _ => [ [("$match", VDoc filter)] ]
  end.

Definition mediaPlayedFilter : D :=
  [ ("$match", VDoc [("play_count", VDoc [("$gt", VInt 0)])]) ].

Definition albumPlayedFilter : D :=
  [ ("$match", VDoc
       [ ("$and", VArr
            [ VDoc [("play_count", VDoc [("$gt", VInt 0)])];
              VDoc [("play_date", VDoc [("$ne", VNull)])] ]) ]) ].

(** The sort-conditional secondary filter of each kind. *)
Definition mediaSecondaryFilter (validatedSort : string) : list D :=
  if String.eqb validatedSort "play_date" then [mediaPlayedFilter] else [].

Definition albumSecondaryFilter (validatedSort : string) : list D :=
  if String.eqb validatedSort "play_count"
     || String.eqb validatedSort "play_date"
  then [albumPlayedFilter] else [].

Lemma baseFilterStage_length (filter : D) (pipeline : list D) :
  (if 0 <? Z.of_nat (List.length filter)
   then pipeline ++ [ [("$match", VDoc filter)] ]
   else pipeline)
  = pipeline ++ baseFilterStage filter.
Proof. destruct filter; [ symmetry; apply app_nil_r | done ]. Qed.

Lemma GetMediaFileItems_pipeline_stages
    (start end_ sort order search starred albumId artistId year : string) :
  GetMediaFileItems_pipeline start end_ sort order search starred albumId
    artistId year
  = annotationJoin "mediaId" "media"
    ++ baseFilterStage (buildMatchStage search starred albumId artistId year)
    ++ mediaSecondaryFilter (validateSortField sort albumId)
    ++ [ buildSortStage (validateSortField sort albumId) order ]
    ++ default [] (buildMediaPaginationStage start end_).
Proof.
  unfold GetMediaFileItems_pipeline. cbv zeta.
  rewrite baseFilterStage_length. unfold mediaSecondaryFilter.
  destruct (String.eqb _ "play_date");
    destruct (buildMediaPaginationStage start end_);
    cbn [default from_option id];
    rewrite <- ?app_assoc, ?app_nil_r; reflexivity.
Qed.

Lemma GetAlbumItems_pipeline_stages
    (start end_ sort order search starred artistId minYear maxYear : string) :
  GetAlbumItems_pipeline start end_ sort order search starred artistId
    minYear maxYear
  = annotationJoin "albumId" "album"
    ++ albumSecondaryFilter (validateAlbumSortField sort)
    ++ baseFilterStage (buildAlbumMatch search starred artistId minYear maxYear)
    ++ [ buildAlbumSortStage (validateAlbumSortField sort) order ]
    ++ default [] (buildAlbumPaginationStage start end_).
Proof.
  unfold GetAlbumItems_pipeline. cbv zeta.
  rewrite baseFilterStage_length. unfold albumSecondaryFilter.
  destruct (_ || _);
    destruct (buildAlbumPaginationStage start end_);
    cbn [default from_option id];
    rewrite <- ?app_assoc, ?app_nil_r; reflexivity.
Qed.

Lemma Paginator_resolve_empty : Paginator_resolve "" "" = None.
Proof. reflexivity. Qed.

(** The listing pipelines without their page: the request with empty
    bounds. *)
Lemma GetMediaFileItems_pipeline_page
    (start end_ sort order search starred albumId artistId year : string) :
  GetMediaFileItems_pipeline start end_ sort order search starred albumId
    artistId year
  = GetMediaFileItems_pipeline "" "" sort order search starred albumId
      artistId year
    ++ default [] (pageStages (Paginator_resolve start end_)).
Proof.
  rewrite !GetMediaFileItems_pipeline_stages, !buildMediaPaginationStage_resolve.
  rewrite Paginator_resolve_empty. cbn [pageStages default from_option id].
  by rewrite app_nil_r, <- !app_assoc.
Qed.

Lemma GetAlbumItems_pipeline_page
    (start end_ sort order search starred artistId minYear maxYear : string) :
  GetAlbumItems_pipeline start end_ sort order search starred artistId
    minYear maxYear
  = GetAlbumItems_pipeline "" "" sort order search starred artistId
      minYear maxYear
    ++ default [] (pageStages (Paginator_resolve start end_)).
Proof.
  rewrite !GetAlbumItems_pipeline_stages, !buildAlbumPaginationStage_media,
    !buildMediaPaginationStage_resolve.
  rewrite Paginator_resolve_empty. cbn [pageStages default from_option id].
  by rewrite app_nil_r, <- !app_assoc.
Qed.

(** The common tail of [GetMediaFileItems] and [GetAlbumItems]: the
    round-trip under the ten-second deadline, then the decoding. *)
Definition listItems (r : repository) (ctx : Context) (pipeline : list D)
    : result (list Metadata) :=
  match Aggregate regexp (db r) (collection r) (WithTimeout ctx (10 * Second))
          pipeline with
  | inl err => Err (DatabaseQueryFailed err)
  | inr cursor =>
      match mapM decodeMetadata cursor with
      | Some results => Ok results
      | None => Err DecodeError
      end
  end.

Lemma listItems_page_bound (r : repository) (ctx : Context)
    (pipeline : list D) (start end_ : string) (skip limit : Z)
    (items : list Metadata) :
  Paginator_resolve start end_ = Some (skip, limit) ->
  listItems r ctx (pipeline ++ default [] (pageStages (Some (skip, limit))))
  = Ok items ->
  Z.of_nat (List.length items) <= limit.
Proof.
  intros Hpage. unfold listItems, Aggregate.
  destruct (expired _ _); [ done | ].
  rewrite runPipeline_app.
  destruct (Store.runPipeline regexp _ pipeline _) as [docs|]; [ | done ].
  rewrite (run_pageStages _ _ _ _ _ _ Hpage).
  destruct (mapM _ _) as [results|] eqn:Hdec; [ | done ].
  intros [= <-]. apply length_mapM in Hdec. rewrite <- Hdec, length_take.
  unfold Paginator_resolve in Hpage.
  destruct (Strconv.Atoi start) as [s|]; [ | done ].
  destruct (Strconv.Atoi end_) as [e|]; [ | done ].
  destruct (_ && _) eqn:Hr; [ | done ].
  injection Hpage as <- <-. apply andb_true_iff in Hr. lia.
Qed.

(** The listing results never hold more than [limit] records. *)
Definition atMost (limit : Z) (res : result (list Metadata)) : Prop :=
  forall items, res = Ok items -> Z.of_nat (List.length items) <= limit.

(** C3.  The pagination stages of both kinds are those of the Paginator:
    for bounds that parse with [0 ≤ start < end], the skip stage
    ([skip = start], left out exactly when [start = 0]) and then the
    limit stage ([limit = end − start]), so that a listing returns at
    most [end − start] records; for any other bounds no stage at all,
    and the listing is the one of the request without bounds. *)
Theorem pagination_contract (start end_ : string) :
  buildMediaPaginationStage start end_
    = pageStages (Paginator_resolve start end_)
  /\ buildAlbumPaginationStage start end_
    = pageStages (Paginator_resolve start end_)
  /\ (forall sort order search starred albumId artistId year,
        GetMediaFileItems_pipeline start end_ sort order search starred
          albumId artistId year
        = GetMediaFileItems_pipeline "" "" sort order search starred
            albumId artistId year
          ++ default [] (pageStages (Paginator_resolve start end_)))
  /\ (forall sort order search starred artistId minYear maxYear,
        GetAlbumItems_pipeline start end_ sort order search starred
          artistId minYear maxYear
        = GetAlbumItems_pipeline "" "" sort order search starred
            artistId minYear maxYear
          ++ default [] (pageStages (Paginator_resolve start end_)))
  /\ (forall skip limit,
        Paginator_resolve start end_ = Some (skip, limit) ->
        forall r ctx sort order search starred a b c,
          atMost limit (GetMediaFileItems r ctx start end_ sort order
                          search starred a b c)
          /\ atMost limit (GetAlbumItems r ctx start end_ sort order
                             search starred a b c))
  /\ (Paginator_resolve start end_ = None ->
      forall r ctx sort order search starred a b c,
        GetMediaFileItems r ctx start end_ sort order search starred a b c
        = GetMediaFileItems r ctx "" "" sort order search starred a b c
        /\ GetAlbumItems r ctx start end_ sort order search starred a b c
           = GetAlbumItems r ctx "" "" sort order search starred a b c).
Proof.
  split; [ apply buildMediaPaginationStage_resolve | ].
  split; [ apply buildMediaPaginationStage_resolve | ].
  split; [ intros; apply GetMediaFileItems_pipeline_page | ].
  split; [ intros; apply GetAlbumItems_pipeline_page | ].
  split.
  - intros skip limit Hpage r ctx sort order search starred a b c.
    split; intros items.
    + change (GetMediaFileItems r ctx start end_ sort order search starred a b c)
        with (listItems r ctx
                (GetMediaFileItems_pipeline start end_ sort order search
                   starred a b c)).
      rewrite GetMediaFileItems_pipeline_page, Hpage.
      by apply listItems_page_bound with (start := start) (end_ := end_) (skip := skip).
    + change (GetAlbumItems r ctx start end_ sort order search starred a b c)
        with (listItems r ctx
                (GetAlbumItems_pipeline start end_ sort order search
                   starred a b c)).
      rewrite GetAlbumItems_pipeline_page, Hpage.
      by apply listItems_page_bound with (start := start) (end_ := end_) (skip := skip).
  - intros Hnone r ctx sort order search starred a b c.
    unfold GetMediaFileItems, GetAlbumItems. cbv zeta.
    rewrite (GetMediaFileItems_pipeline_page start end_),
      (GetAlbumItems_pipeline_page start end_), Hnone.
    cbn [pageStages default from_option id]. by rewrite !app_nil_r.
Qed.

(** *** The sort order of the store *)

Lemma compareCodes_eq (a b : list Z) :
  Store.compareCodes a b = Eq -> a = b.
Proof.
  revert b. induction a as [|x a IH]; intros [|y b]; cbn; try done.
  destruct (Z.compare_spec x y); try done.
  intros Hab. subst. f_equal. by apply IH.
Qed.

Lemma compareCodes_refl (a : list Z) : Store.compareCodes a a = Eq.
Proof. induction a as [|x a IH]; cbn; [ done | ]. by rewrite Z.compare_refl. Qed.

Lemma compareCodes_antisym (a b : list Z) :
  Store.compareCodes b a = CompOpp (Store.compareCodes a b).
Proof.
  revert b. induction a as [|x a IH]; intros [|y b]; cbn; try done.
  rewrite (Z.compare_antisym x y). destruct (x ?= y); cbn; auto.
Qed.

Lemma compareCodes_lt_trans (a b c : list Z) :
  Store.compareCodes a b = Lt -> Store.compareCodes b c = Lt ->
  Store.compareCodes a c = Lt.
Proof.
  revert b c. induction a as [|x a IH]; intros [|y b] [|z c]; cbn; try done.
  destruct (Z.compare_spec x y), (Z.compare_spec y z); try done;
    intros Hab Hbc; destruct (Z.compare_spec x z); try lia; try done.
  by apply IH with (b := b).
Qed.

(** One key of a [$sort] document, with its direction applied. *)
Definition compareKey (f : string) (dir : Z) (a b : D) : comparison :=
  let c := Store.compareValues (Store.sortField f a) (Store.sortField f b) in
  if dir =? 1 then c else CompOpp c.

Definition keyCode (f : string) (d : D) : list Z :=
  Store.sortCode (Store.sortField f d).

Lemma compareKey_eq (f : string) (dir : Z) (a b : D) :
  compareKey f dir a b = Eq -> keyCode f a = keyCode f b.
Proof.
  unfold compareKey, Store.compareValues, keyCode. cbv zeta.
  destruct (dir =? 1); [ apply compareCodes_eq | ].
  destruct (Store.compareCodes _ _) eqn:Hc; try done.
  intros _. by apply compareCodes_eq.
Qed.

Lemma compareKey_same (f : string) (dir : Z) (a b c : D) :
  keyCode f a = keyCode f b ->
  compareKey f dir a c = compareKey f dir b c
  /\ compareKey f dir c a = compareKey f dir c b.
Proof.
  unfold compareKey, Store.compareValues, keyCode. cbv zeta.
  by intros ->.
Qed.

Lemma compareKey_antisym (f : string) (dir : Z) (a b : D) :
  compareKey f dir b a = CompOpp (compareKey f dir a b).
Proof.
  unfold compareKey, Store.compareValues. cbv zeta.
  rewrite (compareCodes_antisym (Store.sortCode (Store.sortField f a))).
  by destruct (dir =? 1).
Qed.

Lemma compareKey_lt_trans (f : string) (dir : Z) (a b c : D) :
  compareKey f dir a b = Lt -> compareKey f dir b c = Lt ->
  compareKey f dir a c = Lt.
Proof.
  unfold compareKey, Store.compareValues. cbv zeta.
  destruct (dir =? 1); [ apply compareCodes_lt_trans | ].
  rewrite <- !compareCodes_antisym. intros Hab Hbc.
  by apply compareCodes_lt_trans with (b := Store.sortCode (Store.sortField f b)).
Qed.

Lemma compareDocs_cons (f : string) (dir : Z) (keys : list (string * Z))
    (a b : D) :
  Store.compareDocs ((f, dir) :: keys) a b
  = match compareKey f dir a b with
    | Eq => Store.compareDocs keys a b
    | c => c
    end.
Proof. reflexivity. Qed.

Lemma compareDocs_antisym (keys : list (string * Z)) (a b : D) :
  Store.compareDocs keys b a = CompOpp (Store.compareDocs keys a b).
Proof.
  induction keys as [|[f dir] keys IH]; [ done | ].
  rewrite !compareDocs_cons, (compareKey_antisym f dir a b).
  by destruct (compareKey f dir a b).
Qed.

(** Documents that compare equal agree on every key of the sort. *)
Lemma compareDocs_eq (keys : list (string * Z)) (a b : D) (f : string)
    (dir : Z) :
  Store.compareDocs keys a b = Eq -> (f, dir) ∈ keys ->
  keyCode f a = keyCode f b.
Proof.
  induction keys as [|[g dir'] keys IH]; intros Hc Hin.
  - by apply elem_of_nil in Hin.
  - rewrite compareDocs_cons in Hc.
    destruct (compareKey g dir' a b) eqn:Hk; try done.
    apply elem_of_cons in Hin as [[= -> ->] | Hin]; [ | by apply IH ].
    by apply compareKey_eq in Hk.
Qed.

Lemma docLe_trans (keys : list (string * Z)) (a b c : D) :
  Store.docLe keys a b = true -> Store.docLe keys b c = true ->
  Store.docLe keys a c = true.
Proof.
  unfold Store.docLe.
  induction keys as [|[f dir] keys IH]; [ done | ].
  rewrite !compareDocs_cons.
  destruct (compareKey f dir a b) eqn:Hab; [ | | done ].
  - apply compareKey_eq in Hab.
    destruct (compareKey_same f dir a b c Hab) as [-> _].
    destruct (compareKey f dir b c); [ apply IH | done | done ].
  - destruct (compareKey f dir b c) eqn:Hbc; [ | | done ].
    + apply compareKey_eq in Hbc.
      destruct (compareKey_same f dir b c a Hbc) as [_ <-].
      by rewrite Hab.
    + by rewrite (compareKey_lt_trans f dir a b c Hab Hbc).
Qed.

Lemma docLe_total (keys : list (string * Z)) (a b : D) :
  Store.docLe keys a b = false -> Store.docLe keys b a = true.
Proof.
  unfold Store.docLe. rewrite (compareDocs_antisym keys a b).
  by destruct (Store.compareDocs keys a b).
Qed.

Lemma docLe_antisym (keys : list (string * Z)) (a b : D) :
  Store.docLe keys a b = true -> Store.docLe keys b a = true ->
  Store.compareDocs keys a b = Eq.
Proof.
  unfold Store.docLe. rewrite (compareDocs_antisym keys a b).
  by destruct (Store.compareDocs keys a b).
Qed.

Definition docOrder (keys : list (string * Z)) (a b : D) : Prop :=
  Store.docLe keys a b = true.

#[local] Instance docOrder_trans (keys : list (string * Z)) :
  Transitive (docOrder keys).
Proof. intros a b c. apply docLe_trans. Qed.

Lemma insertDoc_perm (keys : list (string * Z)) (x : D) (l : list D) :
  Permutation (x :: l) (Store.insertDoc keys x l).
Proof.
  induction l as [|y l IH]; cbn; [ done | ].
  destruct (Store.docLe keys x y); [ done | ].
  rewrite perm_swap. by apply perm_skip.
Qed.

Lemma sortDocs_perm (keys : list (string * Z)) (l : list D) :
  Permutation l (Store.sortDocs keys l).
Proof.
  induction l as [|x l IH]; cbn; [ done | ].
  rewrite <- insertDoc_perm. by apply perm_skip.
Qed.

Lemma insertDoc_sorted (keys : list (string * Z)) (x : D) (l : list D) :
  Sorted (docOrder keys) l -> Sorted (docOrder keys) (Store.insertDoc keys x l).
Proof.
  induction 1 as [|y l Hl IH Hhd]; cbn.
  - by repeat constructor.
  - destruct (Store.docLe keys x y) eqn:Hxy.
    + constructor; [ by constructor | by constructor ].
    + constructor; [ done | ].
      apply docLe_total in Hxy.
      destruct Hhd as [|z l Hyz]; cbn; [ by constructor | ].
      destruct (Store.docLe keys x z); by constructor.
Qed.

Lemma sortDocs_sorted (keys : list (string * Z)) (l : list D) :
  Sorted (docOrder keys) (Store.sortDocs keys l).
Proof.
  induction l as [|x l IH]; cbn; [ constructor | by apply insertDoc_sorted ].
Qed.

(** The sort the pipelines are run with is one the store may return. *)
Lemma sortDocs_sortedBy (keys : list (string * Z)) (l : list D) :
  Store.sortedBy keys l (Store.sortDocs keys l).
Proof. split; [ apply sortDocs_perm | apply sortDocs_sorted ]. Qed.

(** No two documents carry the same entity ID. *)
Definition uniqueIds (docs : list D) : Prop :=
  NoDup (map (keyCode "_id") docs).

Lemma NoDup_map_eq {X Y : Type} (f : X -> Y) (l : list X) (a b : X) :
  NoDup (map f l) -> a ∈ l -> b ∈ l -> f a = f b -> a = b.
Proof.
  induction l as [|x l IH]; intros Hnd Ha Hb Hf.
  - by apply elem_of_nil in Ha.
  - cbn in Hnd. apply NoDup_cons in Hnd as [Hx Hnd].
    apply elem_of_cons in Ha as [-> | Ha], Hb as [-> | Hb]; [ done | | | by apply IH ].
    + destruct Hx. rewrite Hf. by apply list_elem_of_fmap_2.
    + destruct Hx. rewrite <- Hf. by apply list_elem_of_fmap_2.
Qed.

(** With the entity ID among the keys and no ID twice, the sorted order
    is unique. *)
Lemma sortedBy_unique (keys : list (string * Z)) (dir : Z)
    (docs out1 out2 : list D) :
  ("_id", dir) ∈ keys -> uniqueIds docs ->
  Store.sortedBy keys docs out1 -> Store.sortedBy keys docs out2 ->
  out1 = out2.
Proof.
  intros Hid Huniq [Hp1 Hs1] [Hp2 Hs2].
  apply (Sorted_unique_strong (docOrder keys)); [ | done | done | ].
  - intros x1 x2 Hx1 Hx2 H12 H21.
    apply (NoDup_map_eq (keyCode "_id") docs); [ done | | | ].
    + by rewrite Hp1.
    + by rewrite Hp2.
    + apply compareDocs_eq with (keys := keys) (dir := dir); [ | done ].
      by apply docLe_antisym.
  - by rewrite <- Hp1, <- Hp2.
Qed.

(** The direction of the primary key. *)
Definition sortDirection (order : string) : Z :=
  if String.eqb order "desc" then -1 else 1.

(** The keys of the sort stage: the resolved field, then the entity ID
    ascending. *)
Definition stageKeys (sort order : string) : list (string * Z) :=
  [ (sort, sortDirection order); ("_id", 1) ].

(** *** Stage order *)

Lemma run_match (colls : gmap string (list D)) (f : value) (docs : list D) :
  Store.runStage regexp colls [("$match", f)] docs
  = if Store.validFilter regexp f
    then Some (filter (fun d => Store.evalFilter regexp [] f d = true) docs)
    else None.
Proof. reflexivity. Qed.

Lemma filter_all {X : Type} (P : X -> Prop) `{!forall x, Decision (P x)}
    (l : list X) :
  (forall x, P x) -> filter P l = l.
Proof.
  intros HP. induction l as [|x l IH]; [ done | ].
  rewrite filter_cons_True by done. by rewrite IH.
Qed.

Lemma run_baseFilterStage (colls : gmap string (list D)) (f : D)
    (docs : list D) :
  Store.runPipeline regexp colls (baseFilterStage f) docs
  = if Store.validFilter regexp (VDoc f)
    then Some (filter (fun d => Store.evalFilter regexp [] (VDoc f) d = true) docs)
    else None.
Proof.
  destruct f as [|c f]; cbn [baseFilterStage Store.runPipeline].
  - cbn. by rewrite filter_all.
  - rewrite run_match. by destruct (Store.validFilter regexp _).
Qed.

Lemma run_albumSecondaryFilter (colls : gmap string (list D)) (v : string)
    (docs : list D) :
  Store.runPipeline regexp colls (albumSecondaryFilter v) docs
  = Some (if String.eqb v "play_count" || String.eqb v "play_date"
          then filter (fun d => Store.evalFilter regexp [] (VDoc [ ("$and", VArr
                  [ VDoc [("play_count", VDoc [("$gt", VInt 0)])];
                    VDoc [("play_date", VDoc [("$ne", VNull)])] ]) ]) d = true) docs
          else docs).
Proof. unfold albumSecondaryFilter. by destruct (_ || _). Qed.

(** Two adjacent filters give the same documents in either order. *)
Lemma album_filters_commute (colls : gmap string (list D)) (v : string)
    (f : D) (docs : list D) :
  Store.runPipeline regexp colls (albumSecondaryFilter v ++ baseFilterStage f) docs
  = Store.runPipeline regexp colls (baseFilterStage f ++ albumSecondaryFilter v) docs.
Proof.
  rewrite !runPipeline_app, run_albumSecondaryFilter, !run_baseFilterStage.
  destruct (Store.validFilter regexp (VDoc f)); [ | done ].
  rewrite run_albumSecondaryFilter.
  destruct (_ || _); [ | done ].
  f_equal. rewrite !list_filter_filter. apply list_filter_iff.
  intros d. split; intros [? ?]; by split.
Qed.

Lemma runPipeline_prefix (colls : gmap string (list D)) (p q q' : list D) :
  (forall docs, Store.runPipeline regexp colls q docs = Store.runPipeline regexp colls q' docs) ->
  forall docs,
    Store.runPipeline regexp colls (p ++ q) docs = Store.runPipeline regexp colls (p ++ q') docs.
Proof.
  intros Hq docs. rewrite !runPipeline_app.
  by destruct (Store.runPipeline regexp colls p docs).
Qed.

(** C6, as amended.  The track listing has the stage order join,
    flatten, base filter, sort-conditional secondary filter, sort,
    pagination.  The album listing has the secondary filter before the
    base filter; the two are adjacent [$match] stages, and the store
    returns for the album pipeline what it returns for the pipeline in
    the track order. *)
Theorem stage_order
    (start end_ sort order search starred a b c : string) :
  GetMediaFileItems_pipeline start end_ sort order search starred a b c
  = annotationJoin "mediaId" "media"
    ++ baseFilterStage (buildMatchStage search starred a b c)
    ++ mediaSecondaryFilter (validateSortField sort a)
    ++ [ buildSortStage (validateSortField sort a) order ]
    ++ default [] (buildMediaPaginationStage start end_)
  /\ GetAlbumItems_pipeline start end_ sort order search starred a b c
     = annotationJoin "albumId" "album"
       ++ albumSecondaryFilter (validateAlbumSortField sort)
       ++ baseFilterStage (buildAlbumMatch search starred a b c)
       ++ [ buildAlbumSortStage (validateAlbumSortField sort) order ]
       ++ default [] (buildAlbumPaginationStage start end_)
  /\ (forall colls docs,
        Store.runPipeline regexp colls
          (GetAlbumItems_pipeline start end_ sort order search starred a b c)
          docs
        = Store.runPipeline regexp colls
            (annotationJoin "albumId" "album"
             ++ baseFilterStage (buildAlbumMatch search starred a b c)
             ++ albumSecondaryFilter (validateAlbumSortField sort)
             ++ [ buildAlbumSortStage (validateAlbumSortField sort) order ]
             ++ default [] (buildAlbumPaginationStage start end_))
            docs).
Proof.
  split; [ apply GetMediaFileItems_pipeline_stages | ].
  split; [ apply GetAlbumItems_pipeline_stages | ].
  intros colls docs. rewrite GetAlbumItems_pipeline_stages.
  apply runPipeline_prefix. clear docs. intros docs.
  rewrite (app_assoc (albumSecondaryFilter _) (baseFilterStage _)),
    (app_assoc (baseFilterStage _) (albumSecondaryFilter _)).
  rewrite (runPipeline_app _ (albumSecondaryFilter _ ++ _)),
    (runPipeline_app _ (baseFilterStage _ ++ _)).
  by rewrite album_filters_commute.
Qed.

(** *** The filter that comes with sorting by play *)

(** The stages that only select or reorder documents. *)
Definition selects (stage : D) : bool :=
  match stage with
  | [(op, _)] => existsb (String.eqb op) ["$match"; "$sort"; "$skip"; "$limit"]
  | _ => false
  end.

Lemma runStage_selects (colls : gmap string (list D)) (stage : D)
    (docs out : list D) :
  selects stage = true -> Store.runStage regexp colls stage docs = Some out ->
  forall d, d ∈ out -> d ∈ docs.
Proof.
  destruct stage as [|[op arg] [|]]; try done. cbn [selects existsb].
  destruct (String.eqb_spec op "$match") as [->|_].
  { intros _. rewrite run_match. destruct (Store.validFilter regexp arg); [ | done ].
    intros [= <-] d Hd. by apply list_elem_of_filter in Hd as [_ Hd]. }
  destruct (String.eqb_spec op "$sort") as [->|_].
  { intros _. cbn. destruct arg as [| | | | | |[|k spec]]; try done.
    match goal with
    | |- match ?x with _ => _ end = _ -> _ => destruct x as [keys|]; [ | done ]
    end.
    intros [= <-] d Hd. by rewrite (sortDocs_perm keys docs). }
  destruct (String.eqb_spec op "$skip") as [->|_].
  { intros _. cbn. destruct arg as [| |n| | | |]; try done.
    destruct (0 <=? n); [ | done ].
    intros [= <-] d Hd. by apply (subseteq_drop (Z.to_nat n)). }
  destruct (String.eqb_spec op "$limit") as [->|_]; [ | done ].
  intros _. cbn. destruct arg as [| |n| | | |]; try done.
  destruct (0 <? n); [ | done ].
  intros [= <-] d Hd. by apply (subseteq_take (Z.to_nat n)).
Qed.

Lemma runPipeline_selects (colls : gmap string (list D)) (p : list D)
    (docs out : list D) :
  forallb selects p = true -> Store.runPipeline regexp colls p docs = Some out ->
  forall d, d ∈ out -> d ∈ docs.
Proof.
  revert docs. induction p as [|stage p IH]; intros docs Hp Hrun d Hd.
  - cbn in Hrun. by injection Hrun as ->.
  - cbn in Hp, Hrun. apply andb_true_iff in Hp as [Hs Hp].
    destruct (Store.runStage regexp colls stage docs) as [docs'|] eqn:Hstage; [ | done ].
    apply (runStage_selects _ _ _ _ Hs Hstage). by apply (IH docs').
Qed.

Lemma selects_baseFilterStage (f : D) : forallb selects (baseFilterStage f) = true.
Proof. by destruct f. Qed.

Lemma selects_pageStages (page : option (Z * Z)) :
  forallb selects (default [] (pageStages page)) = true.
Proof. destruct page as [[skip limit]|]; [ | done ]. cbn. by destruct (skip =? 0). Qed.

(** The records of a listing are decoded from the documents the first
    part of the pipeline lets through, when the rest only selects. *)
Lemma listItems_from (r : repository) (ctx : Context) (p q : list D)
    (P : D -> Prop) (items : list Metadata) :
  (forall docs out,
     Store.runPipeline regexp (Collections (db r)) p docs = Some out -> Forall P out) ->
  forallb selects q = true ->
  listItems r ctx (p ++ q) = Ok items ->
  forall m, m ∈ items -> exists d, P d /\ decodeMetadata d = Some m.
Proof.
  intros Hp Hq. unfold listItems, Aggregate.
  destruct (expired _ _); [ done | ].
  rewrite runPipeline_app.
  destruct (Store.runPipeline regexp _ p _) as [mid|] eqn:Hmid; [ | done ].
  destruct (Store.runPipeline regexp _ q mid) as [out|] eqn:Hout; [ | done ].
  destruct (mapM decodeMetadata out) as [results|] eqn:Hdec; [ | done ].
  intros [= <-] m Hm. apply mapM_Some_1 in Hdec.
  apply list_elem_of_lookup_1 in Hm as [i Hi].
  destruct (Forall2_lookup_r _ _ _ _ _ Hdec Hi) as (d & Hd & Hdm).
  apply list_elem_of_lookup_2 in Hd.
  exists d. split; [ | done ].
  apply Hp in Hmid. rewrite Forall_forall in Hmid. apply Hmid.
  by apply (runPipeline_selects _ _ _ _ Hq Hout).
Qed.

Lemma runPipeline_last_match (colls : gmap string (list D)) (p : list D)
    (f : value) (docs out : list D) :
  Store.runPipeline regexp colls (p ++ [ [("$match", f)] ]) docs = Some out ->
  Forall (fun d => Store.evalFilter regexp [] f d = true) out.
Proof.
  rewrite runPipeline_app.
  destruct (Store.runPipeline regexp colls p docs) as [mid|]; [ | done ].
  cbn [Store.runPipeline]. rewrite run_match.
  destruct (Store.validFilter regexp f); [ | done ].
  intros [= <-]. apply Forall_forall. intros d Hd.
  by apply list_elem_of_filter in Hd as [Hd _].
Qed.

Lemma played_count (d : D) (m : Metadata) :
  Store.evalFilter regexp [] (VDoc [("play_count", VDoc [("$gt", VInt 0)])]) d = true ->
  decodeMetadata d = Some m -> 0 < PlayCount m.
Proof.
  unfold decodeMetadata. cbn.
  destruct (get "play_count" d) as [[| |n| | | |]|]; cbn; try done.
  rewrite !andb_true_r, orb_false_r. intros Hn%Z.ltb_lt.
  repeat (case_match; try done). by intros [= <-].
Qed.

Lemma played_date (d : D) (m : Metadata) :
  Store.evalFilter regexp [] (VDoc [("play_date", VDoc [("$ne", VNull)])]) d = true ->
  decodeMetadata d = Some m -> PlayDate m <> None.
Proof.
  unfold decodeMetadata. cbn.
  destruct (get "play_date" d) as [[| | | |t| |]|]; cbn; try done;
    intros _; repeat (case_match; try done); by intros [= <-].
Qed.

Lemma album_played (d : D) (m : Metadata) :
  Store.evalFilter regexp []
    (VDoc [ ("$and", VArr
               [ VDoc [("play_count", VDoc [("$gt", VInt 0)])];
                 VDoc [("play_date", VDoc [("$ne", VNull)])] ]) ]) d = true ->
  decodeMetadata d = Some m -> 0 < PlayCount m /\ PlayDate m <> None.
Proof.
  intros Hf Hm.
  assert (Store.evalFilter regexp [] (VDoc [("play_count", VDoc [("$gt", VInt 0)])]) d = true
          /\ Store.evalFilter regexp [] (VDoc [("play_date", VDoc [("$ne", VNull)])]) d = true)
    as [Hc Hd].
  { cbn in Hf |- *. rewrite !andb_true_r in Hf. rewrite !andb_true_r.
    by apply andb_true_iff in Hf. }
  split; [ by apply (played_count d) | by apply (played_date d) ].
Qed.

Lemma selects_media_tail (v order start end_ : string) :
  forallb selects
    ([ buildSortStage v order ]
     ++ default [] (buildMediaPaginationStage start end_)) = true.
Proof.
  rewrite forallb_app, buildMediaPaginationStage_resolve, selects_pageStages.
  reflexivity.
Qed.

Lemma selects_album_tail (f : D) (v order start end_ : string) :
  forallb selects
    (baseFilterStage f
     ++ [ buildAlbumSortStage v order ]
     ++ default [] (buildAlbumPaginationStage start end_)) = true.
Proof.
  rewrite !forallb_app, selects_baseFilterStage, buildAlbumPaginationStage_media,
    buildMediaPaginationStage_resolve, selects_pageStages.
  reflexivity.
Qed.

(** C5.  When the sort key of a track listing resolves to ["play_date"],
    the pipeline holds the filter [play_count > 0] before the sort stage
    and every record returned has been played; for albums the same holds
    when the key resolves to ["play_count"] or ["play_date"], with the
    filter [play_count > 0] and [play_date] not null.  For any other
    resolved field the pipeline has no such stage. *)
Theorem play_sort_excludes_unplayed
    (start end_ sort order search starred a b c : string) :
  (validateSortField sort a = "play_date" ->
   GetMediaFileItems_pipeline start end_ sort order search starred a b c
   = annotationJoin "mediaId" "media"
     ++ baseFilterStage (buildMatchStage search starred a b c)
     ++ [ mediaPlayedFilter ]
     ++ [ buildSortStage "play_date" order ]
     ++ default [] (buildMediaPaginationStage start end_)
   /\ forall r ctx items,
        GetMediaFileItems r ctx start end_ sort order search starred a b c
        = Ok items ->
        forall m, m ∈ items -> 0 < PlayCount m)
  /\ (validateSortField sort a <> "play_date" ->
      GetMediaFileItems_pipeline start end_ sort order search starred a b c
      = annotationJoin "mediaId" "media"
        ++ baseFilterStage (buildMatchStage search starred a b c)
        ++ [ buildSortStage (validateSortField sort a) order ]
        ++ default [] (buildMediaPaginationStage start end_))
  /\ (validateAlbumSortField sort = "play_count"
      \/ validateAlbumSortField sort = "play_date" ->
      GetAlbumItems_pipeline start end_ sort order search starred a b c
      = annotationJoin "albumId" "album"
        ++ [ albumPlayedFilter ]
        ++ baseFilterStage (buildAlbumMatch search starred a b c)
        ++ [ buildAlbumSortStage (validateAlbumSortField sort) order ]
        ++ default [] (buildAlbumPaginationStage start end_)
      /\ forall r ctx items,
           GetAlbumItems r ctx start end_ sort order search starred a b c
           = Ok items ->
           forall m, m ∈ items -> 0 < PlayCount m /\ PlayDate m <> None)
  /\ (validateAlbumSortField sort <> "play_count" ->
      validateAlbumSortField sort <> "play_date" ->
      GetAlbumItems_pipeline start end_ sort order search starred a b c
      = annotationJoin "albumId" "album"
        ++ baseFilterStage (buildAlbumMatch search starred a b c)
        ++ [ buildAlbumSortStage (validateAlbumSortField sort) order ]
        ++ default [] (buildAlbumPaginationStage start end_)).
Proof.
  split; [ | split; [ | split ] ].
  - intros Hv.
    assert (GetMediaFileItems_pipeline start end_ sort order search starred a b c
            = annotationJoin "mediaId" "media"
              ++ baseFilterStage (buildMatchStage search starred a b c)
              ++ [ mediaPlayedFilter ]
              ++ [ buildSortStage "play_date" order ]
              ++ default [] (buildMediaPaginationStage start end_)) as Hp.
    { by rewrite GetMediaFileItems_pipeline_stages, Hv. }
    split; [ done | ].
    intros r ctx items.
    change (GetMediaFileItems r ctx start end_ sort order search starred a b c)
      with (listItems r ctx
              (GetMediaFileItems_pipeline start end_ sort order search
                 starred a b c)).
    rewrite Hp, !app_assoc, <- (app_assoc _ [ buildSortStage _ _ ]).
    intros Hitems m Hm.
    destruct (listItems_from r ctx _ _
                (fun d => Store.evalFilter regexp []
                            (VDoc [("play_count", VDoc [("$gt", VInt 0)])]) d = true)
                items
                (fun docs out => runPipeline_last_match _ _ _ docs out)
                (selects_media_tail _ _ _ _) Hitems m Hm) as (d & Hd & Hdm).
    by apply (played_count d).
  - intros Hv. rewrite GetMediaFileItems_pipeline_stages.
    unfold mediaSecondaryFilter.
    by destruct (String.eqb_spec (validateSortField sort a) "play_date").
  - intros Hv.
    assert (GetAlbumItems_pipeline start end_ sort order search starred a b c
            = annotationJoin "albumId" "album"
              ++ [ albumPlayedFilter ]
              ++ baseFilterStage (buildAlbumMatch search starred a b c)
              ++ [ buildAlbumSortStage (validateAlbumSortField sort) order ]
              ++ default [] (buildAlbumPaginationStage start end_)) as Hp.
    { rewrite GetAlbumItems_pipeline_stages. unfold albumSecondaryFilter.
      by destruct Hv as [-> | ->]. }
    split; [ done | ].
    intros r ctx items.
    change (GetAlbumItems r ctx start end_ sort order search starred a b c)
      with (listItems r ctx
              (GetAlbumItems_pipeline start end_ sort order search
                 starred a b c)).
    rewrite Hp, (app_assoc (annotationJoin _ _)).
    intros Hitems m Hm.
    destruct (listItems_from r ctx _ _
                (fun d => Store.evalFilter regexp []
                   (VDoc [ ("$and", VArr
                      [ VDoc [("play_count", VDoc [("$gt", VInt 0)])];
                        VDoc [("play_date", VDoc [("$ne", VNull)])] ]) ]) d = true)
                items
                (fun docs out => runPipeline_last_match _ _ _ docs out)
                (selects_album_tail _ _ _ _ _) Hitems m Hm) as (d & Hd & Hdm).
    by apply (album_played d).
  - intros Hc Hd. rewrite GetAlbumItems_pipeline_stages.
    unfold albumSecondaryFilter.
    destruct (String.eqb_spec (validateAlbumSortField sort) "play_count"); [ done | ].
    by destruct (String.eqb_spec (validateAlbumSortField sort) "play_date").
Qed.

(** *** The annotation join *)

Lemma get_remove_eq (k : string) (d : D) : get k (remove k d) = None.
Proof.
  induction d as [|[k' v] d IH]; cbn; [ done | ].
  destruct (String.eqb_spec k k') as [->|Hne]; [ done | ].
  cbn. by destruct (String.eqb_spec k k').
Qed.

Lemma get_remove_ne (k k' : string) (d : D) :
  k <> k' -> get k (remove k' d) = get k d.
Proof.
  intros Hne. induction d as [|[k'' v] d IH]; cbn; [ done | ].
  destruct (String.eqb_spec k' k'') as [<-|Hne'].
  - by destruct (String.eqb_spec k k'); [ destruct Hne | ].
  - cbn. by destruct (String.eqb_spec k k'').
Qed.

Lemma get_set_eq (k : string) (v : value) (d : D) : get k (set k v d) = Some v.
Proof.
  induction d as [|[k' v'] d IH]; cbn.
  - by rewrite String.eqb_refl.
  - destruct (String.eqb_spec k k') as [<-|Hne]; cbn.
    + by rewrite String.eqb_refl.
    + by destruct (String.eqb_spec k k').
Qed.

Lemma get_set_ne (k k' : string) (v : value) (d : D) :
  k <> k' -> get k (set k' v d) = get k d.
Proof.
  intros Hne. induction d as [|[k'' v'] d IH]; cbn.
  - by destruct (String.eqb_spec k k').
  - destruct (String.eqb_spec k' k'') as [<-|Hne']; cbn.
    + destruct (String.eqb_spec k k'); [ done | ]. by apply get_remove_ne.
    + by destruct (String.eqb_spec k k'').
Qed.

Lemma remove_remove (k : string) (d : D) : remove k (remove k d) = remove k d.
Proof.
  induction d as [|[k' v] d IH]; cbn; [ done | ].
  destruct (String.eqb_spec k k') as [->|Hne]; [ done | ].
  cbn. destruct (String.eqb_spec k k'); [ done | ]. by rewrite IH.
Qed.

Lemma remove_set (k : string) (v : value) (d : D) :
  remove k (set k v d) = remove k d.
Proof.
  induction d as [|[k' v'] d IH]; cbn.
  - by rewrite String.eqb_refl.
  - destruct (String.eqb_spec k k') as [<-|Hne]; cbn.
    + rewrite String.eqb_refl. apply remove_remove.
    + destruct (String.eqb_spec k k'); [ done | ]. by rewrite IH.
Qed.

(** The join condition of the [$lookup]: the annotation [a] belongs to the
    entity [e] of kind [tag]. *)
Definition annotates (tag : string) (e a : D) : bool :=
  Store.sameValue (get "item_id" a) (get "_id" e)
  && Store.sameValue (get "item_type" a) (Some (VStr tag)).

Definition annotationsOf (tag : string) (annots : list D) (e : D) : list D :=
  filter (fun a => annotates tag e a = true) annots.

Definition annotationFields : D :=
  [ ("play_count", VStr "$annotations.play_count");
    ("play_date", VStr "$annotations.play_date");
    ("rating", VStr "$annotations.rating");
    ("starred", VStr "$annotations.starred");
    ("starred_at", VStr "$annotations.starred_at") ].

(** The joined records of one entity: one per annotation of the entity,
    and one without annotation when it has none. *)
Definition joinEntity (tag : string) (annots : list D) (e : D) : list D :=
  map (Store.addFields annotationFields)
    (Store.unwindDoc "annotations" true
       (set "annotations" (VArr (map VDoc (annotationsOf tag annots e))) e)).

Lemma mapM_total {X Y : Type} (f : X -> option Y) (g : X -> Y) (l : list X) :
  (forall x, f x = Some (g x)) -> mapM f l = Some (map g l).
Proof.
  intros Hf. induction l as [|x l IH]; [ done | ].
  cbn. by rewrite Hf, IH.
Qed.

Lemma lookupDoc_annotations (var tag : string) (foreign : list D) (e : D) :
  Store.stripDollar tag = None ->
  Store.lookupDoc regexp foreign [(var, VStr "$_id")]
    [ VDoc [ ("$match", VDoc
        [ ("$expr", VDoc
            [ ("$and", VArr
                 [ VDoc [("$eq", VArr [VStr "$item_id"; VStr ("$$" +:+ var)])];
                   VDoc [("$eq", VArr [VStr "$item_type"; VStr tag])] ]) ]) ]) ] ]
    "annotations" e
  = Some (set "annotations" (VArr (map VDoc (annotationsOf tag foreign e))) e).
Proof.
  intros Htag. unfold Store.lookupDoc.
  change ("$$" +:+ var) with (String "$"%char (String "$"%char var)).
  cbn. rewrite Htag. do 4 f_equal. unfold annotationsOf.
  apply list_filter_iff. intros a. unfold annotates.
  destruct (get "_id" e) as [i|]; cbn; rewrite ?String.eqb_refl;
    destruct (get "item_id" a) as [x|], (get "item_type" a) as [y|]; cbn;
    repeat match goal with
           | |- context [eqb ?u ?w] => destruct (eqb u w)
           end; done.
Qed.

Lemma unwind_annotations (l : list value) (e : D) :
  Store.unwindDoc "annotations" true (set "annotations" (VArr l) e)
  = match l with
    | [] => [remove "annotations" e]
    | _ => map (fun a => set "annotations" a (set "annotations" (VArr l) e)) l
    end.
Proof.
  unfold Store.unwindDoc. rewrite get_set_eq.
  destruct l; [ by rewrite remove_set | done ].
Qed.

Lemma run_annotationJoin (colls : gmap string (list D)) (var tag : string)
    (docs : list D) :
  Store.stripDollar tag = None ->
  Store.runPipeline regexp colls (annotationJoin var tag) docs
  = Some (flat_map
            (joinEntity tag
               (Store.collectionOf colls CollectionFileEntityAudioSceneAnnotation))
            docs).
Proof.
  intros Htag. unfold annotationJoin. cbn [Store.runPipeline].
  assert (Store.runStage regexp colls
            [ ("$lookup", VDoc
                [ ("from", VStr CollectionFileEntityAudioSceneAnnotation);
                  ("let", VDoc [(var, VStr "$_id")]);
                  ("pipeline", VArr
                     [ VDoc [ ("$match", VDoc
                         [ ("$expr", VDoc
                             [ ("$and", VArr
                                  [ VDoc [("$eq", VArr [VStr "$item_id"; VStr ("$$" +:+ var)])];
                                    VDoc [("$eq", VArr [VStr "$item_type"; VStr tag])] ]) ]) ]) ] ]);
                  ("as", VStr "annotations") ]) ] docs
          = Some (map (fun e => set "annotations"
                         (VArr (map VDoc (annotationsOf tag
                            (Store.collectionOf colls
                               CollectionFileEntityAudioSceneAnnotation) e))) e) docs))
    as ->.
  { change (Store.runStage regexp colls _ docs)
      with (mapM (Store.lookupDoc regexp
                    (Store.collectionOf colls CollectionFileEntityAudioSceneAnnotation)
                    [(var, VStr "$_id")]
                    [ VDoc [ ("$match", VDoc
                        [ ("$expr", VDoc
                            [ ("$and", VArr
                                 [ VDoc [("$eq", VArr [VStr "$item_id"; VStr ("$$" +:+ var)])];
                                   VDoc [("$eq", VArr [VStr "$item_type"; VStr tag])] ]) ]) ]) ] ]
                    "annotations") docs).
    apply mapM_total. intros e. by apply lookupDoc_annotations. }
  change (Some (map (Store.addFields annotationFields)
                  (flat_map (Store.unwindDoc "annotations" true)
                     (map (fun e => set "annotations"
                         (VArr (map VDoc (annotationsOf tag
                            (Store.collectionOf colls
                               CollectionFileEntityAudioSceneAnnotation) e))) e) docs)))
          = Some (flat_map
                    (joinEntity tag
                       (Store.collectionOf colls CollectionFileEntityAudioSceneAnnotation))
                    docs)).
  f_equal. induction docs as [|e docs IH]; [ done | ].
  cbn [map flat_map]. rewrite map_app, IH. done.
Qed.


(** The joined record of an entity that has no annotation. *)
Definition unannotated (e : D) : D :=
  remove "starred_at" (remove "starred" (remove "rating"
    (remove "play_date" (remove "play_count" (remove "annotations" e))))).

Definition defaultMetadata (d : D) : Metadata :=
  {| Document := d; PlayCount := 0; PlayDate := None; Rating := 0;
     Starred := false; StarredAt := None |}.

Lemma evalExpr_annotation (field : string) (d : D) :
  get "annotations" d = None ->
  Store.fieldPath ("annotations" :: Store.splitPath field) (VDoc d) = None.
Proof. intros Hd. cbn. by rewrite Hd. Qed.

Lemma addFields_unannotated (d : D) :
  get "annotations" d = None ->
  Store.addFields annotationFields d
  = remove "starred_at" (remove "starred" (remove "rating"
      (remove "play_date" (remove "play_count" d)))).
Proof.
  intros Hd. unfold annotationFields.
  cbn [Store.addFields].
  change (Store.evalExpr [] ?x (VStr "$annotations.play_count"))
    with (Store.fieldPath ("annotations" :: Store.splitPath "play_count") (VDoc x)).
  change (Store.evalExpr [] ?x (VStr "$annotations.play_date"))
    with (Store.fieldPath ("annotations" :: Store.splitPath "play_date") (VDoc x)).
  change (Store.evalExpr [] ?x (VStr "$annotations.rating"))
    with (Store.fieldPath ("annotations" :: Store.splitPath "rating") (VDoc x)).
  change (Store.evalExpr [] ?x (VStr "$annotations.starred"))
    with (Store.fieldPath ("annotations" :: Store.splitPath "starred") (VDoc x)).
  change (Store.evalExpr [] ?x (VStr "$annotations.starred_at"))
    with (Store.fieldPath ("annotations" :: Store.splitPath "starred_at") (VDoc x)).
  rewrite (evalExpr_annotation "play_count") by done.
  rewrite (evalExpr_annotation "play_date")
    by (by rewrite get_remove_ne).
  rewrite (evalExpr_annotation "rating")
    by (by rewrite !get_remove_ne).
  rewrite (evalExpr_annotation "starred")
    by (by rewrite !get_remove_ne).
  rewrite (evalExpr_annotation "starred_at")
    by (by rewrite !get_remove_ne).
  done.
Qed.

Lemma joinEntity_unannotated (tag : string) (annots : list D) (e : D) :
  annotationsOf tag annots e = [] ->
  joinEntity tag annots e = [unannotated e].
Proof.
  intros Hnone. unfold joinEntity. rewrite Hnone, unwind_annotations.
  cbn [map]. rewrite addFields_unannotated by apply get_remove_eq. done.
Qed.

Lemma decode_unannotated (e : D) :
  decodeMetadata (unannotated e) = Some (defaultMetadata (unannotated e)).
Proof.
  unfold decodeMetadata, unannotated.
  rewrite (get_remove_ne "play_count" "starred_at"),
    (get_remove_ne "play_count" "starred"), (get_remove_ne "play_count" "rating"),
    (get_remove_ne "play_count" "play_date"), get_remove_eq by done.
  rewrite (get_remove_ne "play_date" "starred_at"),
    (get_remove_ne "play_date" "starred"), (get_remove_ne "play_date" "rating"),
    get_remove_eq by done.
  rewrite (get_remove_ne "rating" "starred_at"),
    (get_remove_ne "rating" "starred"), get_remove_eq by done.
  rewrite (get_remove_ne "starred" "starred_at"), get_remove_eq by done.
  rewrite get_remove_eq. done.
Qed.

Lemma get_addFields_other (k : string) (fields : D) (d : D) :
  k ∉ map fst fields -> get k (Store.addFields fields d) = get k d.
Proof.
  revert d. induction fields as [|[f e] fields IH]; intros d Hk; [ done | ].
  cbn in Hk. apply not_elem_of_cons in Hk as [Hne Hk].
  cbn [Store.addFields]. rewrite IH by done.
  destruct (Store.evalExpr [] d e); [ by apply get_set_ne | by apply get_remove_ne ].
Qed.

(** Every joined record of an entity carries the entity's ID, and there
    is at least one. *)
Lemma joinEntity_id (tag : string) (annots : list D) (e r : D) :
  r ∈ joinEntity tag annots e -> get "_id" r = get "_id" e.
Proof.
  unfold joinEntity. rewrite unwind_annotations. intros Hr.
  apply list_elem_of_fmap in Hr as (d & -> & Hd).
  rewrite get_addFields_other
    by (apply (bool_decide_unpack _); by vm_compute).
  destruct (annotationsOf tag annots e) as [|a l].
  - apply list_elem_of_singleton in Hd as ->. by apply get_remove_ne.
  - apply list_elem_of_fmap in Hd as (x & -> & _).
    by rewrite !get_set_ne.
Qed.

Lemma joinEntity_nonempty (tag : string) (annots : list D) (e : D) :
  exists r, r ∈ joinEntity tag annots e.
Proof.
  unfold joinEntity. rewrite unwind_annotations.
  destruct (annotationsOf tag annots e) as [|a l]; eexists; cbn; by left.
Qed.

(** C2.  The first three stages of both listing pipelines are the join
    with the annotation collection on [item_id] = the entity's [_id] and
    [item_type] = the kind tag (["media"], ["album"]).  The join never
    fails and keeps every entity; an entity without a matching annotation
    yields exactly one record, which decodes to the default annotation:
    play count 0, no play date, rating 0, not starred, no starred-at. *)
Theorem annotation_join_left_outer
    (colls : gmap string (list D)) (var tag : string) (docs : list D) :
  (var = "mediaId" /\ tag = "media") \/ (var = "albumId" /\ tag = "album") ->
  let annots :=
    Store.collectionOf colls CollectionFileEntityAudioSceneAnnotation in
  (forall start end_ sort order search starred a b c,
     (exists rest,
        GetMediaFileItems_pipeline start end_ sort order search starred a b c
        = annotationJoin "mediaId" "media" ++ rest)
     /\ (exists rest,
           GetAlbumItems_pipeline start end_ sort order search starred a b c
           = annotationJoin "albumId" "album" ++ rest))
  /\ Store.runPipeline regexp colls (annotationJoin var tag) docs
     = Some (flat_map (joinEntity tag annots) docs)
  /\ (forall e, e ∈ docs ->
        exists r, r ∈ flat_map (joinEntity tag annots) docs
                  /\ get "_id" r = get "_id" e)
  /\ (forall e, e ∈ docs -> annotationsOf tag annots e = [] ->
        joinEntity tag annots e = [unannotated e]
        /\ unannotated e ∈ flat_map (joinEntity tag annots) docs
        /\ get "_id" (unannotated e) = get "_id" e
        /\ decodeMetadata (unannotated e)
           = Some (defaultMetadata (unannotated e))).
Proof.
  intros Hkind annots.
  assert (Store.stripDollar tag = None) as Htag
    by (by destruct Hkind as [[_ ->] | [_ ->]]).
  split; [ | split; [ | split ] ].
  - intros start end_ sort order search starred a b c. split; eexists.
    + apply GetMediaFileItems_pipeline_stages.
    + apply GetAlbumItems_pipeline_stages.
  - by apply run_annotationJoin.
  - intros e He. destruct (joinEntity_nonempty tag annots e) as [r Hr].
    exists r. split; [ | by apply (joinEntity_id tag annots) ].
    apply list_elem_of_In, in_flat_map. exists e.
    split; by apply list_elem_of_In.
  - intros e He Hnone.
    pose proof (joinEntity_unannotated tag annots e Hnone) as Hjoin.
    split; [ done | ]. split; [ | split ].
    + apply list_elem_of_In, in_flat_map. exists e.
      split; [ by apply list_elem_of_In | ]. rewrite Hjoin. by left.
    + apply (joinEntity_id tag annots). rewrite Hjoin. by left.
    + apply decode_unannotated.
Qed.

(** *** The rows that reach the sort stage *)

Lemma keyCode_id (d : D) :
  keyCode "_id" d = Store.sortCode (default VNull (get "_id" d)).
Proof.
  unfold keyCode, Store.sortField.
  change (Store.splitPath "_id") with ["_id"]. cbn.
  by destruct (get "_id" d).
Qed.

(** The data model has at most one annotation per entity and kind. *)
Definition oneAnnotation (tag : string) (annots docs : list D) : Prop :=
  forall e, e ∈ docs -> (List.length (annotationsOf tag annots e) <= 1)%nat.

Lemma joinEntity_single (tag : string) (annots : list D) (e : D) :
  (List.length (annotationsOf tag annots e) <= 1)%nat ->
  exists r, joinEntity tag annots e = [r].
Proof.
  unfold joinEntity. rewrite unwind_annotations.
  destruct (annotationsOf tag annots e) as [|x [|y l]]; cbn; [ eauto | eauto | lia ].
Qed.

Lemma joined_ids (tag : string) (annots docs : list D) :
  oneAnnotation tag annots docs ->
  map (keyCode "_id") (flat_map (joinEntity tag annots) docs)
  = map (keyCode "_id") docs.
Proof.
  induction docs as [|e docs IH]; intros Hone; [ done | ].
  cbn [flat_map map]. rewrite map_app, IH.
  - destruct (joinEntity_single tag annots e) as [r Hr].
    + apply Hone. by left.
    + rewrite Hr. cbn. f_equal. rewrite !keyCode_id. f_equal. f_equal.
      apply (joinEntity_id tag annots). rewrite Hr. by left.
  - intros e' He'. apply Hone. by right.
Qed.

(** The stages that only filter. *)
Definition matches (stage : D) : bool :=
  match stage with
  | [(op, _)] => String.eqb op "$match"
  | _ => false
  end.

Lemma runPipeline_matches (colls : gmap string (list D)) (p : list D)
    (docs rows : list D) :
  forallb matches p = true -> Store.runPipeline regexp colls p docs = Some rows ->
  rows `sublist_of` docs.
Proof.
  revert docs. induction p as [|stage p IH]; intros docs Hp Hrun.
  - cbn in Hrun. by injection Hrun as ->.
  - cbn in Hp, Hrun. apply andb_true_iff in Hp as [Hs Hp].
    destruct stage as [|[op arg] [|]]; try done.
    cbn in Hs. apply String.eqb_eq in Hs as ->. rewrite run_match in Hrun.
    destruct (Store.validFilter regexp arg); [ | done ].
    etrans; [ by apply (IH _ Hp Hrun) | apply sublist_filter ].
Qed.

Lemma matches_media_filters (f : D) (v : string) :
  forallb matches (baseFilterStage f ++ mediaSecondaryFilter v) = true.
Proof.
  unfold mediaSecondaryFilter.
  by destruct f, (String.eqb v "play_date").
Qed.

Lemma matches_album_filters (f : D) (v : string) :
  forallb matches (albumSecondaryFilter v ++ baseFilterStage f) = true.
Proof.
  unfold albumSecondaryFilter.
  by destruct f, (String.eqb v "play_count" || String.eqb v "play_date").
Qed.

(** Over a catalogue with unique entity IDs and one annotation per
    entity, no ID occurs twice among the joined and filtered rows. *)
Lemma filtered_uniqueIds (colls : gmap string (list D)) (var tag : string)
    (filters : list D) (docs rows : list D) :
  Store.stripDollar tag = None ->
  uniqueIds docs ->
  oneAnnotation tag
    (Store.collectionOf colls CollectionFileEntityAudioSceneAnnotation) docs ->
  forallb matches filters = true ->
  Store.runPipeline regexp colls (annotationJoin var tag ++ filters) docs = Some rows ->
  uniqueIds rows.
Proof.
  intros Htag Huniq Hone Hf. rewrite runPipeline_app, run_annotationJoin by done.
  intros Hrows%(runPipeline_matches _ _ _ _ Hf).
  unfold uniqueIds in *. rewrite <- (joined_ids _ _ _ Hone) in Huniq.
  apply (sublist_NoDup _ _ Huniq). by apply fmap_sublist.
Qed.

(** C4.  The sort stage of both kinds orders by the resolved field in
    the requested direction and then by ["_id"] ascending, whatever the
    direction of the primary key, and the store accepts it.  Over rows in
    which no entity ID occurs twice every order the store may return for
    that stage is the same one, ties on the primary field included; and
    the rows that reach the sort stage of a listing are such rows when
    the entity IDs of the catalogue are unique and no entity has two
    annotations. *)
Theorem sort_deterministic (sort order : string) :
  buildSortStage sort order
    = [ ("$sort", VDoc [ (sort, VInt (sortDirection order)); ("_id", VInt 1) ]) ]
  /\ buildAlbumSortStage sort order = buildSortStage sort order
  /\ (forall colls docs,
        Store.runStage regexp colls (buildSortStage sort order) docs
        = Some (Store.sortDocs (stageKeys sort order) docs))
  /\ (forall docs,
        Store.sortedBy (stageKeys sort order) docs
          (Store.sortDocs (stageKeys sort order) docs))
  /\ (forall docs out1 out2,
        uniqueIds docs ->
        Store.sortedBy (stageKeys sort order) docs out1 ->
        Store.sortedBy (stageKeys sort order) docs out2 ->
        out1 = out2)
  /\ (forall colls docs rows search starred a b c v,
        uniqueIds docs ->
        (oneAnnotation "media"
           (Store.collectionOf colls CollectionFileEntityAudioSceneAnnotation)
           docs ->
         Store.runPipeline regexp colls
           (annotationJoin "mediaId" "media"
            ++ baseFilterStage (buildMatchStage search starred a b c)
            ++ mediaSecondaryFilter v) docs = Some rows ->
         uniqueIds rows)
        /\ (oneAnnotation "album"
              (Store.collectionOf colls CollectionFileEntityAudioSceneAnnotation)
              docs ->
            Store.runPipeline regexp colls
              (annotationJoin "albumId" "album"
               ++ albumSecondaryFilter v
               ++ baseFilterStage (buildAlbumMatch search starred a b c)) docs
            = Some rows ->
            uniqueIds rows)).
Proof.
  split; [ unfold buildSortStage, sortDirection; by destruct (String.eqb order "desc") | ].
  split; [ done | ].
  split.
  { intros colls docs. unfold buildSortStage, stageKeys, sortDirection.
    by destruct (String.eqb order "desc"). }
  split; [ intros; apply sortDocs_sortedBy | ].
  split.
  { intros docs out1 out2. apply sortedBy_unique with (dir := 1).
    unfold stageKeys. apply elem_of_cons. right. by apply elem_of_cons; left. }
  intros colls docs rows search starred a b c v Huniq. split; intros Hone Hrun.
  - apply (filtered_uniqueIds colls "mediaId" "media" _ docs rows eq_refl Huniq
             Hone (matches_media_filters _ _) Hrun).
  - apply (filtered_uniqueIds colls "albumId" "album" _ docs rows eq_refl Huniq
             Hone (matches_album_filters _ _) Hrun).
Qed.

(** *** Facet counts *)

(** The common tail of the two count methods: the round-trip under the
    caller's context, then the decoding of the [$facet] document. *)
Definition countItems (r : repository) (ctx : Context) (pipeline : list D)
    : result FilterCounts :=
  match Aggregate regexp (db r) (collection r) ctx pipeline with
  | inl err => Err (CountQueryFailed err)
  | inr cursor =>
      match mapM decodeFacetRow cursor with
      | Some result =>
          Ok match result with
             | row :: _ =>
                 {| Total := extractCount (rowTotal row);
                    StarredCount := extractCount (rowStarred row);
                    RecentPlay := extractCount (rowRecentPlay row) |}
             | [] => {| Total := 0; StarredCount := 0; RecentPlay := 0 |}
             end
      | None => Err DecodeCountError
      end
  end.

Definition facetStage : D :=
  [ ("$facet", VDoc
      [ ("total", VArr [ VDoc [("$count", VStr "count")] ]);
        ("starred", VArr
           [ VDoc [("$match", VDoc [("annotations.starred", VBool true)])];
             VDoc [("$count", VStr "count")] ]);
        ("recent_play", VArr
           [ VDoc [("$match", VDoc
               [("annotations.play_count", VDoc [("$gt", VInt 0)])])];
             VDoc [("$count", VStr "count")] ]) ]) ].

(** The pipeline of a count method: the [$lookup], the base filter, the
    three facets. *)
Definition countPipeline (var tag : string) (base : D) : list D :=
  [ [ ("$lookup", VDoc
        [ ("from", VStr CollectionFileEntityAudioSceneAnnotation);
          ("let", VDoc [(var, VStr "$_id")]);
          ("pipeline", VArr
             [ VDoc [ ("$match", VDoc
                 [ ("$expr", VDoc
                     [ ("$and", VArr
                          [ VDoc [("$eq", VArr [VStr "$item_id"; VStr ("$$" +:+ var)])];
                            VDoc [("$eq", VArr [VStr "$item_type"; VStr tag])] ]) ]) ]) ] ]);
          ("as", VStr "annotations") ]) ];
    [ ("$match", VDoc base) ];
    facetStage ].

Lemma GetMediaFileFilterItemsCount_countItems (r : repository) (ctx : Context)
    (search starred a b c : string) :
  GetMediaFileFilterItemsCount r ctx search starred a b c
  = countItems r ctx
      (countPipeline "mediaId" "media" (buildBaseMatch search a b c)).
Proof. reflexivity. Qed.

Lemma GetAlbumFilterItemsCount_countItems (r : repository) (ctx : Context)
    (search starred a b c : string) :
  GetAlbumFilterItemsCount r ctx search starred a b c
  = countItems r ctx
      (countPipeline "albumId" "album"
         (buildAlbumBaseMatch search starred a b c)).
Proof. reflexivity. Qed.

(** The entities with their annotations attached as an array, as the
    [$lookup] of a count pipeline leaves them. *)
Definition withAnnotations (tag : string) (annots : list D) (e : D) : D :=
  set "annotations" (VArr (map VDoc (annotationsOf tag annots e))) e.

Definition isStarred (d : D) : Prop :=
  Store.evalFilter regexp [] (VDoc [("annotations.starred", VBool true)]) d = true.

Definition isPlayed (d : D) : Prop :=
  Store.evalFilter regexp []
    (VDoc [("annotations.play_count", VDoc [("$gt", VInt 0)])]) d = true.

#[local] Instance isStarred_dec (d : D) : Decision (isStarred d).
Proof. unfold isStarred. apply _. Defined.

#[local] Instance isPlayed_dec (d : D) : Decision (isPlayed d).
Proof. unfold isPlayed. apply _. Defined.

(** The three counts over one set of rows. *)
Definition facetCounts (rows : list D) : FilterCounts :=
  {| Total := Z.of_nat (List.length rows);
     StarredCount := Z.of_nat (List.length (filter isStarred rows));
     RecentPlay := Z.of_nat (List.length (filter isPlayed rows)) |}.

(** The rows the facets of a count pipeline are computed from. *)
Definition countRows (r : repository) (tag : string) (base : D) : list D :=
  filter (fun d => Store.evalFilter regexp [] (VDoc base) d = true)
    (map (withAnnotations tag
            (Store.collectionOf (Collections (db r))
               CollectionFileEntityAudioSceneAnnotation))
       (Store.collectionOf (Collections (db r)) (collection r))).

Lemma run_facetStage (colls : gmap string (list D)) (rows : list D) :
  Store.runStage regexp colls facetStage rows
  = Some [ [ ("total", VArr (map VDoc (Store.countDocs "count" rows)));
             ("starred", VArr (map VDoc
                (Store.countDocs "count" (filter isStarred rows))));
             ("recent_play", VArr (map VDoc
                (Store.countDocs "count" (filter isPlayed rows)))) ] ].
Proof. reflexivity. Qed.

Lemma decode_countDocs (rows : list D) :
  exists data,
    decodeIntMaps (Some (VArr (map VDoc (Store.countDocs "count" rows))))
    = Some data
    /\ extractCount data = Z.of_nat (List.length rows).
Proof.
  destruct rows as [|d rows].
  - by exists [].
  - exists [ {[ "count" := Z.of_nat (List.length (d :: rows)) ]} ].
    split; [ reflexivity | ].
    unfold extractCount. by rewrite lookup_singleton_eq.
Qed.

Lemma run_countPipeline (colls : gmap string (list D)) (var tag : string)
    (base : D) (docs : list D) :
  Store.stripDollar tag = None ->
  Store.runPipeline regexp colls (countPipeline var tag base) docs
  = if Store.validFilter regexp (VDoc base)
    then Store.runStage regexp colls facetStage
           (filter (fun d => Store.evalFilter regexp [] (VDoc base) d = true)
              (map (withAnnotations tag
                      (Store.collectionOf colls
                         CollectionFileEntityAudioSceneAnnotation)) docs))
    else None.
Proof.
  intros Htag. unfold countPipeline. cbn [Store.runPipeline].
  assert (Store.runStage regexp colls
            [ ("$lookup", VDoc
                [ ("from", VStr CollectionFileEntityAudioSceneAnnotation);
                  ("let", VDoc [(var, VStr "$_id")]);
                  ("pipeline", VArr
                     [ VDoc [ ("$match", VDoc
                         [ ("$expr", VDoc
                             [ ("$and", VArr
                                  [ VDoc [("$eq", VArr [VStr "$item_id"; VStr ("$$" +:+ var)])];
                                    VDoc [("$eq", VArr [VStr "$item_type"; VStr tag])] ]) ]) ]) ] ]);
                  ("as", VStr "annotations") ]) ] docs
          = Some (map (withAnnotations tag
                         (Store.collectionOf colls
                            CollectionFileEntityAudioSceneAnnotation)) docs))
    as ->.
  { change (Store.runStage regexp colls _ docs)
      with (mapM (Store.lookupDoc regexp
                    (Store.collectionOf colls CollectionFileEntityAudioSceneAnnotation)
                    [(var, VStr "$_id")]
                    [ VDoc [ ("$match", VDoc
                        [ ("$expr", VDoc
                            [ ("$and", VArr
                                 [ VDoc [("$eq", VArr [VStr "$item_id"; VStr ("$$" +:+ var)])];
                                   VDoc [("$eq", VArr [VStr "$item_type"; VStr tag])] ]) ]) ]) ] ]
                    "annotations") docs).
    apply mapM_total. intros e. by apply lookupDoc_annotations. }
  rewrite run_match. destruct (Store.validFilter regexp (VDoc base)); [ | done ].
  by destruct (Store.runStage regexp colls facetStage _).
Qed.

(** What a count method returns: a deadline failure, a rejected filter,
    or the three counts over the base-filtered rows. *)
Lemma countItems_result (r : repository) (ctx : Context) (var tag : string)
    (base : D) :
  Store.stripDollar tag = None ->
  countItems r ctx (countPipeline var tag base)
  = if expired ctx (RoundTrip (db r)) then Err (CountQueryFailed DeadlineExceeded)
    else if Store.validFilter regexp (VDoc base)
         then Ok (facetCounts (countRows r tag base))
         else Err (CountQueryFailed CommandFailed).
Proof.
  intros Htag. unfold countItems, Aggregate.
  destruct (expired _ _); [ done | ].
  rewrite run_countPipeline by done.
  destruct (Store.validFilter regexp (VDoc base)); [ | done ].
  rewrite run_facetStage. fold (countRows r tag base).
  destruct (decode_countDocs (countRows r tag base)) as (t & Ht & Het).
  destruct (decode_countDocs (filter isStarred (countRows r tag base)))
    as (st & Hst & Hest).
  destruct (decode_countDocs (filter isPlayed (countRows r tag base)))
    as (p & Hp & Hep).
  cbn [mapM]. unfold decodeFacetRow.
  change (get "total" _) with
    (Some (VArr (map VDoc (Store.countDocs "count" (countRows r tag base))))).
  change (get "starred" _) with
    (Some (VArr (map VDoc (Store.countDocs "count"
                             (filter isStarred (countRows r tag base)))))).
  change (get "recent_play" _) with
    (Some (VArr (map VDoc (Store.countDocs "count"
                             (filter isPlayed (countRows r tag base)))))).
  rewrite Ht, Hst, Hp. cbn. unfold facetCounts. by rewrite Het, Hest, Hep.
Qed.

Lemma facetCounts_bounds (rows : list D) :
  0 <= StarredCount (facetCounts rows) <= Total (facetCounts rows)
  /\ 0 <= RecentPlay (facetCounts rows) <= Total (facetCounts rows).
Proof.
  cbn. pose proof (length_filter isStarred rows).
  pose proof (length_filter isPlayed rows). lia.
Qed.

Lemma countItems_rows (r : repository) (ctx : Context) (var tag : string)
    (base : D) (counts : FilterCounts) :
  Store.stripDollar tag = None ->
  countItems r ctx (countPipeline var tag base) = Ok counts ->
  counts = facetCounts (countRows r tag base).
Proof.
  intros Htag. rewrite countItems_result by done.
  destruct (expired _ _); [ done | ].
  destruct (Store.validFilter regexp _); [ | done ]. by intros [= <-].
Qed.

(** C10.  The counts a count method returns are the numbers of rows of
    the three facet branches over one set of rows: non-negative, with
    [starred ≤ total] and [recent_play ≤ total]; a branch without rows
    counts 0, which is also what [extractCount] gives for the empty
    array the store returns for such a branch. *)
Theorem facet_counts_consistent (r : repository) (ctx : Context)
    (search starred a b c : string) (counts : FilterCounts) :
  GetMediaFileFilterItemsCount r ctx search starred a b c = Ok counts
  \/ GetAlbumFilterItemsCount r ctx search starred a b c = Ok counts ->
  (0 <= Total counts
   /\ 0 <= StarredCount counts <= Total counts
   /\ 0 <= RecentPlay counts <= Total counts)
  /\ (exists rows,
        Total counts = Z.of_nat (List.length rows)
        /\ StarredCount counts = Z.of_nat (List.length (filter isStarred rows))
        /\ RecentPlay counts = Z.of_nat (List.length (filter isPlayed rows))
        /\ (rows = [] -> Total counts = 0)
        /\ (filter isStarred rows = [] -> StarredCount counts = 0)
        /\ (filter isPlayed rows = [] -> RecentPlay counts = 0))
  /\ extractCount [] = 0.
Proof.
  intros Hcounts.
  assert (exists rows, counts = facetCounts rows) as [rows ->].
  { destruct Hcounts as [Hc | Hc].
    - rewrite GetMediaFileFilterItemsCount_countItems in Hc.
      apply countItems_rows in Hc; [ by eexists | done ].
    - rewrite GetAlbumFilterItemsCount_countItems in Hc.
      apply countItems_rows in Hc; [ by eexists | done ]. }
  pose proof (facetCounts_bounds rows) as [Hs Hp].
  split; [ cbn in *; lia | ]. split; [ | done ].
  exists rows. cbn. repeat split; by intros ->.
Qed.

(** *** The base filter of the counts *)

(** C1, as amended.  Both count methods compute the three counts over one
    set of rows: the entities joined with their annotations and filtered
    by the base filter.  For albums the base filter is the document
    [buildAlbumMatch] builds from all five parameters.  For tracks it is
    built from [search], [albumId], [artistId] and [year] only:
    [buildBaseMatch] passes the empty string for [starred], and the
    result of the call does not depend on the [starred] parameter. *)
Theorem counts_share_base_filter (r : repository) (ctx : Context)
    (search starred a b c : string) :
  (buildBaseMatch search a b c = buildMatchStage search "" a b c
   /\ GetMediaFileFilterItemsCount r ctx search starred a b c
      = GetMediaFileFilterItemsCount r ctx search "" a b c
   /\ GetMediaFileFilterItemsCount r ctx search starred a b c
      = if expired ctx (RoundTrip (db r))
        then Err (CountQueryFailed DeadlineExceeded)
        else if Store.validFilter regexp (VDoc (buildMatchStage search "" a b c))
             then Ok (facetCounts
                        (countRows r "media" (buildMatchStage search "" a b c)))
             else Err (CountQueryFailed CommandFailed))
  /\ (buildAlbumBaseMatch search starred a b c
      = buildAlbumMatch search starred a b c
      /\ GetAlbumFilterItemsCount r ctx search starred a b c
         = if expired ctx (RoundTrip (db r))
           then Err (CountQueryFailed DeadlineExceeded)
           else if Store.validFilter regexp (VDoc (buildAlbumMatch search starred a b c))
                then Ok (facetCounts
                           (countRows r "album"
                              (buildAlbumMatch search starred a b c)))
                else Err (CountQueryFailed CommandFailed)).
Proof.
  split; [ split; [ done | split; [ done | ] ] | split; [ done | ] ].
  - rewrite GetMediaFileFilterItemsCount_countItems.
    by rewrite countItems_result.
  - rewrite GetAlbumFilterItemsCount_countItems.
    by rewrite countItems_result.
Qed.

(** *** Deadlines *)

(** Both listing methods give up after ten seconds, whatever the caller's
    context. *)
Lemma listing_deadline (r : repository) (ctx : Context)
    (start end_ sort order search starred a b c : string) :
  10 * Second < RoundTrip (db r) ->
  GetMediaFileItems r ctx start end_ sort order search starred a b c
  = Err (DatabaseQueryFailed DeadlineExceeded)
  /\ GetAlbumItems r ctx start end_ sort order search starred a b c
     = Err (DatabaseQueryFailed DeadlineExceeded).
Proof.
  intros Hslow.
  assert (expired (WithTimeout ctx (10 * Second)) (RoundTrip (db r)) = true)
    as Hexp.
  { unfold expired, WithTimeout. cbn [Deadline].
    destruct (Deadline ctx); apply Z.ltb_lt; lia. }
  unfold GetMediaFileItems, GetAlbumItems, Aggregate. cbv zeta.
  by rewrite Hexp.
Qed.

(** The count methods run under the caller's context as it is: without a
    deadline there, the store is waited for however long it takes. *)
Lemma counting_no_deadline (r : repository) (ctx : Context)
    (search starred a b c : string) :
  Deadline ctx = None ->
  GetMediaFileFilterItemsCount r ctx search starred a b c
  <> Err (CountQueryFailed DeadlineExceeded)
  /\ GetAlbumFilterItemsCount r ctx search starred a b c
     <> Err (CountQueryFailed DeadlineExceeded).
Proof.
  intros Hctx.
  rewrite GetMediaFileFilterItemsCount_countItems,
    GetAlbumFilterItemsCount_countItems, !countItems_result by done.
  unfold expired. rewrite Hctx.
  split; by destruct (Store.validFilter regexp _).
Qed.

(** *** The search clause *)

Definition mediaSearchFields : list string := ["title"; "artist"; "album"].
Definition albumSearchFields : list string := ["name"; "artist"; "album_artist"].

Definition regexClause (search : string) : value :=
  VDoc [("$regex", VStr search); ("$options", VStr "i")].

(** The search clause over the name-like fields of a kind; the empty
    search string has none. *)
Definition searchClause (fields : list string) (search : string) : D :=
  if String.eqb search "" then []
  else [ ("$or", VArr (map (fun field => VDoc [(field, regexClause search)])
                         fields)) ].

(** Every key of a value: the keys of a document and, below them, the
    keys of the documents it holds. *)
Fixpoint keysOf (v : value) : list string :=
  match v with
  | VDoc d => flat_map (fun '(k, x) => k :: keysOf x) d
  | VArr l => flat_map keysOf l
  | _ => []
  end.

(** The strings a clause on [field] is tested against. *)
Definition fieldStrings (field : string) (d : D) : list string :=
  omap (fun c => match c with Some (VStr s) => Some s | _ => None end)
    (Store.candidates (Store.splitPath field) (VDoc d)).

(** The library compiles the search string as a pattern, under the
    option [i]. *)
Definition compiles (search : string) : bool :=
  match regexp search "i" with
  | Some _ => true
  | None => false
  end.

(** The search string, taken as a pattern, matches somewhere in one of
    the fields. *)
Definition matchesInFields (fields : list string) (search : string) (d : D)
    : Prop :=
  exists field s matches,
    field ∈ fields /\ s ∈ fieldStrings field d
    /\ regexp search "i" = Some matches /\ matches s = true.

(** [needle] occurs in [hay] as a substring, up to the case folding
    [fold]. *)
Definition occursFold (fold : string -> string) (needle hay : string) : Prop :=
  exists pre post, fold hay = pre +:+ fold needle +:+ post.

(** The search string occurs literally, up to case, in one of the fields. *)
Definition occursInFields (fold : string -> string) (fields : list string)
    (search : string) (d : D) : Prop :=
  exists field s,
    field ∈ fields /\ s ∈ fieldStrings field d /\ occursFold fold search s.

(** The compiled pattern [matches] treats the search string as a literal:
    it holds of the subjects in which the string occurs up to the case
    folding [fold].  This is how PCRE, with the option [i], treats a
    string without metacharacters, [fold] being its case folding. *)
Definition literalPattern (fold : string -> string) (search : string)
    (matches : string -> bool) : Prop :=
  forall subject, matches subject = true <-> occursFold fold search subject.

(** What the store answers when it refuses a query. *)
Definition refusal (ctx : Context) (r : repository) : storeError :=
  if expired ctx (RoundTrip (db r)) then DeadlineExceeded else CommandFailed.

Lemma evalField_regex (field search : string) (d : D) :
  Store.evalField regexp field (regexClause search) d = true
  <-> exists s matches,
        s ∈ fieldStrings field d
        /\ regexp search "i" = Some matches /\ matches s = true.
Proof.
  unfold Store.evalField, regexClause, fieldStrings.
  change (Store.isOperatorDoc _) with true. cbv iota.
  cbn [forallb]. unfold Store.evalOp at 2.
  change (String.eqb "$options" "$gt") with false.
  change (String.eqb "$options" "$gte") with false.
  change (String.eqb "$options" "$lte") with false.
  change (String.eqb "$options" "$ne") with false.
  change (String.eqb "$options" "$regex") with false.
  change (String.eqb "$options" "$options") with true.
  cbv iota. rewrite !andb_true_r.
  unfold Store.evalOp.
  change (String.eqb "$regex" "$gt") with false.
  change (String.eqb "$regex" "$gte") with false.
  change (String.eqb "$regex" "$lte") with false.
  change (String.eqb "$regex" "$ne") with false.
  change (String.eqb "$regex" "$regex") with true.
  cbv iota.
  change (Store.regexOptions _) with "i".
  destruct (regexp search "i") as [matches|];
    [ | split; [ done | by intros (s & m & _ & ? & _) ] ].
  generalize (Store.candidates (Store.splitPath field) (VDoc d)). intros cands.
  induction cands as [|c cands IH]; cbn.
  - split; [ done | ]. intros (s & m & Hs & _). by apply elem_of_nil in Hs.
  - rewrite orb_true_iff, IH. split.
    + intros [Hc | (s & m & Hs & Hm & Hms)].
      * destruct c as [[| | |s| | |]|]; try done.
        exists s, matches. split; [ by left | done ].
      * exists s, m. split; [ | done ].
        destruct c as [[| | |s'| | |]|]; try done. by right.
    + intros (s & m & Hs & [= <-] & Hms).
      destruct c as [[| | |s'| | |]|]; try (right; by exists s, matches).
      apply elem_of_cons in Hs as [<- | Hs];
        [ by left | right; by exists s, matches ].
Qed.

Lemma evalFilter_cons (vars : D) (k : string) (v : value) (cs : D) (d : D) :
  Store.evalFilter regexp vars (VDoc ((k, v) :: cs)) d
  = Store.evalFilter regexp vars (VDoc [(k, v)]) d
    && Store.evalFilter regexp vars (VDoc cs) d.
Proof. cbn. by rewrite andb_true_r. Qed.

(** A filter of two parts holds when both parts hold. *)
Lemma evalFilter_app (vars : D) (f g : D) (d : D) :
  Store.evalFilter regexp vars (VDoc (f ++ g)) d
  = Store.evalFilter regexp vars (VDoc f) d
    && Store.evalFilter regexp vars (VDoc g) d.
Proof.
  induction f as [|[k v] f IH]; [ done | ].
  rewrite <- app_comm_cons. etrans; [ apply evalFilter_cons | ].
  rewrite IH. symmetry. etrans; [ by rewrite evalFilter_cons | ].
  by rewrite andb_assoc.
Qed.

Lemma validFilter_cons (k : string) (v : value) (cs : D) :
  Store.validFilter regexp (VDoc ((k, v) :: cs))
  = Store.validFilter regexp (VDoc [(k, v)])
    && Store.validFilter regexp (VDoc cs).
Proof. cbn. by rewrite andb_true_r. Qed.

Lemma validFilter_app (f g : D) :
  Store.validFilter regexp (VDoc (f ++ g))
  = Store.validFilter regexp (VDoc f) && Store.validFilter regexp (VDoc g).
Proof.
  induction f as [|[k v] f IH]; [ done | ].
  rewrite <- app_comm_cons. etrans; [ apply validFilter_cons | ].
  rewrite IH. symmetry. etrans; [ by rewrite validFilter_cons | ].
  by rewrite andb_assoc.
Qed.

(** The filter of a request is the filter of the request without
    [search], next to the search clause. *)
Lemma buildMatchStage_search (search starred a b c : string) :
  buildMatchStage search starred a b c
  = buildMatchStage "" "" a b c
    ++ buildMatchStage search "" "" "" ""
    ++ buildMatchStage "" starred "" "" "".
Proof.
  unfold buildMatchStage. cbv zeta.
  change (String.eqb "" "") with true. cbn [negb].
  destruct (negb (String.eqb b "")), (negb (String.eqb a "")),
    (negb (String.eqb c "")), (Strconv.Atoi c),
    (negb (String.eqb search "")), (negb (String.eqb starred "")),
    (Strconv.ParseBool starred);
    cbn [app]; rewrite <- ?app_assoc, ?app_nil_r; reflexivity.
Qed.

Lemma buildAlbumMatch_search (search starred a b c : string) :
  buildAlbumMatch search starred a b c
  = buildAlbumMatch "" "" a b c
    ++ buildAlbumMatch search "" "" "" ""
    ++ buildAlbumMatch "" starred "" "" "".
Proof.
  unfold buildAlbumMatch. cbv zeta.
  change (String.eqb "" "") with true. cbn [negb orb].
  destruct (negb (String.eqb a "")),
    (negb (String.eqb search "")), (negb (String.eqb starred "")),
    (Strconv.ParseBool starred);
    destruct (negb (String.eqb b "") || negb (String.eqb c ""));
    try destruct (0 <? _);
    cbn [app]; rewrite <- ?app_assoc, ?app_nil_r; reflexivity.
Qed.

(** The clauses other than the search clause are always accepted. *)
Lemma valid_media_rest (starred a b c : string) :
  Store.validFilter regexp (VDoc (buildMatchStage "" starred a b c)) = true.
Proof.
  unfold buildMatchStage. cbv zeta.
  change (String.eqb "" "") with true. cbn [negb].
  destruct (negb (String.eqb b "")), (negb (String.eqb a "")),
    (negb (String.eqb c "")), (Strconv.Atoi c),
    (negb (String.eqb starred "")), (Strconv.ParseBool starred);
    reflexivity.
Qed.

Lemma valid_album_rest (starred a b c : string) :
  Store.validFilter regexp (VDoc (buildAlbumMatch "" starred a b c)) = true.
Proof.
  unfold buildAlbumMatch. cbv zeta.
  change (String.eqb "" "") with true. cbn [negb].
  destruct (negb (String.eqb a "")), (negb (String.eqb b "")),
    (negb (String.eqb c "")), (Strconv.Atoi b), (Strconv.Atoi c),
    (negb (String.eqb starred "")), (Strconv.ParseBool starred);
    reflexivity.
Qed.

Lemma media_search_clause (search : string) :
  buildMatchStage search "" "" "" ""
  = if String.eqb search "" then []
    else [ ("$or", VArr [ VDoc [("title", regexClause search)];
                          VDoc [("artist", regexClause search)];
                          VDoc [("album", regexClause search)] ]) ].
Proof. unfold buildMatchStage. cbv zeta. by destruct (String.eqb search ""). Qed.

Lemma album_search_clause (search : string) :
  buildAlbumMatch search "" "" "" ""
  = if String.eqb search "" then []
    else [ ("$or", VArr [ VDoc [("name", regexClause search)];
                          VDoc [("artist", regexClause search)];
                          VDoc [("album_artist", regexClause search)] ]) ].
Proof. unfold buildAlbumMatch. cbv zeta. by destruct (String.eqb search ""). Qed.

Lemma search_clauses (search : string) :
  buildMatchStage search "" "" "" "" = searchClause mediaSearchFields search
  /\ buildAlbumMatch search "" "" "" "" = searchClause albumSearchFields search.
Proof.
  rewrite media_search_clause, album_search_clause. unfold searchClause.
  by destruct (String.eqb search "").
Qed.

(** The filter without search string holds no pattern. *)
Lemma no_search_no_regex (starred a b c : string) :
  ("$regex" ∉ keysOf (VDoc (buildMatchStage "" starred a b c)))
  /\ ("$regex" ∉ keysOf (VDoc (buildAlbumMatch "" starred a b c))).
Proof.
  split.
  - unfold buildMatchStage. cbv zeta.
    change (String.eqb "" "") with true. cbn [negb].
    destruct (negb (String.eqb b "")), (negb (String.eqb a "")),
      (negb (String.eqb c "")), (Strconv.Atoi c),
      (negb (String.eqb starred "")), (Strconv.ParseBool starred);
      apply (bool_decide_unpack _); by vm_compute.
  - unfold buildAlbumMatch. cbv zeta.
    change (String.eqb "" "") with true. cbn [negb].
    destruct (negb (String.eqb a "")), (negb (String.eqb b "")),
      (negb (String.eqb c "")), (Strconv.Atoi b), (Strconv.Atoi c),
      (negb (String.eqb starred "")), (Strconv.ParseBool starred);
      apply (bool_decide_unpack _); by vm_compute.
Qed.

(** The store accepts the search clause when its library compiles the
    search string. *)
Lemma valid_search_clause (search : string) :
  Store.validFilter regexp (VDoc (searchClause mediaSearchFields search))
  = String.eqb search "" || compiles search
  /\ Store.validFilter regexp (VDoc (searchClause albumSearchFields search))
     = String.eqb search "" || compiles search.
Proof.
  unfold searchClause, compiles, mediaSearchFields, albumSearchFields.
  destruct (String.eqb search ""); [ done | ].
  cbn. change (Store.regexOptions _) with "i".
  by destruct (regexp search "i").
Qed.

(** The search clause holds of the entities in which the pattern
    matches. *)
Lemma search_clause_matches (f1 f2 f3 search : string) (d : D) :
  existsb (String.eqb f1) ["$and"; "$or"; "$expr"] = false ->
  existsb (String.eqb f2) ["$and"; "$or"; "$expr"] = false ->
  existsb (String.eqb f3) ["$and"; "$or"; "$expr"] = false ->
  Store.evalFilter regexp [] (VDoc (searchClause [f1; f2; f3] search)) d = true
  <-> search = "" \/ matchesInFields [f1; f2; f3] search d.
Proof.
  intros H1 H2 H3. unfold searchClause.
  destruct (String.eqb_spec search "") as [->|Hne].
  - split; [ by left | done ].
  - cbn [map].
    assert (forall f, existsb (String.eqb f) ["$and"; "$or"; "$expr"] = false ->
              Store.evalFilter regexp [] (VDoc [(f, regexClause search)]) d
              = Store.evalField regexp f (regexClause search) d) as Hfield.
    { intros f. cbn [existsb]. rewrite orb_false_r.
      intros [Hand [Hor Hexpr]%orb_false_iff]%orb_false_iff.
      cbn. by rewrite Hand, Hor, Hexpr, andb_true_r. }
    assert (Store.evalFilter regexp []
              (VDoc [ ("$or", VArr [ VDoc [(f1, regexClause search)];
                                     VDoc [(f2, regexClause search)];
                                     VDoc [(f3, regexClause search)] ]) ]) d
            = Store.evalFilter regexp [] (VDoc [(f1, regexClause search)]) d
              || Store.evalFilter regexp [] (VDoc [(f2, regexClause search)]) d
              || Store.evalFilter regexp [] (VDoc [(f3, regexClause search)]) d)
      as ->.
    { cbn. by rewrite orb_false_r, andb_true_r, orb_assoc. }
    rewrite !Hfield by done.
    rewrite !orb_true_iff, !evalField_regex. unfold matchesInFields. split.
    + intros [[(s & m & Hs & Hm) | (s & m & Hs & Hm)] | (s & m & Hs & Hm)];
        right.
      * exists f1, s, m. split; [ by left | done ].
      * exists f2, s, m. split; [ right; by left | done ].
      * exists f3, s, m. split; [ right; right; by left | done ].
    + intros [? | (f & s & m & Hf & Hs & Hm)]; [ done | ].
      apply elem_of_cons in Hf as [-> | Hf]; [ left; left; by exists s, m | ].
      apply elem_of_cons in Hf as [-> | Hf]; [ left; right; by exists s, m | ].
      apply elem_of_cons in Hf as [-> | Hf]; [ right; by exists s, m | ].
      by apply elem_of_nil in Hf.
Qed.

(** A pattern that is a literal matches in the fields in which the
    string occurs. *)
Lemma matchesInFields_literal (fold : string -> string) (fields : list string)
    (search : string) (matches : string -> bool) (d : D) :
  regexp search "i" = Some matches -> literalPattern fold search matches ->
  matchesInFields fields search d <-> occursInFields fold fields search d.
Proof.
  intros Hc Hl. unfold matchesInFields, occursInFields. split.
  - intros (f & s & m & Hf & Hs & Hm & Hms). exists f, s.
    rewrite Hc in Hm. injection Hm as <-. split; [ done | ].
    split; [ done | by apply Hl ].
  - intros (f & s & Hf & Hs & Hocc). exists f, s, matches.
    split; [ done | ]. split; [ done | ]. split; [ done | by apply Hl ].
Qed.

(** A listing whose filter the store refuses fails, for either kind. *)
Lemma listItems_refused (r : repository) (ctx : Context) (p q : list D)
    (f : D) :
  (forall docs, exists mid,
     Store.runPipeline regexp (Collections (db r)) p docs = Some mid) ->
  Store.validFilter regexp (VDoc f) = false ->
  listItems r ctx (p ++ baseFilterStage f ++ q)
  = Err (DatabaseQueryFailed (refusal (WithTimeout ctx (10 * Second)) r)).
Proof.
  intros Hp Hf. unfold listItems, Aggregate, refusal.
  destruct (expired _ _); [ done | ].
  rewrite runPipeline_app.
  destruct (Hp (Store.collectionOf (Collections (db r)) (collection r)))
    as [mid ->].
  by rewrite runPipeline_app, run_baseFilterStage, Hf.
Qed.

(** The search condition of a filter, given what the filter asks without
    the search string. *)
Definition searchMatches (fields : list string) (filter rest : D)
    (search : string) (d : D) : Prop :=
  Store.evalFilter regexp [] (VDoc filter) d = true
  <-> Store.evalFilter regexp [] (VDoc rest) d = true
      /\ (search = "" \/ matchesInFields fields search d).

Definition searchMeans (fold : string -> string) (fields : list string)
    (filter rest : D) (search : string) (d : D) : Prop :=
  Store.evalFilter regexp [] (VDoc filter) d = true
  <-> Store.evalFilter regexp [] (VDoc rest) d = true
      /\ (search = "" \/ occursInFields fold fields search d).

Lemma media_searchMatches (search starred a b c : string) (d : D) :
  searchMatches mediaSearchFields (buildMatchStage search starred a b c)
    (buildMatchStage "" starred a b c) search d.
Proof.
  unfold searchMatches.
  rewrite buildMatchStage_search, (buildMatchStage_search "" starred a b c).
  rewrite !evalFilter_app, !andb_true_iff.
  rewrite (proj1 (search_clauses search)).
  rewrite (search_clause_matches "title" "artist" "album" search d) by done.
  change (Store.evalFilter regexp [] (VDoc (buildMatchStage "" "" "" "" "")) d)
    with true.
  split.
  - intros (H1 & H2 & H3). done.
  - intros ((H1 & _ & H3) & H2). done.
Qed.

Lemma album_searchMatches (search starred a b c : string) (d : D) :
  searchMatches albumSearchFields (buildAlbumMatch search starred a b c)
    (buildAlbumMatch "" starred a b c) search d.
Proof.
  unfold searchMatches.
  rewrite buildAlbumMatch_search, (buildAlbumMatch_search "" starred a b c).
  rewrite !evalFilter_app, !andb_true_iff.
  rewrite (proj2 (search_clauses search)).
  rewrite (search_clause_matches "name" "artist" "album_artist" search d)
    by done.
  change (Store.evalFilter regexp [] (VDoc (buildAlbumMatch "" "" "" "" "")) d)
    with true.
  split.
  - intros (H1 & H2 & H3). done.
  - intros ((H1 & _ & H3) & H2). done.
Qed.

Lemma media_filter_valid (search starred a b c : string) :
  Store.validFilter regexp (VDoc (buildMatchStage search starred a b c))
  = String.eqb search "" || compiles search.
Proof.
  rewrite buildMatchStage_search, !validFilter_app.
  rewrite (valid_media_rest "" a b c), (valid_media_rest starred "" "" "").
  rewrite (proj1 (search_clauses search)).
  rewrite (proj1 (valid_search_clause search)).
  by rewrite andb_true_r.
Qed.

Lemma album_filter_valid (search starred a b c : string) :
  Store.validFilter regexp (VDoc (buildAlbumMatch search starred a b c))
  = String.eqb search "" || compiles search.
Proof.
  rewrite buildAlbumMatch_search, !validFilter_app.
  rewrite (valid_album_rest "" a b c), (valid_album_rest starred "" "" "").
  rewrite (proj2 (search_clauses search)).
  rewrite (proj2 (valid_search_clause search)).
  by rewrite andb_true_r.
Qed.

(** C8, as amended.  Both builders pass the search string as it is to
    the store, as the pattern of a [$regex] with the option [i] on each
    of the three name-like fields of the kind; the other clauses do not
    depend on it, and without a search string the filter holds no
    pattern, whatever the other parameters.  So, for every search
    string: the store accepts the filter exactly when its library
    compiles the string as a pattern, and when it does not, all four
    methods fail with a query failure; the clause holds of the entities
    in which the pattern matches somewhere in one of the three fields;
    and when the library treats the string as a literal, as it does a
    string without metacharacters, these are the entities in which the
    string occurs, up to case, in one of the fields. *)
Theorem search_clause_pattern (search starred a b c : string) :
  (buildMatchStage search starred a b c
   = buildMatchStage "" "" a b c ++ searchClause mediaSearchFields search
     ++ buildMatchStage "" starred "" "" ""
   /\ buildAlbumMatch search starred a b c
      = buildAlbumMatch "" "" a b c ++ searchClause albumSearchFields search
        ++ buildAlbumMatch "" starred "" "" ""
   /\ ("$regex" ∉ keysOf (VDoc (buildMatchStage "" starred a b c)))
   /\ ("$regex" ∉ keysOf (VDoc (buildAlbumMatch "" starred a b c))))
  /\ (Store.validFilter regexp (VDoc (buildMatchStage search starred a b c))
      = String.eqb search "" || compiles search
      /\ Store.validFilter regexp (VDoc (buildAlbumMatch search starred a b c))
         = String.eqb search "" || compiles search)
  /\ (search <> "" -> regexp search "i" = None ->
      forall r ctx start end_ sort order,
        GetMediaFileItems r ctx start end_ sort order search starred a b c
        = Err (DatabaseQueryFailed (refusal (WithTimeout ctx (10 * Second)) r))
        /\ GetAlbumItems r ctx start end_ sort order search starred a b c
           = Err (DatabaseQueryFailed
                    (refusal (WithTimeout ctx (10 * Second)) r))
        /\ GetMediaFileFilterItemsCount r ctx search starred a b c
           = Err (CountQueryFailed (refusal ctx r))
        /\ GetAlbumFilterItemsCount r ctx search starred a b c
           = Err (CountQueryFailed (refusal ctx r)))
  /\ (forall d,
        searchMatches mediaSearchFields (buildMatchStage search starred a b c)
          (buildMatchStage "" starred a b c) search d
        /\ searchMatches albumSearchFields
             (buildAlbumMatch search starred a b c)
             (buildAlbumMatch "" starred a b c) search d)
  /\ (forall fold matches,
        regexp search "i" = Some matches ->
        literalPattern fold search matches ->
        forall d,
          searchMeans fold mediaSearchFields
            (buildMatchStage search starred a b c)
            (buildMatchStage "" starred a b c) search d
          /\ searchMeans fold albumSearchFields
               (buildAlbumMatch search starred a b c)
               (buildAlbumMatch "" starred a b c) search d).
Proof.
  split; [ | split; [ | split; [ | split ] ] ].
  - rewrite <- (proj1 (search_clauses search)), <- (proj2 (search_clauses search)).
    split; [ apply buildMatchStage_search | ].
    split; [ apply buildAlbumMatch_search | apply no_search_no_regex ].
  - split; [ apply media_filter_valid | apply album_filter_valid ].
  - intros Hne Hnone r ctx start end_ sort order.
    assert (String.eqb search "" || compiles search = false) as Hrefused.
    { unfold compiles. rewrite Hnone.
      by destruct (String.eqb_spec search ""). }
    pose proof (media_filter_valid search starred a b c) as Hmedia.
    pose proof (media_filter_valid search "" a b c) as Hbase.
    pose proof (album_filter_valid search starred a b c) as Halbum.
    rewrite Hrefused in Hmedia, Hbase, Halbum.
    split; [ | split; [ | split ] ].
    + change (GetMediaFileItems r ctx start end_ sort order search starred a b c)
        with (listItems r ctx
                (GetMediaFileItems_pipeline start end_ sort order search
                   starred a b c)).
      rewrite GetMediaFileItems_pipeline_stages.
      apply listItems_refused; [ | done ].
      intros docs. rewrite run_annotationJoin by done. by eexists.
    + change (GetAlbumItems r ctx start end_ sort order search starred a b c)
        with (listItems r ctx
                (GetAlbumItems_pipeline start end_ sort order search
                   starred a b c)).
      rewrite GetAlbumItems_pipeline_stages, app_assoc.
      apply listItems_refused; [ | done ].
      intros docs.
      rewrite runPipeline_app, run_annotationJoin, run_albumSecondaryFilter
        by done.
      by eexists.
    + rewrite GetMediaFileFilterItemsCount_countItems, countItems_result by done.
      unfold buildBaseMatch, refusal. rewrite Hbase.
      by destruct (expired _ _).
    + rewrite GetAlbumFilterItemsCount_countItems, countItems_result by done.
      unfold buildAlbumBaseMatch, refusal. rewrite Halbum.
      by destruct (expired _ _).
  - intros d. split; [ apply media_searchMatches | apply album_searchMatches ].
  - intros fold matches Hc Hl d. unfold searchMeans.
    rewrite <- (matchesInFields_literal fold mediaSearchFields search matches d Hc Hl),
      <- (matchesInFields_literal fold albumSearchFields search matches d Hc Hl).
    split; [ apply media_searchMatches | apply album_searchMatches ].
Qed.

(** ** Further properties of the builders *)

(** *** The allow-lists *)

(** The physical fields a track listing can be sorted by. *)
Definition mediaSortFields : list string :=
  [ "order_title"; "order_album_name"; "order_artist_name";
    "order_album_artist_name"; "year"; "rating"; "starred_at"; "genre";
    "play_count"; "play_date"; "duration"; "bit_rate"; "size"; "created_at";
    "updated_at"; "file_name"; "_id" ].

(** The physical fields an album listing can be sorted by. *)
Definition albumSortFields : list string :=
  [ "order_album_name"; "artist"; "album_artist"; "min_year"; "max_year";
    "rating"; "starred_at"; "genre"; "song_count"; "duration"; "size";
    "play_count"; "play_date"; "created_at"; "updated_at"; "_id" ].

Lemma validateSortField_in (sort albumId : string) :
  validateSortField sort albumId ∈ mediaSortFields.
Proof.
  unfold validateSortField. cbv zeta.
  destruct (mediaSortMappings !! ToLower sort) as [mapped|] eqn:Hk.
  - apply elem_of_list_to_map_2, list_elem_of_In in Hk. cbn in Hk.
    repeat (destruct Hk as [[= _ <-] | Hk];
            [ apply (bool_decide_unpack _); by vm_compute | ]).
    destruct Hk.
  - destruct (0 <? _); apply (bool_decide_unpack _); by vm_compute.
Qed.

Lemma validateAlbumSortField_in (sort : string) :
  validateAlbumSortField sort ∈ albumSortFields.
Proof.
  unfold validateAlbumSortField. cbv zeta.
  destruct (albumSortMappings !! ToLower sort) as [mapped|] eqn:Hk.
  - apply elem_of_list_to_map_2, list_elem_of_In in Hk. cbn in Hk.
    repeat (destruct Hk as [[= _ <-] | Hk];
            [ apply (bool_decide_unpack _); by vm_compute | ]).
    destruct Hk.
  - destruct (albumValidSortFields !! ToLower sort) as [valid|] eqn:Hv;
      [ | apply (bool_decide_unpack _); by vm_compute ].
    destruct valid; [ | apply (bool_decide_unpack _); by vm_compute ].
    cbn [default from_option id].
    apply elem_of_list_to_map_2, list_elem_of_In in Hv. cbn in Hv.
    repeat (destruct Hv as [[= <-] | Hv];
            [ apply (bool_decide_unpack _); by vm_compute | ]).
    destruct Hv.
Qed.

(** The sort field sent to the store is always one of the physical fields
    of the kind, whatever the client asked for. *)
Theorem sort_field_allow_listed (sort albumId : string) :
  validateSortField sort albumId ∈ mediaSortFields
  /\ validateAlbumSortField sort ∈ albumSortFields.
Proof. split; [ apply validateSortField_in | apply validateAlbumSortField_in ]. Qed.

(** Album sort resolution is idempotent: a resolved field is itself an
    accepted sort key and resolves to itself. *)
Theorem album_sort_idempotent (sort : string) :
  validateAlbumSortField (validateAlbumSortField sort)
  = validateAlbumSortField sort.
Proof.
  pose proof (validateAlbumSortField_in sort) as Hin.
  apply list_elem_of_In in Hin. cbn in Hin.
  repeat (destruct Hin as [<- | Hin]; [ by vm_compute | ]).
  destruct Hin.
Qed.

(** *** Letter case of the sort key and of the order *)

Lemma lowerByte_idem (c : ascii) :
  Strings.lowerByte (Strings.lowerByte c) = Strings.lowerByte c.
Proof. destruct c as [[] [] [] [] [] [] [] []]; reflexivity. Qed.

Lemma lowerByte_ascii (c : ascii) :
  (Strings.code c <? 128) = true ->
  (Strings.code (Strings.lowerByte c) <? 128) = true.
Proof. destruct c as [[] [] [] [] [] [] [] []]; intros H; try done; reflexivity. Qed.

Lemma lowerASCII_idem (s : string) :
  Strings.lowerASCII (Strings.lowerASCII s) = Strings.lowerASCII s.
Proof. induction s as [|c s IH]; cbn; [ done | ]. by rewrite lowerByte_idem, IH. Qed.

Lemma isASCII_lowerASCII (s : string) :
  Strings.isASCII s = true -> Strings.isASCII (Strings.lowerASCII s) = true.
Proof.
  unfold Strings.isASCII. induction s as [|c s IH]; cbn; [ done | ].
  intros [Hc Hs]%andb_true_iff. by rewrite (lowerByte_ascii c Hc), IH.
Qed.

Lemma ToLower_lowerASCII (s : string) :
  Strings.isASCII s = true -> ToLower (Strings.lowerASCII s) = ToLower s.
Proof.
  intros Hs. unfold ToLower, Strings.ToLower.
  by rewrite (isASCII_lowerASCII s Hs), Hs, lowerASCII_idem.
Qed.

(** Listings depend on the sort key only through its lower-cased form. *)
Lemma listing_sort_ToLower (r : repository) (ctx : Context)
    (start end_ sort sort' order search starred a b c : string) :
  ToLower sort = ToLower sort' ->
  GetMediaFileItems r ctx start end_ sort order search starred a b c
  = GetMediaFileItems r ctx start end_ sort' order search starred a b c
  /\ GetAlbumItems r ctx start end_ sort order search starred a b c
     = GetAlbumItems r ctx start end_ sort' order search starred a b c.
Proof.
  intros Hs.
  assert (validateSortField sort a = validateSortField sort' a) as Hm
    by (unfold validateSortField; by rewrite Hs).
  assert (validateAlbumSortField sort = validateAlbumSortField sort') as Ha
    by (unfold validateAlbumSortField; by rewrite Hs).
  unfold GetMediaFileItems, GetAlbumItems. cbv zeta.
  by rewrite !GetMediaFileItems_pipeline_stages, !GetAlbumItems_pipeline_stages,
    Hm, Ha.
Qed.

(** The sort key is matched without regard to the case of its ASCII
    letters: a key of ASCII characters lists as its lower-cased form
    does. *)
Theorem sort_key_ignores_case (r : repository) (ctx : Context)
    (start end_ sort order search starred a b c : string) :
  Strings.isASCII sort = true ->
  validateSortField sort a = validateSortField (Strings.lowerASCII sort) a
  /\ validateAlbumSortField sort
     = validateAlbumSortField (Strings.lowerASCII sort)
  /\ GetMediaFileItems r ctx start end_ sort order search starred a b c
     = GetMediaFileItems r ctx start end_ (Strings.lowerASCII sort) order
         search starred a b c
  /\ GetAlbumItems r ctx start end_ sort order search starred a b c
     = GetAlbumItems r ctx start end_ (Strings.lowerASCII sort) order
         search starred a b c.
Proof.
  intros Hs. pose proof (ToLower_lowerASCII sort Hs) as Hl.
  split; [ unfold validateSortField; by rewrite Hl | ].
  split; [ unfold validateAlbumSortField; by rewrite Hl | ].
  by apply listing_sort_ToLower.
Qed.

(** The order is matched exactly: any order but ["desc"], ["DESC"]
    included, lists ascending. *)
Theorem order_is_case_sensitive (r : repository) (ctx : Context)
    (start end_ sort order search starred a b c : string) :
  order <> "desc" ->
  buildSortStage sort order = buildSortStage sort "asc"
  /\ GetMediaFileItems r ctx start end_ sort order search starred a b c
     = GetMediaFileItems r ctx start end_ sort "asc" search starred a b c
  /\ GetAlbumItems r ctx start end_ sort order search starred a b c
     = GetAlbumItems r ctx start end_ sort "asc" search starred a b c.
Proof.
  intros Hne.
  assert (forall v, buildSortStage v order = buildSortStage v "asc") as Hs.
  { intros v. unfold buildSortStage. cbv zeta.
    by destruct (String.eqb_spec order "desc"). }
  split; [ apply Hs | ].
  unfold GetMediaFileItems, GetAlbumItems. cbv zeta.
  rewrite !GetMediaFileItems_pipeline_stages, !GetAlbumItems_pipeline_stages.
  change buildAlbumSortStage with buildSortStage.
  by rewrite !Hs.
Qed.

(** *** The filter, parameter by parameter *)

(** The clause of each parameter of a track filter, once parsed. *)
Definition artistClause (artistId : string) : D :=
  if String.eqb artistId "" then []
  else [ ("$and", VArr [ VDoc [ ("$or", VArr
           [ VDoc [("artist_id", VStr artistId)];
             VDoc [("all_artist_ids.artist_id", VStr artistId)] ]) ] ]) ].

Definition albumClause (albumId : string) : D :=
  if String.eqb albumId "" then [] else [("album_id", VStr albumId)].

Definition yearClause (yearInt : option Z) : D :=
  match yearInt with
  | Some y => [("year", VInt y)]
  | None => []
  end.

Definition starredClause (isStarred : option bool) : D :=
  match isStarred with
  | Some b => [("starred", VBool b)]
  | None => []
  end.

(** The clauses of an album filter that differ from those of a track
    filter. *)
Definition albumArtistClause (artistId : string) : D :=
  if String.eqb artistId "" then []
  else [ ("$or", VArr
           [ VDoc [("artist_id", VStr artistId)];
             VDoc [("all_artist_ids.artist_id", VStr artistId)] ]) ].

Definition yearBounds (lo hi : option Z) : D :=
  match lo with Some y => [("$gte", VInt y)] | None => [] end
  ++ match hi with Some y => [("$lte", VInt y)] | None => [] end.

Definition yearWindowClause (lo hi : option Z) : D :=
  match yearBounds lo hi with
  | [] => []
  | bounds =>
      [ ("$or", VArr [ VDoc [("min_year", VDoc bounds)];
                       VDoc [("max_year", VDoc bounds)] ]) ]
  end.

Lemma Atoi_empty : Strconv.Atoi "" = None.
Proof. reflexivity. Qed.

Lemma ParseBool_empty : Strconv.ParseBool "" = None.
Proof. reflexivity. Qed.

(** [buildMatchStage] puts the five clauses one after the other; the
    guards against the empty string add nothing to the parsers, which
    reject it. *)
Lemma buildMatchStage_clauses (search starred albumId artistId year : string) :
  buildMatchStage search starred albumId artistId year
  = artistClause artistId ++ albumClause albumId
    ++ yearClause (Strconv.Atoi year)
    ++ buildMatchStage search "" "" "" ""
    ++ starredClause (Strconv.ParseBool starred).
Proof.
  rewrite buildMatchStage_search.
  assert (buildMatchStage "" "" albumId artistId year
          = artistClause artistId ++ albumClause albumId
            ++ yearClause (Strconv.Atoi year)) as ->.
  { unfold buildMatchStage, artistClause, albumClause, yearClause. cbv zeta.
    change (String.eqb "" "") with true. cbn [negb].
    destruct (String.eqb_spec year "") as [->|_];
      [ rewrite Atoi_empty | ];
      destruct (String.eqb artistId ""), (String.eqb albumId "");
      try destruct (Strconv.Atoi year); reflexivity. }
  assert (buildMatchStage "" starred "" "" ""
          = starredClause (Strconv.ParseBool starred)) as ->.
  { unfold buildMatchStage, starredClause. cbv zeta.
    change (String.eqb "" "") with true. cbn [negb].
    destruct (String.eqb_spec starred "") as [->|_];
      [ by rewrite ParseBool_empty | ].
    by destruct (Strconv.ParseBool starred). }
  by rewrite <- !app_assoc.
Qed.

Lemma buildAlbumMatch_clauses (search starred artistId minYear maxYear : string) :
  buildAlbumMatch search starred artistId minYear maxYear
  = albumArtistClause artistId
    ++ yearWindowClause (Strconv.Atoi minYear) (Strconv.Atoi maxYear)
    ++ buildAlbumMatch search "" "" "" ""
    ++ starredClause (Strconv.ParseBool starred).
Proof.
  rewrite buildAlbumMatch_search.
  assert (buildAlbumMatch "" "" artistId minYear maxYear
          = albumArtistClause artistId
            ++ yearWindowClause (Strconv.Atoi minYear) (Strconv.Atoi maxYear))
    as ->.
  { unfold buildAlbumMatch, albumArtistClause, yearWindowClause, yearBounds.
    cbv zeta. change (String.eqb "" "") with true. cbn [negb].
    destruct (String.eqb_spec minYear "") as [->|_],
      (String.eqb_spec maxYear "") as [->|_];
      rewrite ?Atoi_empty; cbn [negb orb];
      destruct (String.eqb artistId "");
      try destruct (Strconv.Atoi minYear); try destruct (Strconv.Atoi maxYear);
      reflexivity. }
  assert (buildAlbumMatch "" starred "" "" ""
          = starredClause (Strconv.ParseBool starred)) as ->.
  { unfold buildAlbumMatch, starredClause. cbv zeta.
    change (String.eqb "" "") with true. cbn [negb orb].
    destruct (String.eqb_spec starred "") as [->|_];
      [ by rewrite ParseBool_empty | ].
    by destruct (Strconv.ParseBool starred). }
  by rewrite <- !app_assoc.
Qed.

(** The filter depends on [starred] only through [strconv.ParseBool] and
    on the years only through [strconv.Atoi]: two spellings of the same
    value give the same filter, and a value that does not parse gives the
    filter of the absent parameter. *)
Theorem filter_depends_on_parsed_values
    (search starred starred' a b year year' minYear minYear' maxYear maxYear'
     : string) :
  Strconv.ParseBool starred = Strconv.ParseBool starred' ->
  (Strconv.Atoi year = Strconv.Atoi year' ->
   buildMatchStage search starred a b year
   = buildMatchStage search starred' a b year')
  /\ (Strconv.Atoi minYear = Strconv.Atoi minYear' ->
      Strconv.Atoi maxYear = Strconv.Atoi maxYear' ->
      buildAlbumMatch search starred a minYear maxYear
      = buildAlbumMatch search starred' a minYear' maxYear').
Proof.
  intros Hb. split.
  - intros Hy.
    by rewrite (buildMatchStage_clauses search starred a b year),
      (buildMatchStage_clauses search starred' a b year'), Hb, Hy.
  - intros Hlo Hhi.
    by rewrite (buildAlbumMatch_clauses search starred a minYear maxYear),
      (buildAlbumMatch_clauses search starred' a minYear' maxYear'),
      Hb, Hlo, Hhi.
Qed.

(** *** The artist clause *)

(** The entity is credited to the artist: as its primary artist, or as
    one of the artists listed under [all_artist_ids]. *)
Definition creditedTo (artistId : string) (d : D) : Prop :=
  get "artist_id" d = Some (VStr artistId)
  \/ exists l e,
       get "all_artist_ids" d = Some (VArr l)
       /\ VDoc e ∈ l /\ get "artist_id" e = Some (VStr artistId).

Definition stringOrAbsent (o : option value) : bool :=
  match o with
  | None | Some (VStr _) => true
  | Some _ => false
  end.

(** The artist fields have the shape the catalogue gives them: a string
    [artist_id], and under [all_artist_ids] an array of documents with a
    string [artist_id]; either may be absent. *)
Definition artistShaped (d : D) : bool :=
  stringOrAbsent (get "artist_id" d)
  && match get "all_artist_ids" d with
     | None => true
     | Some (VArr l) =>
         forallb (fun e => match e with
                           | VDoc x => stringOrAbsent (get "artist_id" x)
                           | _ => false
                           end) l
     | Some _ => false
     end.

Lemma eqb_VStr (s a : string) : Bson.eqb (VStr s) (VStr a) = String.eqb s a.
Proof. reflexivity. Qed.

Lemma primary_artist_match (a : string) (d : D) :
  stringOrAbsent (get "artist_id" d) = true ->
  Store.eqMatch (VStr a) (Store.candidates ["artist_id"] (VDoc d)) = true
  <-> get "artist_id" d = Some (VStr a).
Proof.
  cbn. destruct (get "artist_id" d) as [[| | |s| | |]|]; cbn; try done.
  intros _. rewrite orb_false_r. split.
  - by intros ->%String.eqb_eq.
  - intros [= ->]. apply String.eqb_refl.
Qed.

Lemma listed_artist_match (a : string) (l : list value) :
  forallb (fun e => match e with
                    | VDoc x => stringOrAbsent (get "artist_id" x)
                    | _ => false
                    end) l = true ->
  Store.eqMatch (VStr a)
    (flat_map
       (fun e => match e with
                 | VDoc x =>
                     match get "artist_id" x with
                     | Some y => Store.candidates [] y
                     | None => [None]
                     end
                 | _ => []
                 end) l) = true
  <-> exists e, VDoc e ∈ l /\ get "artist_id" e = Some (VStr a).
Proof.
  unfold Store.eqMatch. induction l as [|x l IH]; cbn [forallb flat_map].
  - intros _. split; [ done | ]. intros (e & He & _). by apply elem_of_nil in He.
  - intros [Hx Hl]%andb_true_iff. rewrite existsb_app, orb_true_iff, (IH Hl).
    destruct x as [| | | | | |e]; try done.
    destruct (get "artist_id" e) as [[| | |s| | |]|] eqn:He; try done; cbn.
    + rewrite orb_false_r. split.
      * intros [->%String.eqb_eq | (e' & He' & Ha)].
        -- exists e. split; [ by left | done ].
        -- exists e'. split; [ by right | done ].
      * intros (e' & [[= <-] | He']%elem_of_cons & Ha).
        -- left. rewrite He in Ha. injection Ha as ->. apply String.eqb_refl.
        -- right. by exists e'.
    + split.
      * intros [? | (e' & He' & Ha)]; [ done | ].
        exists e'. split; [ by right | done ].
      * intros (e' & [[= <-] | He']%elem_of_cons & Ha).
        -- by rewrite He in Ha.
        -- right. by exists e'.
Qed.

Lemma artist_clause_match (a : string) (d : D) :
  a <> "" -> artistShaped d = true ->
  (Store.evalFilter regexp [] (VDoc (artistClause a)) d = true <-> creditedTo a d)
  /\ Store.evalFilter regexp [] (VDoc (albumArtistClause a)) d
     = Store.evalFilter regexp [] (VDoc (artistClause a)) d.
Proof.
  intros Ha [Hp Hl]%andb_true_iff.
  unfold artistClause, albumArtistClause.
  destruct (String.eqb_spec a "") as [|_]; [ done | ].
  split; [ | cbn; by rewrite !andb_true_r ].
  change (Store.evalFilter regexp [] _ d)
    with (((Store.eqMatch (VStr a) (Store.candidates ["artist_id"] (VDoc d)) && true
            || (Store.eqMatch (VStr a)
                  (Store.candidates ["all_artist_ids"; "artist_id"] (VDoc d)) && true
                || false)) && true && true) && true).
  rewrite !andb_true_r, orb_false_r, orb_true_iff, (primary_artist_match a d Hp).
  unfold creditedTo. cbn [Store.candidates].
  destruct (get "all_artist_ids" d) as [[| | | | |l|]|]; try done.
  - rewrite (listed_artist_match a l Hl). split.
    + intros [? | (e & He & Hae)]; [ by left | right; by exists l, e ].
    + intros [? | (l' & e & [= <-] & He & Hae)]; [ by left | right; by exists e ].
  - cbn. split.
    + intros [? | ?]; [ by left | done ].
    + intros [? | (l' & e & ? & _)]; [ by left | done ].
Qed.

(** The artist clause of a track filter and that of an album filter,
    [{$and: [{$or: ...}]}] and [{$or: ...}], hold for the same entities:
    those credited to the artist, as primary artist or among
    [all_artist_ids].  The rest of the filter is the filter of the
    request without [artistId]. *)
Theorem artist_filter_credits (search starred a artistId c : string) (d : D) :
  artistId <> "" -> artistShaped d = true ->
  (Store.evalFilter regexp [] (VDoc (buildMatchStage search starred a artistId c)) d
   = true
   <-> creditedTo artistId d
       /\ Store.evalFilter regexp [] (VDoc (buildMatchStage search starred a "" c)) d
          = true)
  /\ (Store.evalFilter regexp [] (VDoc (buildAlbumMatch search starred artistId a c)) d
      = true
      <-> creditedTo artistId d
          /\ Store.evalFilter regexp [] (VDoc (buildAlbumMatch search starred "" a c)) d
             = true).
Proof.
  intros Ha Hshape.
  destruct (artist_clause_match artistId d Ha Hshape) as [Hm Heq].
  split.
  - rewrite (buildMatchStage_clauses search starred a artistId c),
      (buildMatchStage_clauses search starred a "" c).
    rewrite !evalFilter_app, !andb_true_iff, Hm.
    change (Store.evalFilter regexp [] (VDoc (artistClause "")) d) with true.
    split; [ intros (? & ? & ? & ? & ?) | intros (? & _ & ? & ? & ? & ?) ]; done.
  - rewrite (buildAlbumMatch_clauses search starred artistId a c),
      (buildAlbumMatch_clauses search starred "" a c).
    rewrite !evalFilter_app, !andb_true_iff, Heq, Hm.
    change (Store.evalFilter regexp [] (VDoc (albumArtistClause "")) d) with true.
    split; [ intros (? & ? & ? & ?) | intros (? & _ & ? & ? & ?) ]; done.
Qed.

(** *** The year window of an album filter *)

(** A year within the bounds that were given. *)
Definition inWindow (lo hi : option Z) (year : Z) : Prop :=
  match lo with Some y => y <= year | None => True end
  /\ match hi with Some y => year <= y | None => True end.

Lemma year_window_match (lo hi : option Z) (d : D) (m M : Z) :
  get "min_year" d = Some (VInt m) -> get "max_year" d = Some (VInt M) ->
  Store.evalFilter regexp [] (VDoc (yearWindowClause lo hi)) d = true
  <-> inWindow lo hi m \/ inWindow lo hi M.
Proof.
  intros Hm HM. unfold inWindow.
  destruct lo as [lo|], hi as [hi|]; cbn; rewrite ?Hm, ?HM; cbn;
    rewrite ?andb_true_r, ?orb_false_r, ?orb_true_iff, ?andb_true_iff,
      ?Z.leb_le.
  - reflexivity.
  - split; [ intros [? | ?]; [left | right]; by split
           | intros [[? _] | [? _]]; [by left | by right] ].
  - split; [ intros [? | ?]; [left | right]; by split
           | intros [[_ ?] | [_ ?]]; [by left | by right] ].
  - split; [ by left | done ].
Qed.

(** An album is in the year window when its first year is within the
    bounds given, or its last year is; the bounds are those of [minYear]
    and [maxYear] that parse.  An album whose years reach beyond both
    ends of the window is therefore left out. *)
Theorem album_year_window (search starred a minYear maxYear : string)
    (d : D) (m M : Z) :
  get "min_year" d = Some (VInt m) -> get "max_year" d = Some (VInt M) ->
  (Store.evalFilter regexp [] (VDoc (buildAlbumMatch search starred a minYear maxYear)) d
   = true
   <-> (inWindow (Strconv.Atoi minYear) (Strconv.Atoi maxYear) m
        \/ inWindow (Strconv.Atoi minYear) (Strconv.Atoi maxYear) M)
       /\ Store.evalFilter regexp [] (VDoc (buildAlbumMatch search starred a "" "")) d
          = true)
  /\ (forall lo hi,
        Strconv.Atoi minYear = Some lo -> Strconv.Atoi maxYear = Some hi ->
        m < lo -> hi < M ->
        Store.evalFilter regexp []
          (VDoc (buildAlbumMatch search starred a minYear maxYear)) d = false).
Proof.
  intros Hm HM.
  assert (Store.evalFilter regexp [] (VDoc (buildAlbumMatch search starred a minYear maxYear)) d
          = true
          <-> (inWindow (Strconv.Atoi minYear) (Strconv.Atoi maxYear) m
               \/ inWindow (Strconv.Atoi minYear) (Strconv.Atoi maxYear) M)
              /\ Store.evalFilter regexp [] (VDoc (buildAlbumMatch search starred a "" "")) d
                 = true) as Hiff.
  { rewrite (buildAlbumMatch_clauses search starred a minYear maxYear),
      (buildAlbumMatch_clauses search starred a "" "").
    rewrite !evalFilter_app, !andb_true_iff, (year_window_match _ _ d m M Hm HM).
    change (Store.evalFilter regexp [] (VDoc (yearWindowClause (Strconv.Atoi "") (Strconv.Atoi ""))) d)
      with true.
    split; [ intros (? & ? & ? & ?) | intros (? & ? & _ & ? & ?) ]; done. }
  split; [ exact Hiff | ].
  intros lo hi Hlo Hhi Hbelow Habove.
  apply not_true_is_false. intros [Hwin _]%Hiff.
  rewrite Hlo, Hhi in Hwin. unfold inWindow in Hwin. lia.
Qed.

(** *** The exact filters of a track *)

Lemma exact_clauses_match (albumId : string) (yearInt : option Z) (d : D)
    (album : string) (year : Z) :
  get "album_id" d = Some (VStr album) -> get "year" d = Some (VInt year) ->
  (Store.evalFilter regexp [] (VDoc (albumClause albumId)) d = true
   <-> albumId = "" \/ albumId = album)
  /\ (Store.evalFilter regexp [] (VDoc (yearClause yearInt)) d = true
      <-> yearInt = None \/ yearInt = Some year).
Proof.
  intros Ha Hy. unfold albumClause, yearClause. split.
  - destruct (String.eqb_spec albumId "") as [->|Hne]; [ by split; [ left | ] | ].
    cbn. rewrite Ha. cbn. rewrite orb_false_r, andb_true_r, String.eqb_eq.
    split; [ by right | by intros [? | ?] ].
  - destruct yearInt as [y|]; [ | by split; [ left | ] ].
    cbn. rewrite Hy. cbn. rewrite orb_false_r, andb_true_r, Z.eqb_eq.
    split; [ intros ->; by right | by intros [? | [= ->]] ].
Qed.

(** On a track with a string [album_id] and an integer [year], the
    [albumId] parameter asks for that very album and the [year] parameter
    for that very number (["07"] asks for the year 7); an empty [albumId]
    and a [year] that does not parse ask for nothing. *)
Theorem track_exact_filters (search starred albumId b yearStr : string)
    (d : D) (album : string) (year : Z) :
  get "album_id" d = Some (VStr album) -> get "year" d = Some (VInt year) ->
  Store.evalFilter regexp [] (VDoc (buildMatchStage search starred albumId b yearStr)) d
  = true
  <-> (albumId = "" \/ albumId = album)
      /\ (Strconv.Atoi yearStr = None \/ Strconv.Atoi yearStr = Some year)
      /\ Store.evalFilter regexp [] (VDoc (buildMatchStage search starred "" b "")) d
         = true.
Proof.
  intros Ha Hy.
  destruct (exact_clauses_match albumId (Strconv.Atoi yearStr) d album year Ha Hy)
    as [Halbum Hyear].
  rewrite (buildMatchStage_clauses search starred albumId b yearStr),
    (buildMatchStage_clauses search starred "" b "").
  rewrite !evalFilter_app, !andb_true_iff, Halbum, Hyear.
  change (Store.evalFilter regexp [] (VDoc (albumClause "")) d) with true.
  change (Store.evalFilter regexp [] (VDoc (yearClause (Strconv.Atoi ""))) d) with true.
  split.
  - intros (? & ? & ? & ? & ?). done.
  - intros (? & ? & ? & _ & _ & ? & ?). done.
Qed.

(** *** The starred filter *)

Lemma starred_clause_flag (flag : bool) (d : D) (m : Metadata) :
  Store.evalFilter regexp [] (VDoc (starredClause (Some flag))) d = true ->
  decodeMetadata d = Some m ->
  Starred m = flag /\ get "starred" (Document m) = Some (VBool flag).
Proof.
  unfold decodeMetadata. cbn.
  destruct (decodeInt (get "play_count" d)); [ | by intros _ ].
  destruct (decodeDate (get "play_date" d)); [ | by intros _ ].
  destruct (decodeInt (get "rating" d)); [ | by intros _ ].
  destruct (get "starred" d) as [[| | | | | |]|] eqn:Hs; cbn; try done.
  destruct (decodeDate (get "starred_at" d)); [ | by intros _ ].
  rewrite !orb_false_r, andb_true_r. intros Hb [= <-]. cbn.
  apply Bool.eqb_prop in Hb. by rewrite Hs, Hb.
Qed.

Lemma starred_last_clause (f : D) (flag : bool) (d : D) :
  Store.evalFilter regexp [] (VDoc (f ++ starredClause (Some flag))) d = true ->
  Store.evalFilter regexp [] (VDoc (starredClause (Some flag))) d = true.
Proof. rewrite evalFilter_app, andb_true_iff. by intros [_ ?]. Qed.

Lemma baseFilterStage_snoc (f : D) (e : E) :
  baseFilterStage (f ++ [e]) = [ [("$match", VDoc (f ++ [e]))] ].
Proof. by destruct f. Qed.

Lemma selects_media_filtered_tail (v order start end_ : string) :
  forallb selects
    (mediaSecondaryFilter v ++ [ buildSortStage v order ]
     ++ default [] (buildMediaPaginationStage start end_)) = true.
Proof.
  rewrite forallb_app, selects_media_tail, andb_true_r.
  unfold mediaSecondaryFilter. by destruct (String.eqb v "play_date").
Qed.

(** With a [starred] parameter that parses to [flag], every record of a
    listing carries an annotation whose [starred] field is [flag]; so a
    listing with [starred=false] leaves out the entities that have no
    annotation, although they decode as not starred. *)
Theorem starred_filter_lists_flagged (r : repository) (ctx : Context)
    (start end_ sort order search starred a b c : string) (flag : bool)
    (items : list Metadata) :
  Strconv.ParseBool starred = Some flag ->
  GetMediaFileItems r ctx start end_ sort order search starred a b c = Ok items
  \/ GetAlbumItems r ctx start end_ sort order search starred a b c = Ok items ->
  forall m, m ∈ items ->
    Starred m = flag /\ get "starred" (Document m) = Some (VBool flag).
Proof.
  intros Hflag [Hitems | Hitems] m Hm.
  - change (GetMediaFileItems r ctx start end_ sort order search starred a b c)
      with (listItems r ctx
              (GetMediaFileItems_pipeline start end_ sort order search
                 starred a b c)) in Hitems.
    rewrite GetMediaFileItems_pipeline_stages,
      (buildMatchStage_clauses search starred a b c), Hflag in Hitems.
    cbn [starredClause] in Hitems.
    rewrite !(app_assoc _ _ [_]), baseFilterStage_snoc, <- !(app_assoc _ _ [_]),
      (app_assoc (annotationJoin _ _)) in Hitems.
    destruct (listItems_from r ctx _ _
                (fun d => Store.evalFilter regexp [] _ d = true) items
                (fun docs out => runPipeline_last_match _ _ _ docs out)
                (selects_media_filtered_tail _ _ _ _) Hitems m Hm)
      as (d & Hd & Hdm).
    apply (starred_clause_flag flag d m); [ | done ].
    rewrite !app_assoc in Hd. by apply starred_last_clause in Hd.
  - change (GetAlbumItems r ctx start end_ sort order search starred a b c)
      with (listItems r ctx
              (GetAlbumItems_pipeline start end_ sort order search
                 starred a b c)) in Hitems.
    rewrite GetAlbumItems_pipeline_stages,
      (buildAlbumMatch_clauses search starred a b c), Hflag in Hitems.
    cbn [starredClause] in Hitems.
    rewrite !(app_assoc _ _ [_]), baseFilterStage_snoc, <- !(app_assoc _ _ [_]),
      (app_assoc (albumSecondaryFilter _)),
      (app_assoc (annotationJoin _ _)), (app_assoc _ _ [_]) in Hitems.
    destruct (listItems_from r ctx _ _
                (fun d => Store.evalFilter regexp [] _ d = true) items
                (fun docs out => runPipeline_last_match _ _ _ docs out)
                (selects_album_tail [] _ _ _ _) Hitems m Hm)
      as (d & Hd & Hdm).
    apply (starred_clause_flag flag d m); [ | done ].
    rewrite !app_assoc in Hd. by apply starred_last_clause in Hd.
Qed.

(** *** Pages of a listing *)

Lemma run_page (colls : gmap string (list D)) (skip limit : Z) (docs : list D) :
  0 <= skip -> 0 < limit ->
  Store.runPipeline regexp colls (default [] (pageStages (Some (skip, limit)))) docs
  = Some (take (Z.to_nat limit) (drop (Z.to_nat skip) docs)).
Proof.
  intros Hs Hl. cbn [pageStages default from_option id].
  destruct (Z.eqb_spec skip 0) as [-> | Hne].
  - cbn [app Store.runPipeline]. rewrite run_limit by lia. by rewrite drop_0.
  - cbn [app Store.runPipeline]. rewrite run_skip, run_limit by lia. done.
Qed.

Lemma Paginator_resolve_bounds (start end_ : string) (s e : Z) :
  Strconv.Atoi start = Some s -> Strconv.Atoi end_ = Some e -> 0 <= s < e ->
  Paginator_resolve start end_ = Some (s, e - s).
Proof.
  intros Hs He Hb. unfold Paginator_resolve. rewrite Hs, He.
  by destruct (Z.leb_spec 0 s), (Z.ltb_spec s e); try lia.
Qed.

Lemma mapM_slice {X Y : Type} (f : X -> option Y) (l : list X) (k : list Y)
    (skip n : nat) :
  mapM f l = Some k ->
  mapM f (take n (drop skip l)) = Some (take n (drop skip k)).
Proof. rewrite !mapM_Some. intros H. by apply Forall2_take, Forall2_drop. Qed.

(** A page of a pipeline is a slice of its whole result. *)
Lemma listItems_slice (r : repository) (ctx : Context) (pipeline : list D)
    (skip limit : Z) (all : list Metadata) :
  0 <= skip -> 0 < limit ->
  listItems r ctx pipeline = Ok all ->
  listItems r ctx (pipeline ++ default [] (pageStages (Some (skip, limit))))
  = Ok (take (Z.to_nat limit) (drop (Z.to_nat skip) all)).
Proof.
  intros Hs Hl. unfold listItems, Aggregate.
  destruct (expired _ _); [ done | ].
  rewrite runPipeline_app.
  destruct (Store.runPipeline regexp _ pipeline _) as [docs|]; [ | done ].
  rewrite run_page by done.
  destruct (mapM decodeMetadata docs) as [results|] eqn:Hdec; [ | done ].
  intros [= <-]. by rewrite (mapM_slice _ _ _ _ _ Hdec).
Qed.

(** Two pages that meet make up the page of both. *)
Lemma listItems_tile (r : repository) (ctx : Context) (pipeline : list D)
    (x y z : Z) (first second : list Metadata) :
  0 <= x < y -> y < z ->
  listItems r ctx (pipeline ++ default [] (pageStages (Some (x, y - x))))
  = Ok first ->
  listItems r ctx (pipeline ++ default [] (pageStages (Some (y, z - y))))
  = Ok second ->
  listItems r ctx (pipeline ++ default [] (pageStages (Some (x, z - x))))
  = Ok (first ++ second).
Proof.
  intros Hxy Hyz. unfold listItems, Aggregate.
  destruct (expired _ _); [ done | ].
  rewrite !runPipeline_app.
  destruct (Store.runPipeline regexp _ pipeline _) as [docs|]; [ | done ].
  rewrite !run_page by lia.
  replace (Z.to_nat (z - x)) with (Z.to_nat (y - x) + Z.to_nat (z - y))%nat by lia.
  replace (Z.to_nat y) with (Z.to_nat x + Z.to_nat (y - x))%nat by lia.
  rewrite <- take_take_drop, drop_drop.
  destruct (mapM decodeMetadata (take _ (drop (Z.to_nat x) docs)))
    as [l1|] eqn:H1; [ | done ].
  destruct (mapM decodeMetadata (take _ (drop (_ + _) docs)))
    as [l2|] eqn:H2; [ | done ].
  intros [= <-] [= <-].
  assert (mapM decodeMetadata
            (take (Z.to_nat (y - x)) (drop (Z.to_nat x) docs)
             ++ take (Z.to_nat (z - y))
                  (drop (Z.to_nat x + Z.to_nat (y - x)) docs))
          = Some (l1 ++ l2)) as ->; [ | done ].
  apply mapM_Some. apply Forall2_app; by apply mapM_Some.
Qed.

(** A page is a slice of the listing without bounds: the records from
    position [start] up to, and not including, position [end], in the
    order of the whole listing. *)
Theorem page_is_slice (r : repository) (ctx : Context)
    (start end_ sort order search starred a b c : string) (s e : Z)
    (all : list Metadata) :
  Strconv.Atoi start = Some s -> Strconv.Atoi end_ = Some e -> 0 <= s < e ->
  (GetMediaFileItems r ctx "" "" sort order search starred a b c = Ok all ->
   GetMediaFileItems r ctx start end_ sort order search starred a b c
   = Ok (take (Z.to_nat (e - s)) (drop (Z.to_nat s) all)))
  /\ (GetAlbumItems r ctx "" "" sort order search starred a b c = Ok all ->
      GetAlbumItems r ctx start end_ sort order search starred a b c
      = Ok (take (Z.to_nat (e - s)) (drop (Z.to_nat s) all))).
Proof.
  intros Hs He Hb.
  pose proof (Paginator_resolve_bounds start end_ s e Hs He Hb) as Hpage.
  split; intros Hall.
  - change (GetMediaFileItems r ctx start end_ sort order search starred a b c)
      with (listItems r ctx
              (GetMediaFileItems_pipeline start end_ sort order search
                 starred a b c)).
    rewrite GetMediaFileItems_pipeline_page, Hpage.
    apply listItems_slice; [ lia | lia | exact Hall ].
  - change (GetAlbumItems r ctx start end_ sort order search starred a b c)
      with (listItems r ctx
              (GetAlbumItems_pipeline start end_ sort order search
                 starred a b c)).
    rewrite GetAlbumItems_pipeline_page, Hpage.
    apply listItems_slice; [ lia | lia | exact Hall ].
Qed.

(** Consecutive pages tile the listing: the page [start..mid) followed
    by the page [mid..end) is the page [start..end), with no record
    twice and none left out between them. *)
Theorem consecutive_pages_tile (r : repository) (ctx : Context)
    (start mid end_ sort order search starred a b c : string) (x y z : Z)
    (first second : list Metadata) :
  Strconv.Atoi start = Some x -> Strconv.Atoi mid = Some y ->
  Strconv.Atoi end_ = Some z -> 0 <= x < y -> y < z ->
  (GetMediaFileItems r ctx start mid sort order search starred a b c = Ok first ->
   GetMediaFileItems r ctx mid end_ sort order search starred a b c = Ok second ->
   GetMediaFileItems r ctx start end_ sort order search starred a b c
   = Ok (first ++ second))
  /\ (GetAlbumItems r ctx start mid sort order search starred a b c = Ok first ->
      GetAlbumItems r ctx mid end_ sort order search starred a b c = Ok second ->
      GetAlbumItems r ctx start end_ sort order search starred a b c
      = Ok (first ++ second)).
Proof.
  intros Hx Hy Hz Hxy Hyz.
  pose proof (Paginator_resolve_bounds start mid x y Hx Hy Hxy) as H1.
  pose proof (Paginator_resolve_bounds mid end_ y z Hy Hz
                (conj (Z.le_trans _ _ _ (proj1 Hxy) (Z.lt_le_incl _ _ (proj2 Hxy)))
                      Hyz)) as H2.
  pose proof (Paginator_resolve_bounds start end_ x z Hx Hz
                (conj (proj1 Hxy) (Z.lt_trans _ _ _ (proj2 Hxy) Hyz))) as H3.
  split.
  - change (GetMediaFileItems r ctx ?s ?e sort order search starred a b c)
      with (listItems r ctx
              (GetMediaFileItems_pipeline s e sort order search starred a b c)).
    rewrite (GetMediaFileItems_pipeline_page start mid),
      (GetMediaFileItems_pipeline_page mid end_),
      (GetMediaFileItems_pipeline_page start end_), H1, H2, H3.
    by apply listItems_tile.
  - change (GetAlbumItems r ctx ?s ?e sort order search starred a b c)
      with (listItems r ctx
              (GetAlbumItems_pipeline s e sort order search starred a b c)).
    rewrite (GetAlbumItems_pipeline_page start mid),
      (GetAlbumItems_pipeline_page mid end_),
      (GetAlbumItems_pipeline_page start end_), H1, H2, H3.
    by apply listItems_tile.
Qed.

(** *** The records of a listing and the entities of the collection *)

(** The stages after the join drop and reorder rows; they neither add
    nor repeat one. *)
Lemma runStage_submseteq (colls : gmap string (list D)) (stage : D)
    (docs out : list D) :
  selects stage = true -> Store.runStage regexp colls stage docs = Some out ->
  out ⊆+ docs.
Proof.
  destruct stage as [|[op arg] [|]]; try done. cbn [selects existsb].
  destruct (String.eqb_spec op "$match") as [->|_].
  { intros _. rewrite run_match. destruct (Store.validFilter regexp arg); [ | done ].
    intros [= <-]. apply sublist_submseteq, sublist_filter. }
  destruct (String.eqb_spec op "$sort") as [->|_].
  { intros _. cbn. destruct arg as [| | | | | |[|k spec]]; try done.
    match goal with
    | |- match ?x with _ => _ end = _ -> _ => destruct x as [keys|]; [ | done ]
    end.
    intros [= <-]. apply Permutation_submseteq. symmetry. apply sortDocs_perm. }
  destruct (String.eqb_spec op "$skip") as [->|_].
  { intros _. cbn. destruct arg as [| |n| | | |]; try done.
    destruct (0 <=? n); [ | done ].
    intros [= <-]. apply submseteq_drop. }
  destruct (String.eqb_spec op "$limit") as [->|_]; [ | done ].
  intros _. cbn. destruct arg as [| |n| | | |]; try done.
  destruct (0 <? n); [ | done ].
  intros [= <-]. apply submseteq_take.
Qed.

Lemma runPipeline_submseteq (colls : gmap string (list D)) (p : list D)
    (docs out : list D) :
  forallb selects p = true -> Store.runPipeline regexp colls p docs = Some out ->
  out ⊆+ docs.
Proof.
  revert docs. induction p as [|stage p IH]; intros docs Hp Hrun.
  - cbn in Hrun. by injection Hrun as ->.
  - cbn in Hp, Hrun. apply andb_true_iff in Hp as [Hs Hp].
    destruct (Store.runStage regexp colls stage docs) as [docs'|] eqn:Hstage; [ | done ].
    etrans; [ by apply (IH docs') | by apply (runStage_submseteq colls stage) ].
Qed.

Lemma decodeMetadata_Document (d : D) (m : Metadata) :
  decodeMetadata d = Some m -> Document m = d.
Proof.
  unfold decodeMetadata.
  destruct (decodeInt (get "play_count" d)); [ | done ].
  destruct (decodeDate (get "play_date" d)); [ | done ].
  destruct (decodeInt (get "rating" d)); [ | done ].
  destruct (decodeBool (get "starred" d)); [ | done ].
  destruct (decodeDate (get "starred_at" d)); [ | done ].
  by intros [= <-].
Qed.

Lemma decoded_documents (out : list D) (items : list Metadata) :
  mapM decodeMetadata out = Some items -> map Document items = out.
Proof.
  intros Hdec%mapM_Some_1.
  induction Hdec as [|d m out items Hd _ IH]; [ done | ].
  cbn. by rewrite (decodeMetadata_Document d m Hd), IH.
Qed.

(** The documents of the records of a listing are joined rows of the
    entities of the collection, each at most as often as the join has
    it. *)
Lemma listItems_rows (r : repository) (ctx : Context) (var tag : string)
    (rest : list D) (items : list Metadata) :
  Store.stripDollar tag = None ->
  forallb selects rest = true ->
  listItems r ctx (annotationJoin var tag ++ rest) = Ok items ->
  map Document items
  ⊆+ flat_map
       (joinEntity tag
          (Store.collectionOf (Collections (db r))
             CollectionFileEntityAudioSceneAnnotation))
       (Store.collectionOf (Collections (db r)) (collection r)).
Proof.
  intros Htag Hrest. unfold listItems, Aggregate.
  destruct (expired _ _); [ done | ].
  rewrite runPipeline_app, run_annotationJoin by done.
  destruct (Store.runPipeline regexp _ rest _) as [out|] eqn:Hout; [ | done ].
  destruct (mapM decodeMetadata out) as [results|] eqn:Hdec; [ | done ].
  intros [= <-]. rewrite (decoded_documents _ _ Hdec).
  by apply (runPipeline_submseteq _ rest _ _ Hrest Hout).
Qed.

Lemma selects_media_rest (f : D) (v order start end_ : string) :
  forallb selects
    (baseFilterStage f ++ mediaSecondaryFilter v ++ [ buildSortStage v order ]
     ++ default [] (buildMediaPaginationStage start end_)) = true.
Proof.
  by rewrite forallb_app, selects_baseFilterStage, selects_media_filtered_tail.
Qed.

Lemma selects_album_rest (f : D) (v order start end_ : string) :
  forallb selects
    (albumSecondaryFilter v ++ baseFilterStage f
     ++ [ buildAlbumSortStage v order ]
     ++ default [] (buildAlbumPaginationStage start end_)) = true.
Proof.
  rewrite forallb_app, selects_album_tail, andb_true_r.
  unfold albumSecondaryFilter. by destruct (_ || _).
Qed.

(** The rows of either listing, as [listItems_rows] has them. *)
Lemma listing_rows (r : repository) (ctx : Context)
    (start end_ sort order search starred a b c : string)
    (items : list Metadata) :
  let rows tag :=
    flat_map
      (joinEntity tag
         (Store.collectionOf (Collections (db r))
            CollectionFileEntityAudioSceneAnnotation))
      (Store.collectionOf (Collections (db r)) (collection r)) in
  (GetMediaFileItems r ctx start end_ sort order search starred a b c = Ok items ->
   map Document items ⊆+ rows "media")
  /\ (GetAlbumItems r ctx start end_ sort order search starred a b c = Ok items ->
      map Document items ⊆+ rows "album").
Proof.
  intros rows. split.
  - change (GetMediaFileItems r ctx start end_ sort order search starred a b c)
      with (listItems r ctx
              (GetMediaFileItems_pipeline start end_ sort order search
                 starred a b c)).
    rewrite GetMediaFileItems_pipeline_stages.
    apply listItems_rows; [ done | apply selects_media_rest ].
  - change (GetAlbumItems r ctx start end_ sort order search starred a b c)
      with (listItems r ctx
              (GetAlbumItems_pipeline start end_ sort order search
                 starred a b c)).
    rewrite GetAlbumItems_pipeline_stages.
    apply listItems_rows; [ done | apply selects_album_rest ].
Qed.

(** The fields that the join writes. *)
Definition joinFields : list string :=
  "annotations" :: map fst annotationFields.

Lemma joinEntity_field (tag : string) (annots : list D) (e row : D)
    (k : string) :
  k ∉ joinFields -> row ∈ joinEntity tag annots e -> get k row = get k e.
Proof.
  unfold joinFields. intros [Hk Hks]%not_elem_of_cons.
  unfold joinEntity. rewrite unwind_annotations. intros Hr.
  apply list_elem_of_fmap in Hr as (d & -> & Hd).
  rewrite get_addFields_other by done.
  destruct (annotationsOf tag annots e) as [|x l].
  - apply list_elem_of_singleton in Hd as ->. by apply get_remove_ne.
  - apply list_elem_of_fmap in Hd as (y & -> & _).
    by rewrite !get_set_ne.
Qed.

(** Every record of a listing is an entity of the repository's
    collection: outside the six fields the join writes ([annotations]
    and the five flattened annotation fields) its document has the
    fields of that entity, the ID among them, unchanged. *)
Theorem listed_records_are_entities (r : repository) (ctx : Context)
    (start end_ sort order search starred a b c : string)
    (items : list Metadata) :
  GetMediaFileItems r ctx start end_ sort order search starred a b c = Ok items
  \/ GetAlbumItems r ctx start end_ sort order search starred a b c = Ok items ->
  forall m, m ∈ items ->
    exists e, e ∈ Store.collectionOf (Collections (db r)) (collection r)
              /\ forall k, k ∉ joinFields -> get k (Document m) = get k e.
Proof.
  intros Hitems m Hm.
  destruct (listing_rows r ctx start end_ sort order search starred a b c items)
    as [Hmedia Halbum].
  assert (exists tag,
            Document m
            ∈ flat_map
                (joinEntity tag
                   (Store.collectionOf (Collections (db r))
                      CollectionFileEntityAudioSceneAnnotation))
                (Store.collectionOf (Collections (db r)) (collection r)))
    as [tag Hrow].
  { assert (Document m ∈ map Document items) as Hdoc
      by (apply list_elem_of_fmap; by exists m).
    destruct Hitems as [Hitems | Hitems]; [ exists "media" | exists "album" ].
    - exact (elem_of_submseteq _ _ _ Hdoc (Hmedia Hitems)).
    - exact (elem_of_submseteq _ _ _ Hdoc (Halbum Hitems)). }
  apply list_elem_of_In, in_flat_map in Hrow as (e & He & Hrow).
  exists e. split; [ by apply list_elem_of_In | ].
  intros k Hk. apply list_elem_of_In in Hrow.
  exact (joinEntity_field tag _ e _ k Hk Hrow).
Qed.

Lemma submseteq_NoDup {X : Type} (l k : list X) : l ⊆+ k -> NoDup k -> NoDup l.
Proof.
  intros [k' Hk]%submseteq_Permutation. rewrite Hk.
  by intros [? _]%NoDup_app.
Qed.

(** Over a catalogue with unique entity IDs and one annotation per
    entity, a listing returns no entity twice, on any page and under
    any sort. *)
Theorem listing_ids_distinct (r : repository) (ctx : Context)
    (start end_ sort order search starred a b c : string)
    (items : list Metadata) :
  let docs := Store.collectionOf (Collections (db r)) (collection r) in
  let annots :=
    Store.collectionOf (Collections (db r))
      CollectionFileEntityAudioSceneAnnotation in
  uniqueIds docs ->
  (oneAnnotation "media" annots docs ->
   GetMediaFileItems r ctx start end_ sort order search starred a b c = Ok items ->
   uniqueIds (map Document items))
  /\ (oneAnnotation "album" annots docs ->
      GetAlbumItems r ctx start end_ sort order search starred a b c = Ok items ->
      uniqueIds (map Document items)).
Proof.
  intros docs annots Huniq.
  destruct (listing_rows r ctx start end_ sort order search starred a b c items)
    as [Hmedia Halbum].
  unfold uniqueIds in *.
  split; intros Hone Hitems.
  - apply (submseteq_NoDup _ (map (keyCode "_id") docs)); [ | done ].
    rewrite <- (joined_ids "media" annots docs Hone).
    apply fmap_submseteq. by apply Hmedia.
  - apply (submseteq_NoDup _ (map (keyCode "_id") docs)); [ | done ].
    rewrite <- (joined_ids "album" annots docs Hone).
    apply fmap_submseteq. by apply Halbum.
Qed.

(** *** The sort stage *)

Lemma run_sortStage (colls : gmap string (list D)) (v order : string)
    (docs : list D) :
  Store.runStage regexp colls (buildSortStage v order) docs
  = Some (Store.sortDocs (stageKeys v order) docs).
Proof.
  unfold buildSortStage, stageKeys, sortDirection.
  by destruct (String.eqb order "desc").
Qed.

(** *** The starred parameter of the album counts *)

Lemma starred_clause_unflattened (tag : string) (annots : list D) (e : D)
    (flag : bool) :
  get "starred" e = None ->
  Store.evalFilter regexp [] (VDoc (starredClause (Some flag)))
    (withAnnotations tag annots e) = false.
Proof.
  intros He. unfold withAnnotations. cbn.
  rewrite get_set_ne by done. by rewrite He.
Qed.

(** The album counts take the [starred] clause of the listing as it is,
    but their pipeline does not flatten the annotation: the clause looks
    for a field [starred] of the album itself.  Over albums that have no
    such field, a [starred] parameter that parses, [false] included,
    leaves no row, and all three counts are 0. *)
Theorem album_counts_starred_empty (r : repository) (ctx : Context)
    (search starred a b c : string) (flag : bool) (counts : FilterCounts) :
  Strconv.ParseBool starred = Some flag ->
  (forall e, e ∈ Store.collectionOf (Collections (db r)) (collection r) ->
             get "starred" e = None) ->
  GetAlbumFilterItemsCount r ctx search starred a b c = Ok counts ->
  counts = {| Total := 0; StarredCount := 0; RecentPlay := 0 |}.
Proof.
  intros Hflag Hnone.
  rewrite GetAlbumFilterItemsCount_countItems.
  intros ->%countItems_rows; [ | done ].
  assert (countRows r "album" (buildAlbumBaseMatch search starred a b c) = [])
    as ->; [ | done ].
  unfold countRows, buildAlbumBaseMatch.
  rewrite (buildAlbumMatch_clauses search starred a b c), Hflag.
  induction (Store.collectionOf (Collections (db r)) (collection r))
    as [|e docs IH]; [ done | ].
  cbn [map]. rewrite filter_cons_False.
  - apply IH. intros e' He'. apply Hnone. by right.
  - rewrite !evalFilter_app, starred_clause_unflattened, !andb_false_r;
      [ done | apply Hnone; by left ].
Qed.

(** *** The order of the records *)

Lemma StronglySorted_slice {X : Type} (R : X -> X -> Prop) (l : list X)
    (skip n : nat) :
  StronglySorted R l -> StronglySorted R (take n (drop skip l)).
Proof.
  intros Hl. rewrite <- (take_drop skip l) in Hl.
  apply StronglySorted_app_1_r in Hl.
  rewrite <- (take_drop n (drop skip l)) in Hl.
  by apply StronglySorted_app_1_l in Hl.
Qed.

Lemma listItems_sorted (r : repository) (ctx : Context) (pre : list D)
    (v order start end_ : string) (items : list Metadata) :
  listItems r ctx
    (pre ++ [ buildSortStage v order ]
     ++ default [] (pageStages (Paginator_resolve start end_))) = Ok items ->
  StronglySorted (docOrder (stageKeys v order)) (map Document items).
Proof.
  unfold listItems, Aggregate.
  destruct (expired _ _); [ done | ].
  rewrite runPipeline_app.
  destruct (Store.runPipeline regexp _ pre _) as [rows|]; [ | done ].
  rewrite runPipeline_app. cbn [Store.runPipeline]. rewrite run_sortStage.
  pose proof (sorting.Sorted_StronglySorted (docOrder (stageKeys v order)) _
                (sortDocs_sorted (stageKeys v order) rows)) as Hsorted.
  destruct (Paginator_resolve start end_) as [[skip limit]|] eqn:Hpage.
  - rewrite (run_pageStages _ _ _ _ _ _ Hpage).
    destruct (mapM decodeMetadata _) as [results|] eqn:Hdec; [ | done ].
    intros [= <-]. rewrite (decoded_documents _ _ Hdec).
    by apply StronglySorted_slice.
  - cbn [pageStages default from_option id Store.runPipeline].
    destruct (mapM decodeMetadata _) as [results|] eqn:Hdec; [ | done ].
    intros [= <-]. by rewrite (decoded_documents _ _ Hdec).
Qed.

(** The records of a listing, on any page, come in the order of the sort
    stage: each record is at or before every later one by the resolved
    sort field in the direction asked, and then by the entity ID
    ascending. *)
Theorem listing_in_sort_order (r : repository) (ctx : Context)
    (start end_ sort order search starred a b c : string)
    (items : list Metadata) :
  (GetMediaFileItems r ctx start end_ sort order search starred a b c = Ok items ->
   StronglySorted (docOrder (stageKeys (validateSortField sort a) order))
     (map Document items))
  /\ (GetAlbumItems r ctx start end_ sort order search starred a b c = Ok items ->
      StronglySorted (docOrder (stageKeys (validateAlbumSortField sort) order))
        (map Document items)).
Proof.
  split.
  - change (GetMediaFileItems r ctx start end_ sort order search starred a b c)
      with (listItems r ctx
              (GetMediaFileItems_pipeline start end_ sort order search
                 starred a b c)).
    rewrite GetMediaFileItems_pipeline_stages, buildMediaPaginationStage_resolve.
    rewrite (app_assoc (baseFilterStage _)), (app_assoc (annotationJoin _ _)).
    apply listItems_sorted.
  - change (GetAlbumItems r ctx start end_ sort order search starred a b c)
      with (listItems r ctx
              (GetAlbumItems_pipeline start end_ sort order search
                 starred a b c)).
    rewrite GetAlbumItems_pipeline_stages, buildAlbumPaginationStage_media,
      buildMediaPaginationStage_resolve.
    rewrite (app_assoc (albumSecondaryFilter _)), (app_assoc (annotationJoin _ _)).
    change (buildAlbumSortStage ?v ?o) with (buildSortStage v o).
    apply listItems_sorted.
Qed.

(** *** The counts and the listing *)

(** Two documents with the same fields outside those the join writes. *)
Definition sameEntityFields (d d' : D) : Prop :=
  forall k, k ∉ joinFields -> get k d = get k d'.

Lemma splitPath_nonempty (s : string) : Store.splitPath s <> [].
Proof.
  destruct s as [|c s]; [ done | ]. cbn.
  destruct (Ascii.eqb c "."); [ done | ].
  by destruct (Store.splitPath s).
Qed.

Lemma evalFilter_field (vars : D) (k : string) (v : value) (d : D) :
  existsb (String.eqb k) ["$and"; "$or"; "$expr"] = false ->
  Store.evalFilter regexp vars (VDoc [(k, v)]) d = Store.evalField regexp k v d.
Proof.
  cbn [existsb]. rewrite orb_false_r.
  intros [Hand [Hor Hexpr]%orb_false_iff]%orb_false_iff.
  cbn. by rewrite Hand, Hor, Hexpr, andb_true_r.
Qed.

Lemma evalField_same (k : string) (v : value) (d d' : D) :
  get (hd "" (Store.splitPath k)) d = get (hd "" (Store.splitPath k)) d' ->
  Store.evalField regexp k v d = Store.evalField regexp k v d'.
Proof.
  unfold Store.evalField. pose proof (splitPath_nonempty k) as Hne.
  destruct (Store.splitPath k) as [|seg rest]; [ done | ].
  cbn [hd Store.candidates]. by intros ->.
Qed.

Lemma field_clause_same (k : string) (v : value) (d d' : D) :
  existsb (String.eqb k) ["$and"; "$or"; "$expr"] = false ->
  hd "" (Store.splitPath k) ∉ joinFields ->
  sameEntityFields d d' ->
  Store.evalFilter regexp [] (VDoc [(k, v)]) d = Store.evalFilter regexp [] (VDoc [(k, v)]) d'.
Proof.
  intros Hk Hseg Hsame. rewrite !evalFilter_field by done.
  apply evalField_same. by apply Hsame.
Qed.

Lemma evalFilter_and1 (vars : D) (f : value) (d : D) :
  Store.evalFilter regexp vars (VDoc [("$and", VArr [f])]) d = Store.evalFilter regexp vars f d.
Proof. cbn. by rewrite !andb_true_r. Qed.

Lemma evalFilter_or2 (vars : D) (f g : value) (d : D) :
  Store.evalFilter regexp vars (VDoc [("$or", VArr [f; g])]) d
  = Store.evalFilter regexp vars f d || Store.evalFilter regexp vars g d.
Proof. cbn. by rewrite orb_false_r, andb_true_r. Qed.

Lemma evalFilter_or3 (vars : D) (f g h : value) (d : D) :
  Store.evalFilter regexp vars (VDoc [("$or", VArr [f; g; h])]) d
  = Store.evalFilter regexp vars f d || Store.evalFilter regexp vars g d
    || Store.evalFilter regexp vars h d.
Proof. cbn. by rewrite orb_false_r, andb_true_r, orb_assoc. Qed.

Ltac entity_field :=
  apply field_clause_same;
  [ reflexivity | apply (bool_decide_unpack _); by vm_compute | assumption ].

(** The filters without the [starred] clause ask about fields of the
    entity only. *)
Lemma media_filter_same (search a b c : string) (d d' : D) :
  sameEntityFields d d' ->
  Store.evalFilter regexp [] (VDoc (buildMatchStage search "" a b c)) d
  = Store.evalFilter regexp [] (VDoc (buildMatchStage search "" a b c)) d'.
Proof.
  intros Hsame.
  rewrite (buildMatchStage_clauses search "" a b c), media_search_clause.
  rewrite !evalFilter_app.
  f_equal; [ | f_equal; [ | f_equal; [ | f_equal ] ] ].
  - unfold artistClause. destruct (String.eqb b ""); [ done | ].
    rewrite !evalFilter_and1, !evalFilter_or2. f_equal; entity_field.
  - unfold albumClause. destruct (String.eqb a ""); [ done | ]. entity_field.
  - unfold yearClause. destruct (Strconv.Atoi c); [ | done ]. entity_field.
  - destruct (String.eqb search ""); [ done | ].
    rewrite !evalFilter_or3. f_equal; [ f_equal | ]; entity_field.
Qed.

Lemma album_filter_same (search a b c : string) (d d' : D) :
  sameEntityFields d d' ->
  Store.evalFilter regexp [] (VDoc (buildAlbumMatch search "" a b c)) d
  = Store.evalFilter regexp [] (VDoc (buildAlbumMatch search "" a b c)) d'.
Proof.
  intros Hsame.
  rewrite (buildAlbumMatch_clauses search "" a b c), album_search_clause.
  rewrite !evalFilter_app.
  f_equal; [ | f_equal; [ | f_equal ] ].
  - unfold albumArtistClause. destruct (String.eqb a ""); [ done | ].
    rewrite !evalFilter_or2. f_equal; entity_field.
  - unfold yearWindowClause.
    destruct (yearBounds (Strconv.Atoi b) (Strconv.Atoi c)); [ done | ].
    rewrite !evalFilter_or2. f_equal; entity_field.
  - destruct (String.eqb search ""); [ done | ].
    rewrite !evalFilter_or3. f_equal; [ f_equal | ]; entity_field.
Qed.

(** A field that [$addFields] writes holds the value of its expression,
    when the expressions read the annotation only. *)
Lemma get_addFields_in (fields : D) (d : D) (k : string) (e : value) :
  NoDup (map fst fields) ->
  "annotations" ∉ map fst fields ->
  (forall k' e' d1 d2,
     (k', e') ∈ fields -> get "annotations" d1 = get "annotations" d2 ->
     Store.evalExpr [] d1 e' = Store.evalExpr [] d2 e') ->
  (k, e) ∈ fields ->
  get k (Store.addFields fields d) = Store.evalExpr [] d e.
Proof.
  revert d. induction fields as [|[k0 e0] fs IH]; intros d Hnd Hann Hdep Hin.
  - by apply elem_of_nil in Hin.
  - cbn [Store.addFields]. cbn [map fst] in Hnd, Hann.
    apply NoDup_cons in Hnd as [Hk0 Hnd].
    apply not_elem_of_cons in Hann as [Hne Hann].
    apply elem_of_cons in Hin as [Heq | Hin].
    + injection Heq as -> ->. rewrite get_addFields_other by done.
      destruct (Store.evalExpr [] d e0); [ apply get_set_eq | apply get_remove_eq ].
    + rewrite IH; [ | done | done | | done ].
      * apply (Hdep k e); [ by right | ].
        destruct (Store.evalExpr [] d e0);
          [ by apply get_set_ne | by apply get_remove_ne ].
      * intros k' e' d1 d2 Hin'. apply (Hdep k' e'). by right.
Qed.

Lemma annotation_exprs (k : string) (e : value) (d1 d2 : D) :
  (k, e) ∈ annotationFields -> get "annotations" d1 = get "annotations" d2 ->
  Store.evalExpr [] d1 e = Store.evalExpr [] d2 e.
Proof.
  unfold annotationFields. intros Hin Hann.
  repeat (apply elem_of_cons in Hin as [[= -> ->] | Hin];
          [ cbn; by rewrite Hann | ]).
  by apply elem_of_nil in Hin.
Qed.

(** The flattened field of the joined row of an annotated entity is the
    field of the annotation. *)
Lemma get_flattened (d x : D) (k : string) :
  get "annotations" d = Some (VDoc x) ->
  k ∈ map fst annotationFields ->
  get k (Store.addFields annotationFields d) = get k x.
Proof.
  intros Hann Hk.
  assert (exists e, (k, e) ∈ annotationFields
                    /\ Store.evalExpr [] d e = get k x) as (e & Hin & <-).
  { unfold annotationFields in *. cbn [map fst] in Hk.
    repeat (apply elem_of_cons in Hk as [-> | Hk];
            [ eexists; split;
              [ repeat first [ apply list_elem_of_here
                             | apply list_elem_of_further ]
              | cbn; rewrite Hann; by destruct (get _ x) ] | ]).
    by apply elem_of_nil in Hk. }
  apply get_addFields_in; [ | | apply annotation_exprs | done ];
    apply (bool_decide_unpack _); by vm_compute.
Qed.

(** The record of an entity with at most one annotation is starred and
    played exactly when the facets of the counts say so of the entity
    with its annotations attached. *)
Lemma row_tally (tag : string) (annots : list D) (e row : D) (m : Metadata) :
  (List.length (annotationsOf tag annots e) <= 1)%nat ->
  row ∈ joinEntity tag annots e ->
  decodeMetadata row = Some m ->
  (Starred m = true <-> isStarred (withAnnotations tag annots e))
  /\ (0 < PlayCount m <-> isPlayed (withAnnotations tag annots e)).
Proof.
  intros Hone. unfold joinEntity, withAnnotations, isStarred, isPlayed.
  rewrite unwind_annotations.
  destruct (annotationsOf tag annots e) as [|x [|y l]]; [ | | cbn in Hone; lia ].
  - cbn [map]. intros ->%list_elem_of_singleton.
    rewrite addFields_unannotated by apply get_remove_eq.
    fold (unannotated e). rewrite decode_unannotated. intros [= <-].
    cbn. rewrite !get_set_eq. cbn. split; split; (done || lia).
  - cbn [map]. intros ->%list_elem_of_singleton.
    unfold decodeMetadata.
    rewrite !(get_flattened _ x)
      by (first [ apply get_set_eq | apply (bool_decide_unpack _); by vm_compute ]).
    generalize (Store.addFields annotationFields
                  (set "annotations" (VDoc x)
                     (set "annotations" (VArr [VDoc x]) e))).
    intros row. cbn. rewrite !get_set_eq. cbn.
    destruct (get "play_count" x) as [[| |n| | | |]|]; cbn; try done;
      destruct (decodeDate (get "play_date" x)); try done;
      destruct (decodeInt (get "rating" x)); try done;
      destruct (get "starred" x) as [[| | | | | |]|]; cbn; try done;
      destruct (decodeDate (get "starred_at" x)); try done;
      intros [= <-]; cbn;
      repeat match goal with flag : bool |- _ => destruct flag end; cbn;
      rewrite ?orb_false_r, ?andb_true_r, ?Z.ltb_lt;
      split; split; (done || lia).
Qed.

Lemma Forall2_filter_length {X Y : Type} (R : X -> Y -> Prop)
    (P : X -> Prop) (Q : Y -> Prop)
    `{!forall x, Decision (P x)} `{!forall y, Decision (Q y)}
    (l : list X) (k : list Y) :
  Forall2 R l k -> (forall x y, R x y -> (P x <-> Q y)) ->
  List.length (filter P l) = List.length (filter Q k).
Proof.
  intros HR HPQ. induction HR as [|x y l k Hxy _ IH]; [ done | ].
  rewrite !filter_cons. destruct (HPQ x y Hxy) as [H1 H2].
  destruct (decide (P x)) as [Hp|Hp], (decide (Q y)) as [Hq|Hq]; cbn;
    [ by rewrite IH | by destruct Hq; apply H1 | by destruct Hp; apply H2 | done ].
Qed.

(** The tallies of a record, read from its document. *)
Definition starredDoc (d : D) : Prop :=
  from_option Starred false (decodeMetadata d) = true.

Definition playedDoc (d : D) : Prop :=
  from_option (fun m => 0 <? PlayCount m) false (decodeMetadata d) = true.

#[local] Instance starredDoc_dec (d : D) : Decision (starredDoc d).
Proof. unfold starredDoc. apply _. Defined.

#[local] Instance playedDoc_dec (d : D) : Decision (playedDoc d).
Proof. unfold playedDoc. apply _. Defined.

Lemma withAnnotations_fields (tag : string) (annots : list D) (e row : D) :
  row ∈ joinEntity tag annots e ->
  sameEntityFields row (withAnnotations tag annots e).
Proof.
  intros Hrow k Hk. rewrite (joinEntity_field tag annots e row k Hk Hrow).
  unfold withAnnotations. symmetry. apply get_set_ne.
  intros ->. apply Hk. unfold joinFields. by left.
Qed.

(** Entity by entity, the rows a listing filters and the rows a count
    filters are the same entities, with the same tallies. *)
Lemma tally_rows (tag : string) (annots docs : list D) (base : D) :
  (forall d d', sameEntityFields d d' ->
     Store.evalFilter regexp [] (VDoc base) d = Store.evalFilter regexp [] (VDoc base) d') ->
  oneAnnotation tag annots docs ->
  Forall (fun d => is_Some (decodeMetadata d))
    (filter (fun d => Store.evalFilter regexp [] (VDoc base) d = true)
       (flat_map (joinEntity tag annots) docs)) ->
  Forall2 (fun row w => (starredDoc row <-> isStarred w)
                        /\ (playedDoc row <-> isPlayed w))
    (filter (fun d => Store.evalFilter regexp [] (VDoc base) d = true)
       (flat_map (joinEntity tag annots) docs))
    (filter (fun d => Store.evalFilter regexp [] (VDoc base) d = true)
       (map (withAnnotations tag annots) docs)).
Proof.
  intros Hbase. induction docs as [|e docs IH]; intros Hone Hdec; [ constructor | ].
  assert ((List.length (annotationsOf tag annots e) <= 1)%nat) as He
    by (apply Hone; by left).
  destruct (joinEntity_single tag annots e He) as [row Hrow].
  assert (row ∈ joinEntity tag annots e) as Hin by (rewrite Hrow; by left).
  pose proof (Hbase _ _ (withAnnotations_fields tag annots e row Hin)) as Hsame.
  cbn [flat_map map] in Hdec |- *. rewrite Hrow in Hdec |- *.
  cbn [app] in Hdec |- *.
  rewrite filter_cons in Hdec. rewrite !filter_cons.
  destruct (decide (Store.evalFilter regexp [] (VDoc base) row = true)) as [Hr|Hr],
    (decide (Store.evalFilter regexp [] (VDoc base) (withAnnotations tag annots e) = true))
      as [Hw|Hw];
    [ | by rewrite Hsame in Hr | by rewrite Hsame in Hr | ].
  - apply Forall_cons in Hdec as [[m Hm] Hdec].
    constructor.
    + destruct (row_tally tag annots e row m He Hin Hm) as [Hs Hp].
      unfold starredDoc, playedDoc. rewrite Hm. cbn.
      by rewrite Z.ltb_lt.
    + apply IH; [ | done ]. intros e' He'. apply Hone. by right.
  - apply IH; [ | done ]. intros e' He'. apply Hone. by right.
Qed.

(** The three tallies of a list of records. *)
Definition tally (items : list Metadata) : FilterCounts :=
  {| Total := Z.of_nat (List.length items);
     StarredCount :=
       Z.of_nat (List.length (filter (fun m => Starred m = true) items));
     RecentPlay :=
       Z.of_nat (List.length (filter (fun m => 0 < PlayCount m) items)) |}.

(** The counts over the rows of a count pipeline are the tallies of the
    records decoded from a rearrangement of the rows of a listing with
    the same filter. *)
Lemma facetCounts_tally (r : repository) (tag : string) (base : D)
    (out : list D) (items : list Metadata) :
  (forall d d', sameEntityFields d d' ->
     Store.evalFilter regexp [] (VDoc base) d = Store.evalFilter regexp [] (VDoc base) d') ->
  oneAnnotation tag
    (Store.collectionOf (Collections (db r))
       CollectionFileEntityAudioSceneAnnotation)
    (Store.collectionOf (Collections (db r)) (collection r)) ->
  mapM decodeMetadata out = Some items ->
  out ≡ₚ filter (fun d => Store.evalFilter regexp [] (VDoc base) d = true)
           (flat_map
              (joinEntity tag
                 (Store.collectionOf (Collections (db r))
                    CollectionFileEntityAudioSceneAnnotation))
              (Store.collectionOf (Collections (db r)) (collection r))) ->
  facetCounts (countRows r tag base) = tally items.
Proof.
  intros Hbase Hone Hdec%mapM_Some_1 Hperm.
  assert (Forall (fun d => is_Some (decodeMetadata d)) out) as Hall.
  { apply Forall_forall. intros d Hd.
    apply list_elem_of_lookup_1 in Hd as [i Hi].
    destruct (Forall2_lookup_l _ _ _ _ _ Hdec Hi) as (m & _ & Hm). by exists m. }
  rewrite Hperm in Hall.
  pose proof (tally_rows tag _ _ base Hbase Hone Hall) as Hrows.
  fold (countRows r tag base) in Hrows.
  unfold facetCounts, tally. f_equal; f_equal.
  - rewrite <- (Forall2_length _ _ _ Hrows), <- Hperm.
    by apply Forall2_length in Hdec.
  - rewrite <- (Forall2_filter_length _ starredDoc isStarred _ _ Hrows)
      by (by intros ? ? [? _]).
    rewrite <- Hperm.
    apply (Forall2_filter_length (fun d m => decodeMetadata d = Some m));
      [ done | ].
    intros d m Hm. unfold starredDoc. by rewrite Hm.
  - rewrite <- (Forall2_filter_length _ playedDoc isPlayed _ _ Hrows)
      by (by intros ? ? [_ ?]).
    rewrite <- Hperm.
    apply (Forall2_filter_length (fun d m => decodeMetadata d = Some m));
      [ done | ].
    intros d m Hm. unfold playedDoc. rewrite Hm. cbn. by rewrite Z.ltb_lt.
Qed.

(** The documents of a listing without page and without the filter that
    comes with sorting by play: a rearrangement of the joined rows that
    pass the filter. *)
Lemma listItems_unpaged (r : repository) (ctx : Context) (var tag : string)
    (filter_ : D) (v order : string) (items : list Metadata) :
  Store.stripDollar tag = None ->
  listItems r ctx
    (annotationJoin var tag ++ baseFilterStage filter_
     ++ [ buildSortStage v order ]) = Ok items ->
  exists out,
    mapM decodeMetadata out = Some items
    /\ out ≡ₚ filter (fun d => Store.evalFilter regexp [] (VDoc filter_) d = true)
                (flat_map
                   (joinEntity tag
                      (Store.collectionOf (Collections (db r))
                         CollectionFileEntityAudioSceneAnnotation))
                   (Store.collectionOf (Collections (db r)) (collection r))).
Proof.
  intros Htag. unfold listItems, Aggregate.
  destruct (expired _ _); [ done | ].
  rewrite runPipeline_app, run_annotationJoin by done.
  rewrite runPipeline_app, run_baseFilterStage.
  destruct (Store.validFilter regexp (VDoc filter_)); [ | done ].
  cbn [Store.runPipeline]. rewrite run_sortStage.
  destruct (mapM decodeMetadata _) as [results|] eqn:Hdec; [ | done ].
  intros [= <-]. eexists. split; [ exact Hdec | ].
  symmetry. apply sortDocs_perm.
Qed.

(** The counts are the tallies of the listing.  Over a catalogue with at
    most one annotation per entity, and with a sort that does not bring
    the played filter, the counts of a request are the number of records
    of the listing without bounds, the number of those that are starred
    and the number of those that have been played.  The listing is the
    one without the [starred] parameter: the track counts ignore it, and
    the album counts are taken without it. *)
Theorem counts_tally_listing (r : repository) (ctx ctx' : Context)
    (sort order search starred a b c : string)
    (items : list Metadata) (counts : FilterCounts) :
  let docs := Store.collectionOf (Collections (db r)) (collection r) in
  let annots :=
    Store.collectionOf (Collections (db r))
      CollectionFileEntityAudioSceneAnnotation in
  (oneAnnotation "media" annots docs ->
   validateSortField sort a <> "play_date" ->
   GetMediaFileItems r ctx "" "" sort order search "" a b c = Ok items ->
   GetMediaFileFilterItemsCount r ctx' search starred a b c = Ok counts ->
   counts = tally items)
  /\ (oneAnnotation "album" annots docs ->
      validateAlbumSortField sort <> "play_count" ->
      validateAlbumSortField sort <> "play_date" ->
      GetAlbumItems r ctx "" "" sort order search "" a b c = Ok items ->
      GetAlbumFilterItemsCount r ctx' search "" a b c = Ok counts ->
      counts = tally items).
Proof.
  intros docs annots. split.
  - intros Hone Hsort.
    change (GetMediaFileItems r ctx "" "" sort order search "" a b c)
      with (listItems r ctx
              (GetMediaFileItems_pipeline "" "" sort order search "" a b c)).
    rewrite GetMediaFileItems_pipeline_stages, buildMediaPaginationStage_resolve,
      Paginator_resolve_empty.
    unfold mediaSecondaryFilter.
    destruct (String.eqb_spec (validateSortField sort a) "play_date"); [ done | ].
    cbn [pageStages default from_option id app].
    intros (out & Hdec & Hperm)%listItems_unpaged; [ | done ].
    rewrite GetMediaFileFilterItemsCount_countItems.
    intros ->%countItems_rows; [ | done ].
    unfold buildBaseMatch.
    apply (facetCounts_tally r "media" _ out items); try done.
    intros d d'. apply media_filter_same.
  - intros Hone Hcount Hdate.
    change (GetAlbumItems r ctx "" "" sort order search "" a b c)
      with (listItems r ctx
              (GetAlbumItems_pipeline "" "" sort order search "" a b c)).
    rewrite GetAlbumItems_pipeline_stages, buildAlbumPaginationStage_media,
      buildMediaPaginationStage_resolve, Paginator_resolve_empty.
    unfold albumSecondaryFilter.
    destruct (String.eqb_spec (validateAlbumSortField sort) "play_count");
      [ done | ].
    destruct (String.eqb_spec (validateAlbumSortField sort) "play_date");
      [ done | ].
    cbn [pageStages default from_option id app orb].
    change (buildAlbumSortStage ?v ?o) with (buildSortStage v o).
    intros (out & Hdec & Hperm)%listItems_unpaged; [ | done ].
    rewrite GetAlbumFilterItemsCount_countItems.
    intros ->%countItems_rows; [ | done ].
    unfold buildAlbumBaseMatch.
    apply (facetCounts_tally r "album" _ out items); try done.
    intros d d'. apply album_filter_same.
Qed.

(** *** The keys of the queries *)

Definition pipelineKeys (pipeline : list D) : list string :=
  flat_map (fun stage => keysOf (VDoc stage)) pipeline.

(** The stage names, operators, variable names and field names that the
    four methods write as keys. *)
Definition queryKeys : list string :=
  [ "$lookup"; "from"; "let"; "mediaId"; "albumId"; "pipeline"; "as";
    "$unwind"; "path"; "preserveNullAndEmptyArrays"; "$addFields";
    "$match"; "$sort"; "$skip"; "$limit"; "$facet"; "$count";
    "$expr"; "$and"; "$or"; "$eq"; "$gt"; "$gte"; "$lte"; "$ne";
    "$regex"; "$options";
    "_id"; "play_count"; "play_date"; "rating"; "starred"; "starred_at";
    "artist_id"; "all_artist_ids.artist_id"; "album_id"; "year";
    "min_year"; "max_year"; "title"; "artist"; "album"; "name";
    "album_artist"; "total"; "recent_play"; "annotations.starred";
    "annotations.play_count" ].

Lemma pipelineKeys_app (p q : list D) :
  pipelineKeys (p ++ q) = pipelineKeys p ++ pipelineKeys q.
Proof. unfold pipelineKeys. apply flat_map_app. Qed.

Lemma keysOf_app (f g : D) :
  keysOf (VDoc (f ++ g)) = keysOf (VDoc f) ++ keysOf (VDoc g).
Proof. cbn [keysOf]. apply flat_map_app. Qed.

Ltac fixed_keys :=
  cbn;
  repeat (apply Forall_cons; split;
          [ apply (bool_decide_unpack _); by vm_compute | ]);
  constructor.

Lemma join_keys (var tag : string) :
  var = "mediaId" \/ var = "albumId" ->
  Forall (fun k => k ∈ queryKeys) (pipelineKeys (annotationJoin var tag)).
Proof. intros [-> | ->]; unfold annotationJoin, pipelineKeys; fixed_keys. Qed.

Lemma media_filter_keys (search starred a b c : string) :
  Forall (fun k => k ∈ queryKeys)
    (keysOf (VDoc (buildMatchStage search starred a b c))).
Proof.
  rewrite (buildMatchStage_clauses search starred a b c), media_search_clause.
  rewrite !keysOf_app, !Forall_app.
  unfold artistClause, albumClause, yearClause, starredClause.
  destruct (String.eqb b ""), (String.eqb a ""), (Strconv.Atoi c),
    (String.eqb search ""), (Strconv.ParseBool starred);
    repeat split; fixed_keys.
Qed.

Lemma album_filter_keys (search starred a b c : string) :
  Forall (fun k => k ∈ queryKeys)
    (keysOf (VDoc (buildAlbumMatch search starred a b c))).
Proof.
  rewrite (buildAlbumMatch_clauses search starred a b c), album_search_clause.
  rewrite !keysOf_app, !Forall_app.
  unfold albumArtistClause, yearWindowClause, yearBounds, starredClause.
  destruct (String.eqb a ""), (Strconv.Atoi b), (Strconv.Atoi c),
    (String.eqb search ""), (Strconv.ParseBool starred);
    repeat split; fixed_keys.
Qed.

Lemma baseFilterStage_keys (f : D) :
  Forall (fun k => k ∈ queryKeys) (keysOf (VDoc f)) ->
  Forall (fun k => k ∈ queryKeys) (pipelineKeys (baseFilterStage f)).
Proof.
  intros Hf. destruct f as [|c f]; [ constructor | ].
  unfold baseFilterStage, pipelineKeys. cbn [flat_map].
  rewrite app_nil_r.
  change (keysOf (VDoc [("$match", VDoc (c :: f))]))
    with ("$match" :: keysOf (VDoc (c :: f)) ++ []).
  rewrite app_nil_r. apply Forall_cons. split; [ | done ].
  apply (bool_decide_unpack _). by vm_compute.
Qed.

Lemma page_keys (start end_ : string) :
  Forall (fun k => k ∈ queryKeys)
    (pipelineKeys (default [] (buildMediaPaginationStage start end_))).
Proof.
  rewrite buildMediaPaginationStage_resolve.
  destruct (Paginator_resolve start end_) as [[skip limit]|]; [ | constructor ].
  cbn [pageStages default from_option id]. destruct (skip =? 0); fixed_keys.
Qed.

Lemma sort_keys (fields : list string) (v order : string) :
  v ∈ fields ->
  Forall (fun k => k ∈ queryKeys ++ fields)
    (pipelineKeys [ buildSortStage v order ]).
Proof.
  intros Hv.
  assert (pipelineKeys [ buildSortStage v order ] = ["$sort"; v; "_id"]) as ->
    by reflexivity.
  repeat (apply Forall_cons; split); [ | | | constructor ].
  - apply elem_of_app. left. apply (bool_decide_unpack _). by vm_compute.
  - apply elem_of_app. by right.
  - apply elem_of_app. left. apply (bool_decide_unpack _). by vm_compute.
Qed.

Lemma queryKeys_more (fields keys : list string) :
  Forall (fun k => k ∈ queryKeys) keys ->
  Forall (fun k => k ∈ queryKeys ++ fields) keys.
Proof.
  intros Hkeys. apply (Forall_impl _ _ _ Hkeys).
  intros k Hk. apply elem_of_app. by left.
Qed.

(** No parameter of a request is written as a key of a query.  Every
    key of the pipelines of the four methods is one of the fixed names
    of [queryKeys], or the sort field, which is one of the fields of the
    allow-list of its kind: the parameters reach the store as values
    only. *)
Theorem query_keys_fixed
    (start end_ sort order search starred a b c : string) :
  Forall (fun k => k ∈ queryKeys ++ mediaSortFields)
    (pipelineKeys
       (GetMediaFileItems_pipeline start end_ sort order search starred a b c))
  /\ Forall (fun k => k ∈ queryKeys ++ albumSortFields)
       (pipelineKeys
          (GetAlbumItems_pipeline start end_ sort order search starred a b c))
  /\ Forall (fun k => k ∈ queryKeys)
       (pipelineKeys
          (GetMediaFileFilterItemsCount_pipeline search starred a b c))
  /\ Forall (fun k => k ∈ queryKeys)
       (pipelineKeys (GetAlbumFilterItemsCount_pipeline search starred a b c)).
Proof.
  split; [ | split; [ | split ] ].
  - rewrite GetMediaFileItems_pipeline_stages, !pipelineKeys_app, !Forall_app.
    split; [ | split; [ | split; [ | split ] ] ].
    + apply queryKeys_more, join_keys. by left.
    + apply queryKeys_more, baseFilterStage_keys, media_filter_keys.
    + apply queryKeys_more. unfold mediaSecondaryFilter.
      destruct (String.eqb _ "play_date"); fixed_keys.
    + apply sort_keys, validateSortField_in.
    + apply queryKeys_more, page_keys.
  - rewrite GetAlbumItems_pipeline_stages, !pipelineKeys_app, !Forall_app.
    split; [ | split; [ | split; [ | split ] ] ].
    + apply queryKeys_more, join_keys. by right.
    + apply queryKeys_more. unfold albumSecondaryFilter.
      destruct (_ || _); fixed_keys.
    + apply queryKeys_more, baseFilterStage_keys, album_filter_keys.
    + apply (sort_keys albumSortFields), validateAlbumSortField_in.
    + apply queryKeys_more, page_keys.
  - change (GetMediaFileFilterItemsCount_pipeline search starred a b c)
      with (countPipeline "mediaId" "media" (buildBaseMatch search a b c)).
    unfold countPipeline, pipelineKeys. cbn [flat_map].
    change (keysOf (VDoc [("$match", VDoc ?f)]))
      with ("$match" :: keysOf (VDoc f) ++ []).
    rewrite !Forall_app, Forall_cons, Forall_app.
    split; [ fixed_keys | ].
    split; [ split; [ apply (bool_decide_unpack _); by vm_compute | ] | ].
    + split; [ apply media_filter_keys | constructor ].
    + split; [ fixed_keys | constructor ].
  - change (GetAlbumFilterItemsCount_pipeline search starred a b c)
      with (countPipeline "albumId" "album"
              (buildAlbumBaseMatch search starred a b c)).
    unfold countPipeline, pipelineKeys. cbn [flat_map].
    change (keysOf (VDoc [("$match", VDoc ?f)]))
      with ("$match" :: keysOf (VDoc f) ++ []).
    rewrite !Forall_app, Forall_cons, Forall_app.
    split; [ fixed_keys | ].
    split; [ split; [ apply (bool_decide_unpack _); by vm_compute | ] | ].
    + split; [ apply album_filter_keys | constructor ].
    + split; [ fixed_keys | constructor ].
Qed.

End Engine.

(** ** A concrete catalogue *)

(** The case mapping of a deployment that lowers no character outside
    ASCII; the concrete runs below use it. *)
Definition noUnicode (s : string) : string := s.

Definition annotationCollection : string := "annotation".

Definition track (id title : string) : D :=
  [ ("_id", VStr id); ("title", VStr title); ("order_title", VStr title) ].

(** Five tracks, two of them with the same title. *)
Definition tracks : list D :=
  [ track "1" "B"; track "2" "A"; track "3" "D"; track "4" "A"; track "5" "E" ].

Definition albums : list D :=
  [ [ ("_id", VStr "2"); ("name", VStr "Blue"); ("min_year", VInt 1995);
      ("max_year", VInt 2005) ] ].

(** Track 2 is starred and was played three times, track 4 was played
    once; the album with the ID 2 has an annotation of its own. *)
Definition annotations : list D :=
  [ [ ("item_id", VStr "2"); ("item_type", VStr "media");
      ("play_count", VInt 3); ("play_date", VDate 1700000000);
      ("rating", VInt 5); ("starred", VBool true);
      ("starred_at", VDate 1690000000) ];
    [ ("item_id", VStr "4"); ("item_type", VStr "media");
      ("play_count", VInt 1); ("play_date", VDate 1710000000);
      ("rating", VInt 0); ("starred", VBool false) ];
    [ ("item_id", VStr "2"); ("item_type", VStr "album");
      ("play_count", VInt 9); ("play_date", VDate 1720000000);
      ("rating", VInt 4); ("starred", VBool false) ] ].

Definition catalogue (roundTrip : Z) : Database :=
  {| Collections :=
       list_to_map [ ("media", tracks); ("album", albums);
                     ("annotation", annotations) ];
     RoundTrip := roundTrip |}.

Definition mediaRepository : repository :=
  {| db := catalogue Second; collection := "media" |}.

Definition albumRepository : repository :=
  {| db := catalogue Second; collection := "album" |}.

(** The same catalogue behind a store that needs eleven seconds. *)
Definition slowMediaRepository : repository :=
  {| db := catalogue (11 * Second); collection := "media" |}.

(** ** The fragment library and the strings without metacharacters *)

(** A search string of ordinary characters: none of the metacharacters
    of the pattern language. *)
Definition plainSearch (search : string) : bool :=
  forallb Fragment.ordinary (list_ascii_of_string search).

Lemma ordinary_not_dot (c : ascii) :
  Fragment.ordinary c = true -> Ascii.eqb c "."%char = false.
Proof.
  destruct (Ascii.eqb_spec c "."%char) as [->|]; [ | done ].
  by vm_compute.
Qed.

Lemma matchHere_plain (p s : string) :
  plainSearch p = true ->
  Fragment.matchHere true p s = true
  <-> exists post, Strings.lowerASCII s = Strings.lowerASCII p +:+ post.
Proof.
  revert s. induction p as [|c p IH]; intros s Hp.
  - cbn. split; [ by exists (Strings.lowerASCII s) | done ].
  - unfold plainSearch in Hp. cbn in Hp. apply andb_true_iff in Hp as [Hc Hp].
    destruct s as [|x s]; cbn.
    + split; [ done | by intros [post Hpost] ].
    + unfold Fragment.byteMatches. rewrite (ordinary_not_dot c Hc).
      rewrite andb_true_iff, (IH s Hp).
      destruct (Ascii.eqb_spec (Strings.lowerByte c) (Strings.lowerByte x))
        as [Heq|Hne].
      * split.
        -- intros [_ [post Hpost]]. exists post. by rewrite Heq, Hpost.
        -- intros [post [= _ Hpost]]. eauto.
      * split; [ by intros [? _] | ].
        intros [post [= Heq _]]. by destruct Hne.
Qed.

Lemma regexSearch_plain (p s : string) :
  plainSearch p = true ->
  Fragment.regexSearch true p s = true <-> occursFold Strings.lowerASCII p s.
Proof.
  intros Hp. unfold occursFold. induction s as [|x s IH].
  - cbn [Fragment.regexSearch]. rewrite orb_false_r, (matchHere_plain p "" Hp).
    split.
    + intros [post Hpost]. by exists "", post.
    + intros (pre & post & Hocc). exists post.
      destruct pre; [ done | discriminate Hocc ].
  - cbn [Fragment.regexSearch]. rewrite orb_true_iff, (matchHere_plain p _ Hp), IH.
    split.
    + intros [[post Hpost] | (pre & post & Hocc)].
      * by exists "", post.
      * exists (String (Strings.lowerByte x) pre), post. cbn. by rewrite Hocc.
    + intros (pre & post & Hocc). destruct pre as [|y pre].
      * left. by exists post.
      * right. exists pre, post. cbn in Hocc. by injection Hocc.
Qed.

(** The fragment library takes a string of ordinary characters as a
    literal, up to the case of the ASCII letters. *)
Lemma fragment_literal (search : string) :
  plainSearch search = true ->
  Fragment.regexp search "i" = Some (Fragment.regexSearch true search)
  /\ literalPattern Strings.lowerASCII search
       (Fragment.regexSearch true search).
Proof.
  intros Hp. split.
  - unfold Fragment.regexp.
    assert (Fragment.inFragment search = true) as ->; [ | done ].
    unfold plainSearch in Hp. unfold Fragment.inFragment.
    induction (list_ascii_of_string search) as [|c l IH]; [ done | ].
    cbn in Hp |- *. apply andb_true_iff in Hp as [Hc Hl]. by rewrite Hc, IH.
  - intros subject. by apply regexSearch_plain.
Qed.

(** ** The properties at the concrete catalogue *)

(** C7 at the keys ["bogus"] (tracks of album ["42"]) and ["Bogus"]. *)
Lemma unknown_sort_key_fallback_witness :
  validateSortField noUnicode "bogus" "42" = "file_name"
  /\ validateAlbumSortField noUnicode "Bogus" = "_id".
Proof.
  split.
  - apply (unknown_sort_key_fallback noUnicode "bogus" "42").
    apply (bool_decide_unpack _). by vm_compute.
  - apply (unknown_sort_key_fallback noUnicode "Bogus" "").
    + apply (bool_decide_unpack _). by vm_compute.
    + by vm_compute.
Defined.

(** C7 as stated fails for albums: ["order_album_name"] is not a logical
    key, and it is resolved to itself, not to ["_id"]. *)
Lemma unknown_sort_key_album_counterexample :
  ("order_album_name" ∉ albumSortKeys)
  /\ validateAlbumSortField noUnicode "order_album_name" = "order_album_name"
  /\ validateAlbumSortField noUnicode "order_album_name" <> "_id".
Proof.
  split; [ apply (bool_decide_unpack _); by vm_compute | ].
  split; [ by vm_compute | by vm_compute ].
Qed.

(** C1 as stated fails for tracks: with [starred = "true"] the listing
    filter holds the starred clause and the listing returns the one
    starred track, while the base filter of the count is empty, the count
    is the one of the call without [starred], and the total is that of
    all five tracks. *)
Lemma count_ignores_starred_counterexample :
  buildMatchStage "" "true" "" "" "" = [("starred", VBool true)]
  /\ buildBaseMatch "" "" "" "" = []
  /\ GetMediaFileFilterItemsCount_pipeline annotationCollection
       "" "true" "" "" "" !! 1%nat
     <> Some [("$match", VDoc (buildMatchStage "" "true" "" "" ""))]
  /\ (exists m,
        GetMediaFileItems annotationCollection noUnicode Fragment.regexp mediaRepository
          Background "" "" "" "" "" "true" "" "" ""
        = Ok [m])
  /\ GetMediaFileFilterItemsCount annotationCollection Fragment.regexp mediaRepository
       Background "" "true" "" "" ""
     = Ok {| Total := 5; StarredCount := 1; RecentPlay := 2 |}.
Proof.
  split; [ reflexivity | ]. split; [ reflexivity | ].
  split; [ vm_compute; discriminate | ].
  split; [ eexists; vm_compute; reflexivity | vm_compute; reflexivity ].
Qed.

(** C2 at track 1, which has no annotation. *)
Lemma annotation_join_left_outer_witness :
  Store.runPipeline Fragment.regexp (Collections (catalogue Second))
    (annotationJoin annotationCollection "mediaId" "media") tracks
  = Some (flat_map (joinEntity "media" annotations) tracks)
  /\ joinEntity "media" annotations (track "1" "B") = [track "1" "B"]
  /\ decodeMetadata (track "1" "B")
     = Some {| Document := track "1" "B"; PlayCount := 0; PlayDate := None;
               Rating := 0; Starred := false; StarredAt := None |}.
Proof.
  destruct (annotation_join_left_outer annotationCollection noUnicode
              Fragment.regexp (Collections (catalogue Second)) "mediaId" "media" tracks
              (or_introl (conj eq_refl eq_refl)))
    as (_ & Hrun & _ & Hnone).
  split; [ exact Hrun | ].
  destruct (Hnone (track "1" "B")) as (Hjoin & _ & _ & Hdec).
  - by left.
  - by vm_compute.
  - split; [ exact Hjoin | exact Hdec ].
Defined.

(** C3 at the bounds ["1"], ["3"] and at the bounds ["3"], ["1"]. *)
Lemma pagination_contract_witness :
  buildMediaPaginationStage "1" "3"
  = Some [ [("$skip", VInt 1)]; [("$limit", VInt 2)] ]
  /\ atMost 2
       (GetMediaFileItems annotationCollection noUnicode Fragment.regexp mediaRepository
          Background "1" "3" "title" "asc" "" "" "" "" "")
  /\ GetMediaFileItems annotationCollection noUnicode Fragment.regexp mediaRepository
       Background "3" "1" "title" "asc" "" "" "" "" ""
     = GetMediaFileItems annotationCollection noUnicode Fragment.regexp mediaRepository
         Background "" "" "title" "asc" "" "" "" "" "".
Proof.
  split; [ | split ].
  - destruct (pagination_contract annotationCollection noUnicode Fragment.regexp "1" "3")
      as (Hstages & _). exact Hstages.
  - destruct (pagination_contract annotationCollection noUnicode Fragment.regexp "1" "3")
      as (_ & _ & _ & _ & Hbound & _).
    apply (Hbound 1 2 eq_refl mediaRepository Background
             "title" "asc" "" "" "" "" "").
  - destruct (pagination_contract annotationCollection noUnicode Fragment.regexp "3" "1")
      as (_ & _ & _ & _ & _ & Hnone).
    apply (Hnone eq_refl mediaRepository Background
             "title" "asc" "" "" "" "" "").
Defined.

(** C4 at the five tracks sorted by title: tracks 2 and 4 tie on the
    title and come in the order of their IDs, in either direction; and no
    ID occurs twice among the rows that reach the sort stage. *)
Lemma sort_deterministic_witness :
  (forall out,
     Store.sortedBy (stageKeys "order_title" "asc") tracks out ->
     out = [ track "2" "A"; track "4" "A"; track "1" "B"; track "3" "D";
             track "5" "E" ])
  /\ (forall out,
        Store.sortedBy (stageKeys "order_title" "desc") tracks out ->
        out = [ track "5" "E"; track "3" "D"; track "1" "B"; track "2" "A";
                track "4" "A" ])
  /\ (forall rows,
        Store.runPipeline Fragment.regexp (Collections (catalogue Second))
          (annotationJoin annotationCollection "mediaId" "media"
           ++ baseFilterStage (buildMatchStage "" "" "" "" "")
           ++ mediaSecondaryFilter "order_title") tracks = Some rows ->
        uniqueIds rows).
Proof.
  assert (uniqueIds tracks) as Huniq
    by (apply (bool_decide_unpack _); by vm_compute).
  split; [ | split ].
  - intros out Hout.
    destruct (sort_deterministic annotationCollection Fragment.regexp "order_title" "asc")
      as (_ & _ & _ & Hs & Hu & _).
    apply (Hu tracks out _ Huniq Hout). apply (Hs tracks).
  - intros out Hout.
    destruct (sort_deterministic annotationCollection Fragment.regexp "order_title" "desc")
      as (_ & _ & _ & Hs & Hu & _).
    apply (Hu tracks out _ Huniq Hout). apply (Hs tracks).
  - intros rows.
    destruct (sort_deterministic annotationCollection Fragment.regexp "order_title" "asc")
      as (_ & _ & _ & _ & _ & Hrows).
    apply (Hrows (Collections (catalogue Second)) tracks rows
             "" "" "" "" "" "order_title" Huniq).
    intros e He.
    repeat (apply elem_of_cons in He as [-> | He]; [ vm_compute; lia | ]).
    by apply elem_of_nil in He.
Defined.

(** C5 at the sort key ["play_date"]: of the five tracks the two played
    ones are returned. *)
Lemma play_sort_excludes_unplayed_witness :
  (exists m1 m2,
     GetMediaFileItems annotationCollection noUnicode Fragment.regexp mediaRepository
       Background "" "" "play_date" "" "" "" "" "" ""
     = Ok [m1; m2])
  /\ forall items,
       GetMediaFileItems annotationCollection noUnicode Fragment.regexp mediaRepository
         Background "" "" "play_date" "" "" "" "" "" ""
       = Ok items ->
       forall m, m ∈ items -> 0 < PlayCount m.
Proof.
  split; [ do 2 eexists; vm_compute; reflexivity | ].
  destruct (play_sort_excludes_unplayed annotationCollection noUnicode
              Fragment.regexp "" "" "play_date" "" "" "" "" "" "") as (Hplayed & _).
  destruct (Hplayed eq_refl) as (_ & Hall).
  apply (Hall mediaRepository Background).
Defined.

(** C6 as stated fails for albums: sorted by play count and searched for
    ["blue"], the album pipeline has the play filter as its fourth stage
    and the base filter as its fifth. *)
Lemma album_stage_order_counterexample :
  GetAlbumItems_pipeline annotationCollection noUnicode
    "" "" "play_count" "" "blue" "" "" "" ""
  <> annotationJoin annotationCollection "albumId" "album"
     ++ baseFilterStage (buildAlbumMatch "blue" "" "" "" "")
     ++ albumSecondaryFilter (validateAlbumSortField noUnicode "play_count")
     ++ [ buildAlbumSortStage (validateAlbumSortField noUnicode "play_count") "" ]
     ++ default [] (buildAlbumPaginationStage "" "")
  /\ GetAlbumItems_pipeline annotationCollection noUnicode
       "" "" "play_count" "" "blue" "" "" "" "" !! 3%nat
     = Some albumPlayedFilter
  /\ GetAlbumItems_pipeline annotationCollection noUnicode
       "" "" "play_count" "" "blue" "" "" "" "" !! 4%nat
     = Some [("$match", VDoc (buildAlbumMatch "blue" "" "" "" ""))].
Proof.
  split; [ | split; vm_compute; reflexivity ].
  intros Heq. apply (f_equal (fun p => p !! 3%nat)) in Heq.
  vm_compute in Heq. discriminate Heq.
Qed.

(** C8 at the search string ["abc"], which the library takes as a
    literal and which occurs in the title ["xABCx"]; and at the search
    string ["("], which the library does not compile. *)
Lemma search_clause_pattern_witness :
  Store.evalFilter Fragment.regexp []
    (VDoc (buildMatchStage "abc" "" "" "" "")) (track "7" "xABCx") = true
  /\ GetMediaFileItems annotationCollection noUnicode Fragment.regexp
       mediaRepository Background "" "" "" "" "(" "" "" "" ""
     = Err (DatabaseQueryFailed CommandFailed).
Proof.
  split.
  - destruct (fragment_literal "abc" eq_refl) as [Hcompiles Hliteral].
    destruct (search_clause_pattern annotationCollection noUnicode
                Fragment.regexp "abc" "" "" "" "") as (_ & _ & _ & _ & Hmeans).
    destruct (Hmeans Strings.lowerASCII _ Hcompiles Hliteral
                (track "7" "xABCx")) as [[_ Hmedia] _].
    apply Hmedia. split; [ reflexivity | ]. right.
    exists "title", "xABCx". split; [ by left | ].
    split; [ by left | by exists "x", "x" ].
  - assert ("(" <> "") as Hne by discriminate.
    destruct (search_clause_pattern annotationCollection noUnicode
                Fragment.regexp "(" "" "" "" "") as (_ & _ & Hfails & _).
    destruct (Hfails Hne eq_refl mediaRepository Background "" "" "" "")
      as (Hlisting & _).
    exact Hlisting.
Defined.

(** C8 as stated fails on metacharacters: the search string ["a.c"]
    matches the track titled ["abc"], in which it does not occur, and
    the search string ["("] makes the listing and the count fail. *)
Lemma search_metacharacter_counterexample :
  Store.evalFilter Fragment.regexp []
    (VDoc (buildMatchStage "a.c" "" "" "" "")) (track "7" "abc") = true
  /\ ~ occursInFields Strings.lowerASCII mediaSearchFields "a.c"
         (track "7" "abc")
  /\ GetMediaFileItems annotationCollection noUnicode Fragment.regexp
       mediaRepository Background "" "" "" "" "(" "" "" "" ""
     = Err (DatabaseQueryFailed CommandFailed)
  /\ GetMediaFileFilterItemsCount annotationCollection Fragment.regexp
       mediaRepository Background "(" "" "" "" ""
     = Err (CountQueryFailed CommandFailed).
Proof.
  split; [ by vm_compute | ].
  split; [ | split; by vm_compute ].
  intros (field & s & Hfield & Hs & pre & post & Hocc).
  assert (s = "abc") as ->.
  { unfold mediaSearchFields in Hfield.
    apply elem_of_cons in Hfield as [-> | Hfield];
      [ vm_compute in Hs; by apply list_elem_of_singleton in Hs | ].
    apply elem_of_cons in Hfield as [-> | Hfield];
      [ vm_compute in Hs; by apply elem_of_nil in Hs | ].
    apply elem_of_cons in Hfield as [-> | Hfield];
      [ vm_compute in Hs; by apply elem_of_nil in Hs | ].
    by apply elem_of_nil in Hfield. }
  cbn in Hocc.
  destruct pre as [|? [|? [|? [|? pre]]]]; cbn in Hocc; discriminate Hocc.
Qed.

(** C9 at a store that answers after eleven seconds and a caller without
    a deadline: the listing fails with the deadline error, the count
    waits and returns. *)
Lemma count_runs_past_deadline :
  GetMediaFileItems annotationCollection noUnicode Fragment.regexp slowMediaRepository
    Background "" "" "" "" "" "" "" "" ""
  = Err (DatabaseQueryFailed DeadlineExceeded)
  /\ GetMediaFileFilterItemsCount annotationCollection Fragment.regexp slowMediaRepository
       Background "" "" "" "" ""
     = Ok {| Total := 5; StarredCount := 1; RecentPlay := 2 |}.
Proof. split; vm_compute; reflexivity. Qed.

(** C10 at the five tracks. *)
Lemma facet_counts_consistent_witness :
  GetMediaFileFilterItemsCount annotationCollection Fragment.regexp mediaRepository
    Background "" "" "" "" ""
  = Ok {| Total := 5; StarredCount := 1; RecentPlay := 2 |}
  /\ 0 <= 1 <= 5 /\ 0 <= 2 <= 5.
Proof.
  assert (GetMediaFileFilterItemsCount annotationCollection Fragment.regexp mediaRepository
            Background "" "" "" "" ""
          = Ok {| Total := 5; StarredCount := 1; RecentPlay := 2 |}) as Hrun
    by (vm_compute; reflexivity).
  split; [ exact Hrun | ].
  destruct (facet_counts_consistent annotationCollection Fragment.regexp mediaRepository
              Background "" "" "" "" "" _ (or_introl Hrun))
    as ((_ & Hs & Hp) & _).
  split; [ exact Hs | exact Hp ].
Defined.

(** ** Further runs over the catalogue *)

Definition titles (res : result (list Metadata)) : list (option value) :=
  match res with
  | Ok items => map (fun m => get "title" (Document m)) items
  | Err _ => []
  end.

(** The first page of the tracks by title. *)
Example first_page_by_title :
  titles (GetMediaFileItems annotationCollection noUnicode Fragment.regexp mediaRepository
            Background "0" "2" "title" "asc" "" "" "" "" "")
  = [ Some (VStr "A"); Some (VStr "A") ].
Proof. by vm_compute. Qed.

(** An unknown sort key lists by ["_id"]; both keys of the sort stage are
    then ["_id"], and the first one decides. *)
Example default_sort_descending :
  map (fun m => get "_id" (Document m))
    match GetMediaFileItems annotationCollection noUnicode Fragment.regexp mediaRepository
            Background "0" "2" "bogus" "desc" "" "" "" "" "" with
    | Ok items => items
    | Err _ => []
    end
  = [ Some (VStr "5"); Some (VStr "4") ].
Proof. by vm_compute. Qed.

(** An album of 1995-2005 is listed for the years 2000-2010, whose window
    holds its last year, and not for 2006-2010. *)
Example album_year_overlap :
  (exists m,
     GetAlbumItems annotationCollection noUnicode Fragment.regexp albumRepository Background
       "" "" "" "" "" "" "" "2000" "2010" = Ok [m])
  /\ GetAlbumItems annotationCollection noUnicode Fragment.regexp albumRepository Background
       "" "" "" "" "" "" "" "2006" "2010" = Ok [].
Proof. split; [ eexists | ]; by vm_compute. Qed.

(** A [starred] parameter that is no boolean adds no clause. *)
Example starred_not_a_boolean (search a b c : string) :
  buildMatchStage search "notaboolean" a b c = buildMatchStage search "" a b c
  /\ buildAlbumMatch search "notaboolean" a b c = buildAlbumMatch search "" a b c.
Proof.
  split; [ unfold buildMatchStage | unfold buildAlbumMatch ]; cbv zeta;
    change (Strconv.ParseBool "notaboolean") with (@None bool);
    change (String.eqb "notaboolean" "") with false;
    change (String.eqb "" "") with true; reflexivity.
Qed.

(** The album count tests [starred] on the entity itself, which the count
    pipeline does not flatten the annotation into: the one album, not
    starred, is listed for [starred = "false"] and is not counted. *)
Example album_count_starred_unflattened :
  (exists m,
     GetAlbumItems annotationCollection noUnicode Fragment.regexp albumRepository Background
       "" "" "" "" "" "false" "" "" "" = Ok [m])
  /\ GetAlbumFilterItemsCount annotationCollection Fragment.regexp albumRepository Background
       "" "false" "" "" ""
     = Ok {| Total := 0; StarredCount := 0; RecentPlay := 0 |}
  /\ GetAlbumFilterItemsCount annotationCollection Fragment.regexp albumRepository Background
       "" "" "" "" ""
     = Ok {| Total := 1; StarredCount := 0; RecentPlay := 1 |}.
Proof. split; [ eexists | split ]; by vm_compute. Qed.


(** ** The further properties at the concrete catalogue *)

(** The key ["TITLE"] lists as ["title"] does. *)
Lemma sort_key_ignores_case_witness :
  validateSortField noUnicode "TITLE" "" = "order_title"
  /\ GetMediaFileItems annotationCollection noUnicode Fragment.regexp mediaRepository
       Background "" "" "TITLE" "asc" "" "" "" "" ""
     = GetMediaFileItems annotationCollection noUnicode Fragment.regexp mediaRepository
         Background "" "" "title" "asc" "" "" "" "" "".
Proof.
  destruct (sort_key_ignores_case annotationCollection noUnicode
              Fragment.regexp mediaRepository Background "" "" "TITLE" "asc" "" "" "" "" ""
              eq_refl) as (Hfield & _ & Hlist & _).
  split; [ exact Hfield | exact Hlist ].
Defined.

(** The order ["DESC"] lists ascending. *)
Lemma order_is_case_sensitive_witness :
  buildSortStage "order_title" "DESC"
  = [ ("$sort", VDoc [ ("order_title", VInt 1); ("_id", VInt 1) ]) ]
  /\ GetMediaFileItems annotationCollection noUnicode Fragment.regexp mediaRepository
       Background "" "" "title" "DESC" "" "" "" "" ""
     = GetMediaFileItems annotationCollection noUnicode Fragment.regexp mediaRepository
         Background "" "" "title" "asc" "" "" "" "" "".
Proof.
  assert ("DESC" <> "desc") as Hne by discriminate.
  destruct (order_is_case_sensitive annotationCollection noUnicode
              Fragment.regexp mediaRepository Background "" "" "order_title" "DESC" "" "" "" "" ""
              Hne) as (Hstage & _).
  destruct (order_is_case_sensitive annotationCollection noUnicode
              Fragment.regexp mediaRepository Background "" "" "title" "DESC" "" "" "" "" ""
              Hne) as (_ & Hlist & _).
  split; [ exact Hstage | exact Hlist ].
Defined.

(** [starred = "1"] is [starred = "true"], and the year ["007"] is the
    year ["7"]. *)
Lemma filter_depends_on_parsed_values_witness :
  buildMatchStage "" "1" "" "" "007" = buildMatchStage "" "true" "" "" "7"
  /\ buildAlbumMatch "" "1" "" "007" "+9" = buildAlbumMatch "" "true" "" "7" "9".
Proof.
  destruct (filter_depends_on_parsed_values "" "1" "true" "" "" "007" "7"
              "007" "7" "+9" "9" eq_refl) as [Htrack Halbum].
  split; [ exact (Htrack eq_refl) | exact (Halbum eq_refl eq_refl) ].
Defined.

(** A track whose primary artist is [a1] and that lists [a2] among its
    artists. *)
Definition duet : D :=
  [ ("_id", VStr "9"); ("artist_id", VStr "a1");
    ("all_artist_ids", VArr [ VDoc [("artist_id", VStr "a1")];
                              VDoc [("artist_id", VStr "a2")] ]);
    ("album_id", VStr "al1"); ("year", VInt 7) ].

(** The duet is found under its second artist, as a track and as an
    album. *)
Lemma artist_filter_credits_witness :
  Store.evalFilter Fragment.regexp [] (VDoc (buildMatchStage "" "" "" "a2" "")) duet = true
  /\ Store.evalFilter Fragment.regexp [] (VDoc (buildAlbumMatch "" "" "a2" "" "")) duet = true.
Proof.
  assert ("a2" <> "") as Hne by discriminate.
  assert (creditedTo "a2" duet) as Hcredit.
  { right. eexists _, _. split; [ reflexivity | ].
    split; [ right; left | reflexivity ]. }
  destruct (artist_filter_credits Fragment.regexp "" "" "" "a2" "" duet Hne eq_refl)
    as [Htrack Halbum].
  split; [ apply Htrack | apply Halbum ]; by split.
Defined.

(** The album of 1995-2005 is not in the year window 1996-2004. *)
Lemma album_year_window_witness :
  Store.evalFilter Fragment.regexp [] (VDoc (buildAlbumMatch "" "" "" "1996" "2004"))
    [ ("_id", VStr "2"); ("name", VStr "Blue"); ("min_year", VInt 1995);
      ("max_year", VInt 2005) ]
  = false.
Proof.
  destruct (album_year_window Fragment.regexp "" "" "" "1996" "2004"
              [ ("_id", VStr "2"); ("name", VStr "Blue");
                ("min_year", VInt 1995); ("max_year", VInt 2005) ]
              1995 2005 eq_refl eq_refl) as [_ Hout].
  apply (Hout 1996 2004 eq_refl eq_refl); lia.
Defined.

(** The duet, of the year 7, is found for the album [al1] and the year
    ["07"]. *)
Lemma track_exact_filters_witness :
  Store.evalFilter Fragment.regexp [] (VDoc (buildMatchStage "" "" "al1" "" "07")) duet = true.
Proof.
  apply (track_exact_filters Fragment.regexp "" "" "al1" "" "07" duet "al1" 7 eq_refl eq_refl).
  split; [ by right | ]. split; [ by right | reflexivity ].
Defined.

(** With [starred = "false"] the listing of the five tracks holds track 4
    only, the one track with an annotation that is not starred. *)
Lemma starred_filter_lists_flagged_witness :
  exists m,
    GetMediaFileItems annotationCollection noUnicode Fragment.regexp mediaRepository
      Background "" "" "" "" "" "false" "" "" "" = Ok [m]
    /\ get "_id" (Document m) = Some (VStr "4")
    /\ Starred m = false
    /\ get "starred" (Document m) = Some (VBool false).
Proof.
  eexists. split; [ vm_compute; reflexivity | ].
  split; [ reflexivity | ].
  eapply (starred_filter_lists_flagged annotationCollection noUnicode
            Fragment.regexp mediaRepository Background "" "" "" "" "" "false" "" "" "" false
            _ eq_refl).
  - left. vm_compute. reflexivity.
  - by left.
Defined.

(** The second and third tracks by title are the page ["1"], ["3"]. *)
Lemma page_is_slice_witness :
  exists all,
    GetMediaFileItems annotationCollection noUnicode Fragment.regexp mediaRepository
      Background "" "" "title" "asc" "" "" "" "" "" = Ok all
    /\ List.length all = 5%nat
    /\ GetMediaFileItems annotationCollection noUnicode Fragment.regexp mediaRepository
         Background "1" "3" "title" "asc" "" "" "" "" ""
       = Ok (take 2 (drop 1 all)).
Proof.
  eexists. split; [ vm_compute; reflexivity | ].
  split; [ reflexivity | ].
  assert (0 <= 1 < 3) as Hbounds by lia.
  match goal with
  | |- _ = Ok (take _ (drop _ ?all)) =>
      destruct (page_is_slice annotationCollection noUnicode Fragment.regexp mediaRepository
                  Background "1" "3" "title" "asc" "" "" "" "" "" 1 3 all
                  eq_refl eq_refl Hbounds) as [Hpage _]
  end.
  apply Hpage. vm_compute. reflexivity.
Defined.

(** The pages ["0"], ["2"] and ["2"], ["4"] of the tracks by title make
    up the page ["0"], ["4"]. *)
Lemma consecutive_pages_tile_witness :
  exists first second,
    GetMediaFileItems annotationCollection noUnicode Fragment.regexp mediaRepository
      Background "0" "2" "title" "asc" "" "" "" "" "" = Ok first
    /\ GetMediaFileItems annotationCollection noUnicode Fragment.regexp mediaRepository
         Background "2" "4" "title" "asc" "" "" "" "" "" = Ok second
    /\ GetMediaFileItems annotationCollection noUnicode Fragment.regexp mediaRepository
         Background "0" "4" "title" "asc" "" "" "" "" ""
       = Ok (first ++ second).
Proof.
  eexists _, _.
  split; [ vm_compute; reflexivity | ].
  split; [ vm_compute; reflexivity | ].
  assert (0 <= 0 < 2) as Hfirst by lia.
  assert (2 < 4) as Hsecond by lia.
  match goal with
  | |- _ = Ok (?first ++ ?second) =>
      destruct (consecutive_pages_tile annotationCollection noUnicode
                  Fragment.regexp mediaRepository Background "0" "2" "4" "title" "asc"
                  "" "" "" "" "" 0 2 4 first second
                  eq_refl eq_refl eq_refl Hfirst Hsecond) as [Htile _]
  end.
  apply Htile; vm_compute; reflexivity.
Defined.

(** The records of the listing of the tracks carry the titles of
    tracks. *)
Lemma listed_records_are_entities_witness :
  exists items,
    GetMediaFileItems annotationCollection noUnicode Fragment.regexp mediaRepository
      Background "" "" "" "" "" "" "" "" "" = Ok items
    /\ forall m, m ∈ items ->
         exists e, e ∈ tracks
                   /\ get "title" (Document m) = get "title" e.
Proof.
  eexists. split; [ vm_compute; reflexivity | ].
  intros m Hm.
  match type of Hm with
  | _ ∈ ?items =>
      destruct (listed_records_are_entities annotationCollection noUnicode
                  Fragment.regexp mediaRepository Background "" "" "" "" "" "" "" "" "" items
                  (or_introl eq_refl) m Hm) as (e & He & Hfields)
  end.
  exists e. split; [ exact He | ].
  apply Hfields. apply (bool_decide_unpack _). by vm_compute.
Defined.

Lemma tracks_uniqueIds : uniqueIds tracks.
Proof. apply (bool_decide_unpack _). by vm_compute. Qed.

Lemma tracks_oneAnnotation : oneAnnotation "media" annotations tracks.
Proof.
  intros e He.
  repeat (apply elem_of_cons in He as [-> | He]; [ vm_compute; lia | ]).
  by apply elem_of_nil in He.
Qed.

(** No track is listed twice. *)
Lemma listing_ids_distinct_witness :
  exists items,
    GetMediaFileItems annotationCollection noUnicode Fragment.regexp mediaRepository
      Background "" "" "title" "desc" "" "" "" "" "" = Ok items
    /\ uniqueIds (map Document items).
Proof.
  eexists. split; [ vm_compute; reflexivity | ].
  match goal with
  | |- uniqueIds (map Document ?items) =>
      pose proof (listing_ids_distinct annotationCollection noUnicode
                    Fragment.regexp mediaRepository Background "" "" "title" "desc"
                    "" "" "" "" "" items tracks_uniqueIds) as [Hmedia _]
  end.
  apply Hmedia; [ exact tracks_oneAnnotation | vm_compute; reflexivity ].
Defined.

(** The one album is not counted with [starred = "false"]. *)
Lemma album_counts_starred_empty_witness :
  exists counts,
    GetAlbumFilterItemsCount annotationCollection Fragment.regexp albumRepository
      Background "" "false" "" "" "" = Ok counts
    /\ counts = {| Total := 0; StarredCount := 0; RecentPlay := 0 |}.
Proof.
  eexists. split; [ vm_compute; reflexivity | ].
  apply (album_counts_starred_empty annotationCollection Fragment.regexp albumRepository
           Background "" "false" "" "" "" false _ eq_refl).
  - intros e He.
    repeat (apply elem_of_cons in He as [-> | He]; [ reflexivity | ]).
    by apply elem_of_nil in He.
  - vm_compute. reflexivity.
Defined.

(** The tracks by title, descending, are in that order. *)
Lemma listing_in_sort_order_witness :
  exists items,
    GetMediaFileItems annotationCollection noUnicode Fragment.regexp mediaRepository
      Background "" "" "title" "desc" "" "" "" "" "" = Ok items
    /\ StronglySorted (docOrder (stageKeys "order_title" "desc"))
         (map Document items).
Proof.
  eexists. split; [ vm_compute; reflexivity | ].
  match goal with
  | |- StronglySorted _ (map Document ?items) =>
      destruct (listing_in_sort_order annotationCollection noUnicode
                  Fragment.regexp mediaRepository Background "" "" "title" "desc"
                  "" "" "" "" "" items) as [Hmedia _]
  end.
  apply Hmedia. vm_compute. reflexivity.
Defined.

(** The counts of the tracks are the tallies of their listing: five
    tracks, one starred, two played. *)
Lemma counts_tally_listing_witness :
  exists items counts,
    GetMediaFileItems annotationCollection noUnicode Fragment.regexp mediaRepository
      Background "" "" "title" "" "" "" "" "" "" = Ok items
    /\ GetMediaFileFilterItemsCount annotationCollection Fragment.regexp mediaRepository
         Background "" "true" "" "" "" = Ok counts
    /\ counts = tally items
    /\ counts = {| Total := 5; StarredCount := 1; RecentPlay := 2 |}.
Proof.
  eexists _, _.
  split; [ vm_compute; reflexivity | ].
  split; [ vm_compute; reflexivity | ].
  split; [ | reflexivity ].
  match goal with
  | |- ?counts = tally ?items =>
      pose proof (counts_tally_listing annotationCollection noUnicode
                    Fragment.regexp mediaRepository Background Background "title" ""
                    "" "true" "" "" "" items counts) as [Hmedia _]
  end.
  apply Hmedia.
  - exact tracks_oneAnnotation.
  - vm_compute. discriminate.
  - vm_compute. reflexivity.
  - vm_compute. reflexivity.
Defined.
